(** * Yongu CM: the persistence and interchange layer

    A shallow embedding of [services/storage.ts] (document validation, the
    two storage backends, the CSV codec) and of the two state handlers
    [handleAddLog] and [handleSaveClient], together with the properties the
    specification states about them. The other handlers of the application
    state, of the edit form and of the CSV import dialog follow, with
    further properties read off the code.

    JavaScript strings are modelled as Rocq strings whose characters stand
    for code units in the range 0..255; [undefined] is [None]; an exception
    is the [Throw] completion of the monad [JS]. *)

From Stdlib Require Import ZArith Lia Bool List Ascii String.
From stdpp Require Import base option list strings gmap.

Local Open Scope Z_scope.

(* ===================================================================== *)
(** * String primitives of the host language *)
(* ===================================================================== *)

Module JSString.

Definition dquote : ascii := "034"%char.
Definition comma : ascii := ","%char.
Definition LF : ascii := "010"%char.
Definition CR : ascii := "013"%char.

(** [str c] is the one-character string. *)
Definition str (c : ascii) : string := String c EmptyString.

(** WhiteSpace and LineTerminator code units below 256, the characters
    [String.prototype.trim] strips. *)
Definition is_white_space (c : ascii) : bool :=
  match N_of_ascii c with
  | 9%N | 10%N | 11%N | 12%N | 13%N | 32%N | 160%N => true
  | _ => false
  end.

Fixpoint trimStart (s : string) : string :=
  match s with
  | EmptyString => EmptyString
  | String c s' => if is_white_space c then trimStart s' else s
  end.

Fixpoint trimEnd (s : string) : string :=
  match s with
  | EmptyString => EmptyString
  | String c s' =>
      match trimEnd s' with
      | EmptyString => if is_white_space c then EmptyString else str c
      | t => String c t
      end
  end.

(** [s.trim()] *)
Definition trim (s : string) : string := trimEnd (trimStart s).

Definition lower_char (c : ascii) : ascii :=
  let n := N_of_ascii c in
  if ((65 <=? n) && (n <=? 90))%N then ascii_of_N (n + 32)
  else if ((192 <=? n) && (n <=? 222) && negb (n =? 215))%N
       then ascii_of_N (n + 32)
  else c.

(** [s.toLowerCase()] *)
Fixpoint toLowerCase (s : string) : string :=
  match s with
  | EmptyString => EmptyString
  | String c s' => String (lower_char c) (toLowerCase s')
  end.

Fixpoint startsWith (s k : string) : bool :=
  match k, s with
  | EmptyString, _ => true
  | String a k', String b s' => Ascii.eqb a b && startsWith s' k'
  | String _ _, EmptyString => false
  end.

(** [s.includes(k)] *)
Fixpoint includes (s k : string) : bool :=
  startsWith s k ||
  match s with
  | EmptyString => false
  | String _ s' => includes s' k
  end.

(** [s.split(sep)] for a one-character separator. *)
Fixpoint split (sep : ascii) (s : string) : list string :=
  match s with
  | EmptyString => [EmptyString]
  | String c s' =>
      if Ascii.eqb c sep then EmptyString :: split sep s'
      else match split sep s' with
           | w :: ws => String c w :: ws
           | [] => [str c]
           end
  end.

(** [s.split(/\r?\n/)] *)
Fixpoint splitLines (s : string) : list string :=
  match s with
  | EmptyString => [EmptyString]
  | String c s' =>
      if Ascii.eqb c LF then EmptyString :: splitLines s'
      else
        let keep := match splitLines s' with
                    | w :: ws => String c w :: ws
                    | [] => [str c]
                    end in
        if Ascii.eqb c CR then
          match s' with
          | String c2 s'' =>
              if Ascii.eqb c2 LF then EmptyString :: splitLines s'' else keep
          | EmptyString => keep
          end
        else keep
  end.

(** [l.join(sep)] *)
Fixpoint join (sep : string) (l : list string) : string :=
  match l with
  | [] => EmptyString
  | [x] => x
  | x :: xs => x +:+ sep +:+ join sep xs
  end.

(** [s.replace] of every double quote by two double quotes. *)
Fixpoint doubleQuotes (s : string) : string :=
  match s with
  | EmptyString => EmptyString
  | String c s' =>
      if Ascii.eqb c dquote then String dquote (String dquote (doubleQuotes s'))
      else String c (doubleQuotes s')
  end.

(** [s.slice(0, n)] *)
Fixpoint take (n : nat) (s : string) : string :=
  match n, s with
  | S n', String c s' => String c (take n' s')
  | _, _ => EmptyString
  end.

(** Truthiness of a string: only the empty string is falsy. *)
Definition nonempty (s : string) : bool :=
  match s with EmptyString => false | String _ _ => true end.

(** Truthiness of a [string | undefined]. *)
Definition truthy (o : option string) : bool :=
  match o with Some s => nonempty s | None => false end.

(** [a.findIndex(p)]: the first index whose element satisfies [p], or -1. *)
Fixpoint findIndex {A} (p : A -> bool) (l : list A) : Z :=
  match l with
  | [] => -1
  | x :: l' => if p x then 0
               else let r := findIndex p l' in
                    if r <? 0 then -1 else r + 1
  end.

Fixpoint has_char (c : ascii) (s : string) : bool :=
  match s with
  | EmptyString => false
  | String a s' => Ascii.eqb a c || has_char c s'
  end.

(** Every character of [s] is the double quote (so also the empty
    string). *)
Fixpoint all_quotes (s : string) : bool :=
  match s with
  | EmptyString => true
  | String a s' => Ascii.eqb a dquote && all_quotes s'
  end.

(** [s] is not empty and its last character is not white space. *)
Fixpoint last_nonspace (s : string) : bool :=
  match s with
  | EmptyString => false
  | String c EmptyString => negb (is_white_space c)
  | String _ s' => last_nonspace s'
  end.

End JSString.
Import JSString.

(* ===================================================================== *)
(** * Completions, the browser state and the monad [JS] *)
(* ===================================================================== *)

(** The exceptions the modelled code can meet. [DOMException n] carries the
    exception's name: [QuotaExceededError] from the storage, [AbortError]
    from a dismissed picker, [NotFoundError] from a vanished file. *)
Inductive JSError : Type :=
| Error (message : string)
| RangeError (message : string)
| SyntaxError (message : string)
| TypeError (message : string)
| DOMException (name : string).

Inductive Completion (A : Type) : Type :=
| Normal (a : A)
| Throw (e : JSError).
Arguments Normal {A} a.
Arguments Throw {A} e.

(** What the user and the platform see happen. *)
Inductive IOEvent : Type :=
| OpenPickerShown
| SavePickerShown
| FileRead (handle : string)
| FileWritten (handle : string) (content : string)
| Downloaded (filename : string) (content : string).

(** A file handle is identified by the name of its file. *)
Definition FileSystemFileHandle : Type := string.

(** The three awaited calls that write a file: [handle.createWritable()],
    [writable.write(text)] and [writable.close()]. *)
Inductive WriteCall : Type := CreateWritable | WriteData | CloseWritable.

(** The mutable surroundings of the program. A picker member is [None]
    when the platform lacks it and otherwise holds what the picker's
    promise settles to: the handle the user chose, or the rejection of a
    dismissed dialog. [rejection] tells, for a file and a call of a write,
    whether the call's promise rejects (permission withdrawn, disk full,
    file gone) and with what. *)
Record Browser : Type := mkBrowser {
  now : Z;
  minted : nat;
  localStorage : gmap string string;
  quota : nat;
  console : list string;
  alerts : list string;
  showOpenFilePicker : option (Completion FileSystemFileHandle);
  showSaveFilePicker : option (Completion FileSystemFileHandle);
  files : gmap string string;
  io : list IOEvent;
  rejection : FileSystemFileHandle -> WriteCall -> option JSError
}.

(** No call of a write rejects. *)
Definition no_rejection : FileSystemFileHandle -> WriteCall -> option JSError :=
  fun _ _ => None.

Definition JS (A : Type) : Type := Browser -> Completion A * Browser.

Definition ret {A} (a : A) : JS A := fun w => (Normal a, w).

Definition throw {A} (e : JSError) : JS A := fun w => (Throw e, w).

Definition bind {A B} (m : JS A) (k : A -> JS B) : JS B :=
  fun w => match m w with
           | (Normal a, w') => k a w'
           | (Throw e, w') => (Throw e, w')
           end.

(** [try { m } catch (e) { h e }] *)
Definition try_catch {A} (m : JS A) (h : JSError -> JS A) : JS A :=
  fun w => match m w with
           | (Normal a, w') => (Normal a, w')
           | (Throw e, w') => h e w'
           end.

Notation "x <- m ;; k" := (bind m (fun x => k))
  (at level 100, m at level 99, k at level 200, right associativity).
Notation "m ;; k" := (bind m (fun _ => k))
  (at level 100, k at level 200, right associativity).

Definition console_log (msg : string) : JS unit :=
  fun w => (Normal tt,
            mkBrowser (now w) (minted w) (localStorage w) (quota w)
                      (console w ++ [msg]) (alerts w)
                      (showOpenFilePicker w) (showSaveFilePicker w)
                      (files w) (io w) (rejection w)).

Definition alert (msg : string) : JS unit :=
  fun w => (Normal tt,
            mkBrowser (now w) (minted w) (localStorage w) (quota w)
                      (console w) (alerts w ++ [msg])
                      (showOpenFilePicker w) (showSaveFilePicker w)
                      (files w) (io w) (rejection w)).

Definition emit (e : IOEvent) : JS unit :=
  fun w => (Normal tt,
            mkBrowser (now w) (minted w) (localStorage w) (quota w)
                      (console w) (alerts w)
                      (showOpenFilePicker w) (showSaveFilePicker w)
                      (files w) (io w ++ [e]) (rejection w)).

(* ===================================================================== *)
(** * Dates *)
(* ===================================================================== *)

(** The time value of a [Date] object: milliseconds since the epoch, or
    [NaN] for an invalid date. *)
Inductive TimeValue : Type :=
| NaN
| Time (ms : Z).

Definition msPerDay : Z := 86400000.

(** A time value is finite only within 8.64e15 ms of the epoch. *)
Definition TimeClip (d : TimeValue) : TimeValue :=
  match d with
  | NaN => NaN
  | Time t => if Z.abs t <=? 8640000000000000 then Time t else NaN
  end.

(** [new Date(a) > new Date(b)]: both operands become numbers, and every
    comparison with [NaN] is false. *)
Definition date_gt (a b : TimeValue) : bool :=
  match a, b with
  | Time x, Time y => y <? x
  | _, _ => false
  end.

Module ISO.

Definition digit (n : Z) : ascii := ascii_of_N (Z.to_N (48 + n mod 10)).

(** The last [width] decimal digits of [n], zero padded. *)
Fixpoint pad (width : nat) (n : Z) : string :=
  match width with
  | O => EmptyString
  | S w => pad w (n / 10) +:+ str (digit n)
  end.

(** Proleptic Gregorian calendar date of a day number (days since the
    epoch): year, month 1..12, day 1..31. *)
Definition civil_from_days (days : Z) : Z * Z * Z :=
  let z := days + 719468 in
  let era := z / 146097 in
  let doe := z - era * 146097 in
  let yoe := (doe - doe / 1460 + doe / 36524 - doe / 146096) / 365 in
  let doy := doe - (365 * yoe + yoe / 4 - yoe / 100) in
  let mp := (5 * doy + 2) / 153 in
  let d := doy - (153 * mp + 2) / 5 + 1 in
  let m := if mp <? 10 then mp + 3 else mp - 9 in
  let y := yoe + era * 400 + (if m <=? 2 then 1 else 0) in
  (y, m, d).

Definition days_from_civil (y m d : Z) : Z :=
  let y' := if m <=? 2 then y - 1 else y in
  let era := y' / 400 in
  let yoe := y' - era * 400 in
  let doy := (153 * (if 2 <? m then m - 3 else m + 9) + 2) / 5 + d - 1 in
  let doe := yoe * 365 + yoe / 4 - yoe / 100 + doy in
  era * 146097 + doe - 719468.

Definition year_string (y : Z) : string :=
  if (0 <=? y) && (y <=? 9999) then pad 4 y
  else (if y <? 0 then "-" else "+") +:+ pad 6 (Z.abs y).

(** [Date.prototype.toISOString] on a finite time value. *)
Definition format (t : Z) : string :=
  let '(y, m, d) := civil_from_days (t / msPerDay) in
  let r := t mod msPerDay in
  year_string y +:+ "-" +:+ pad 2 m +:+ "-" +:+ pad 2 d +:+ "T" +:+
  pad 2 (r / 3600000) +:+ ":" +:+ pad 2 (r / 60000 mod 60) +:+ ":" +:+
  pad 2 (r / 1000 mod 60) +:+ "." +:+ pad 3 (r mod 1000) +:+ "Z".

End ISO.

(** [d.toISOString()] throws on an invalid date. *)
Definition toISOString (d : TimeValue) : JS string :=
  match d with
  | NaN => throw (RangeError "Invalid time value")
  | Time t => ret (ISO.format t)
  end.

(** [new Date().toISOString()]: the clock always reads a finite time. *)
Definition current_time_iso : JS string :=
  fun w => (Normal (ISO.format (now w)), w).

(* ===================================================================== *)
(** * Untyped values *)
(* ===================================================================== *)

(** The values a parsed JSON text is made of, and [undefined]. An object
    is the list of its own members; a name is looked up from the left. *)
#[warnings="-register-all"]
Inductive JSVal : Type :=
| JUndefined
| JNull
| JBool (b : bool)
| JNum (n : Z)
| JStr (s : string)
| JArr (items : list JSVal)
| JObj (members : list (string * JSVal)).

(** ToBoolean *)
Definition truthy_val (v : JSVal) : bool :=
  match v with
  | JUndefined | JNull => false
  | JBool b => b
  | JNum n => negb (n =? 0)
  | JStr s => nonempty s
  | JArr _ | JObj _ => true
  end.

Definition isArray (v : JSVal) : bool :=
  match v with JArr _ => true | _ => false end.

Fixpoint lookup_member (k : string) (ms : list (string * JSVal)) : JSVal :=
  match ms with
  | [] => JUndefined
  | (k', v) :: ms' => if String.eqb k k' then v else lookup_member k ms'
  end.

(** [v.k] for a member name [k] that no prototype defines: a [TypeError]
    on [null] and [undefined], [undefined] on every other value that has
    no such member of its own. *)
Definition getMember (v : JSVal) (k : string) : JS JSVal :=
  match v with
  | JUndefined | JNull => throw (TypeError "Cannot read properties of null or undefined")
  | JObj ms => ret (lookup_member k ms)
  | _ => ret JUndefined
  end.

(* ===================================================================== *)
(** * The data model ([types.ts]) *)
(* ===================================================================== *)

Module ClientStatus.
Definition OLD : string := "Old".
Definition NEW : string := "New".
Definition CONTACTED : string := "Contacted".
Definition NEGOTIATING : string := "Negotiating".
Definition ACTIVE : string := "Active".
Definition COMPLETED : string := "Completed".
Definition ARCHIVED : string := "Archived".
End ClientStatus.

Module IndustrySector.
Definition VFX_FILM : string := "VFX (Film)".
Definition VFX_COMMERCIAL : string := "VFX (Commercial)".
Definition ANIMATION : string := "Animation".
Definition GAMES_REALTIME : string := "Games/Realtime".
Definition AI_GEN : string := "Generative AI".
Definition MOGRAPH : string := "Motion Graphics".
Definition OTHER : string := "Other".
End IndustrySector.

Inductive Continent : Type :=
| NORTH_AMERICA | SOUTH_AMERICA | EUROPE | ASIA | AFRICA | OCEANIA
| ANTARCTICA.

Inductive LogType : Type := Email | Call | Meeting | Social.

(** A log entry; [handleAddLog] stores the form's type unchecked, so it
    can be [undefined] at run time. *)
Module ContactLog.
Record t : Type := mk {
  id : string;
  date : string;
  type : option LogType;
  notes : string
}.
End ContactLog.

Module UserProfile.
Record t : Type := mk {
  name : string;
  industry : string
}.
End UserProfile.

(** A client as it exists at run time. The members typed [ClientStatus]
    and [IndustrySector] are strings, since the CSV import stores whatever
    text the cell holds; a member that can be [undefined] at run time is an
    option. Coordinates are never inspected by the code modelled here. *)
Module Client.
Record t : Type := mk {
  id : string;
  name : string;
  company : string;
  role : option string;
  email : option string;
  phone : option string;
  sector : string;
  status : string;
  statusUpdatedAt : option string;
  location : option string;
  continent : Continent;
  lat : option Z;
  lng : option Z;
  website : option string;
  lastContactDate : option string;
  nextFollowUpDate : option string;
  rate : option string;
  notes : option string;
  tags : list string;
  logs : list ContactLog.t
}.
End Client.

(** [Partial<Client>], the state of the edit form. *)
Module PartialClient.
Record t : Type := mk {
  id : option string;
  name : option string;
  company : option string;
  role : option string;
  email : option string;
  phone : option string;
  sector : option string;
  status : option string;
  statusUpdatedAt : option string;
  location : option string;
  continent : option Continent;
  lat : option Z;
  lng : option Z;
  website : option string;
  lastContactDate : option string;
  nextFollowUpDate : option string;
  rate : option string;
  notes : option string;
  tags : option (list string);
  logs : option (list ContactLog.t)
}.
End PartialClient.

(** [Partial<ContactLog>], the state of the log form. *)
Module PartialLog.
Record t : Type := mk {
  date : option string;
  type : option LogType;
  notes : option string
}.
End PartialLog.

(** The persisted document. [validateData] copies its members from an
    untyped value without looking into them, so they are untyped here. *)
Module AppData.
Record t : Type := mk {
  clients : JSVal;
  profile : JSVal;
  lastUpdated : JSVal
}.
Definition toJSVal (d : t) : JSVal :=
  JObj [("clients", clients d); ("profile", profile d);
        ("lastUpdated", lastUpdated d)].
End AppData.

(* ===================================================================== *)
(** * The engine *)
(* ===================================================================== *)

(** The parts of the engine whose behaviour the language leaves to the
    implementation, the locale or chance, and the JSON codec.
    [ownKeys] is the order in which the object that carries a client
    lists its members, as [JSON.stringify] walks them: the order of the
    literal that built the object or of the file it was read from. The
    typed record keeps the members' values and not that order, so the
    model takes it from the engine. *)
Record Host : Type := mkHost {
  Date_parse : string -> TimeValue;
  locale_date : Z -> string;
  JSON_parse : string -> option JSVal;
  JSON_stringify : nat -> JSVal -> string;
  randomUUID : nat -> string;
  ownKeys : Client.t -> list string
}.

(* ===================================================================== *)
(** * [services/storage.ts] *)
(* ===================================================================== *)

Section Storage.

Variable H : Host.

(** The seed contacts of [constants.ts]. *)
Variable INITIAL_CLIENTS : list JSVal.

(** [new Date(s)] *)
Definition new_Date (s : string) : TimeValue := TimeClip (Date_parse H s).

(** [d.toLocaleDateString()] *)
Definition toLocaleDateString (d : TimeValue) : string :=
  match d with
  | NaN => "Invalid Date"
  | Time t => locale_date H t
  end.

(** [JSON.parse(text)] *)
Definition JSON_parse_text (text : string) : JS JSVal :=
  match JSON_parse H text with
  | Some v => ret v
  | None => throw (SyntaxError "Unexpected token in JSON")
  end.

(** [crypto.randomUUID()] *)
Definition crypto_randomUUID : JS string :=
  fun w => (Normal (randomUUID H (minted w)),
            mkBrowser (now w) (S (minted w)) (localStorage w) (quota w)
                      (console w) (alerts w)
                      (showOpenFilePicker w) (showSaveFilePicker w)
                      (files w) (io w) (rejection w)).

(** ** Validation *)

Definition validateData (data : JSVal) : JS AppData.t :=
  invalid <- (if negb (truthy_val data) then ret true
              else (clients <- getMember data "clients" ;;
                    ret (negb (isArray clients)))) ;;
  if (invalid : bool) then
    console_log "Invalid data format detected, resetting to empty list if needed" ;;
    stamp <- current_time_iso ;;
    ret (AppData.mk (JArr []) JNull (JStr stamp))
  else
    clients <- getMember data "clients" ;;
    profile <- getMember data "profile" ;;
    lastUpdated <- getMember data "lastUpdated" ;;
    stamped <- (if truthy_val lastUpdated then ret lastUpdated
                else (stamp <- current_time_iso ;; ret (JStr stamp))) ;;
    ret (AppData.mk clients
                    (if truthy_val profile then profile else JNull)
                    stamped).

Definition createNewDatabase : JS AppData.t :=
  stamp <- current_time_iso ;;
  ret (AppData.mk (JArr INITIAL_CLIENTS) JNull (JStr stamp)).

(** ** Local storage *)

Definition LOCAL_STORAGE_KEY : string := "yongu_db_v1".

Definition storage_size (m : gmap string string) : nat :=
  map_fold (fun k v acc => (String.length k + String.length v + acc)%nat)
           0%nat m.

(** [localStorage.getItem(k)] *)
Definition getItem (k : string) : JS (option string) :=
  fun w => (Normal (localStorage w !! k), w).

(** [localStorage.setItem(k, v)]: the store rejects a write that would
    take it over its capacity and is then left as it was. *)
Definition setItem (k v : string) : JS unit :=
  fun w =>
    let m := <[k := v]> (localStorage w) in
    if (storage_size m <=? quota w)%nat
    then (Normal tt,
          mkBrowser (now w) (minted w) m (quota w) (console w) (alerts w)
                    (showOpenFilePicker w) (showSaveFilePicker w)
                    (files w) (io w) (rejection w))
    else (Throw (DOMException "QuotaExceededError"), w).

Definition loadFromLocalStorage : JS (option AppData.t) :=
  try_catch
    (stored <- getItem LOCAL_STORAGE_KEY ;;
     match stored with
     | Some (String _ _ as text) =>
         parsed <- JSON_parse_text text ;;
         data <- validateData parsed ;;
         ret (Some data)
     | _ => ret None
     end)
    (fun e =>
       console_log "Failed to load from local storage" ;;
       ret None).

Definition saveToLocalStorage (data : AppData.t) : JS unit :=
  try_catch
    (setItem LOCAL_STORAGE_KEY (JSON_stringify H 0 (AppData.toJSVal data)))
    (fun e =>
       console_log "Failed to save to local storage (quota exceeded?)" ;;
       alert "Warning: Local storage full. Some data may not be saved.").

(** ** Files *)

(** Reading a member of [window]. *)
Definition window {A} (member : Browser -> A) : JS A :=
  fun w => (Normal (member w), w).

(** Awaiting a promise that has settled. *)
Definition await {A} (settled : Completion A) : JS A :=
  fun w => (settled, w).

(** [handle.getFile()] followed by [file.text()] *)
Definition readText (handle : FileSystemFileHandle) : JS string :=
  fs <- window files ;;
  match fs !! handle with
  | Some text => emit (FileRead handle) ;; ret text
  | None => throw (DOMException "NotFoundError")
  end.

(** Awaiting one call of a write on [handle]: it rejects when the
    browser says so. *)
Definition settle (handle : FileSystemFileHandle) (call : WriteCall)
  : JS unit :=
  fun w => match rejection w handle call with
           | Some e => (Throw e, w)
           | None => (Normal tt, w)
           end.

(** The stream is closed: the file now holds exactly the written text.
    Until then the file itself is not touched. *)
Definition commit (handle : FileSystemFileHandle) (text : string)
  : JS unit :=
  fun w => (Normal tt,
            mkBrowser (now w) (minted w) (localStorage w) (quota w)
                      (console w) (alerts w)
                      (showOpenFilePicker w) (showSaveFilePicker w)
                      (<[handle := text]> (files w))
                      (io w ++ [FileWritten handle text])
                      (rejection w)).

(** [await handle.createWritable()], [await writable.write(text)] and
    [await writable.close()], each of which may reject. *)
Definition writeText (handle : FileSystemFileHandle) (text : string)
  : JS unit :=
  settle handle CreateWritable ;;
  settle handle WriteData ;;
  settle handle CloseWritable ;;
  commit handle text.

Definition openDatabaseFile : JS (AppData.t * FileSystemFileHandle) :=
  picker <- window showOpenFilePicker ;;
  match picker with
  | None => throw (Error "NOT_SUPPORTED")
  | Some chosen =>
      emit OpenPickerShown ;;
      handle <- await chosen ;;
      text <- readText handle ;;
      json <- JSON_parse_text text ;;
      data <- validateData json ;;
      ret (data, handle)
  end.

Definition createDatabaseFile : JS (AppData.t * FileSystemFileHandle) :=
  picker <- window showSaveFilePicker ;;
  match picker with
  | None => throw (Error "NOT_SUPPORTED")
  | Some chosen =>
      emit SavePickerShown ;;
      handle <- await chosen ;;
      data <- createNewDatabase ;;
      writeText handle (JSON_stringify H 2 (AppData.toJSVal data)) ;;
      ret (data, handle)
  end.

Definition saveDatabaseFile (handle : FileSystemFileHandle)
  (data : AppData.t) : JS unit :=
  writeText handle (JSON_stringify H 2 (AppData.toJSVal data)).

(** ** CSV export *)

Definition headers : list string :=
  ["Name"; "Company"; "Role"; "Status"; "Sector";
   "Email"; "Phone"; "Location"; "Last Contact";
   "Next Follow Up"; "Rate"; "Notes"; "Tags"].

(** The helper [esc]: quote a field, doubling its double quotes. *)
Definition esc (text : option string) : string :=
  match text with
  | Some (String _ _ as t) => str dquote +:+ doubleQuotes t +:+ str dquote
  | _ => String dquote (str dquote)
  end.

(** [d ? new Date(d).toLocaleDateString() : ''] *)
Definition dateCell (d : option string) : string :=
  match d with
  | Some (String _ _ as s) => toLocaleDateString (new_Date s)
  | _ => EmptyString
  end.

Definition csvRow (c : Client.t) : list string :=
  [ esc (Some (Client.name c));
    esc (Some (Client.company c));
    esc (Client.role c);
    esc (Some (Client.status c));
    esc (Some (Client.sector c));
    esc (Client.email c);
    esc (Client.phone c);
    esc (Client.location c);
    esc (Some (dateCell (Client.lastContactDate c)));
    esc (Some (dateCell (Client.nextFollowUpDate c)));
    esc (Client.rate c);
    esc (Client.notes c);
    esc (Some (join ", " (Client.tags c))) ].

Definition csvContent (clients : list Client.t) : string :=
  join (str LF)
       (join "," headers :: map (fun row => join "," row) (map csvRow clients)).

(** The text built by [exportToCSV] is handed to the browser as a
    download named after the current date. *)
Definition exportToCSV (clients : list Client.t) : JS unit :=
  stamp <- current_time_iso ;;
  emit (Downloaded ("yongu_export_" +:+ take 10 stamp +:+ ".csv")
                   (csvContent clients)).

(** ** CSV import *)

(** The loop of the helper [splitCSVLine], over the characters still to
    read; [res], [current] and [inQuotes] are its three variables. *)
Fixpoint splitCSVLine_from (line : string) (res : list string)
  (current : string) (inQuotes : bool) : list string :=
  match line with
  | EmptyString => res ++ [current]
  | String char rest =>
      if Ascii.eqb char dquote then
        match rest with
        | String next rest' =>
            if Ascii.eqb next dquote
            then splitCSVLine_from rest' res (current +:+ str dquote) inQuotes
            else splitCSVLine_from rest res current (negb inQuotes)
        | EmptyString => splitCSVLine_from rest res current (negb inQuotes)
        end
      else if Ascii.eqb char comma && negb inQuotes then
        splitCSVLine_from rest (res ++ [current]) EmptyString inQuotes
      else
        splitCSVLine_from rest res (current +:+ str char) inQuotes
  end.

Definition splitCSVLine (line : string) : list string :=
  splitCSVLine_from line [] EmptyString false.

(** The helper [val]: the trimmed cell under the first header that
    contains [keyPart]; [undefined] when the row is too short; the empty
    string when no header matches. *)
Definition val (hdrs values : list string) (keyPart : string)
  : option string :=
  let index := findIndex (fun h => includes h keyPart) hdrs in
  if index >? -1 then option_map trim (values !! Z.to_nat index)
  else Some EmptyString.

(** [cell ? new Date(cell).toISOString() : undefined] *)
Definition importDate (cell : option string) : JS (option string) :=
  match cell with
  | Some (String _ _ as s) =>
      iso <- toISOString (new_Date s) ;; ret (Some iso)
  | _ => ret None
  end.

(** [cell ? cell.split(',').map(t => t.trim()).filter(Boolean) : []] *)
Definition importTags (cell : option string) : list string :=
  match cell with
  | Some (String _ _ as s) => List.filter nonempty (map trim (split comma s))
  | _ => []
  end.

(** [cell || fallback] *)
Definition or_else (cell : option string) (fallback : string) : string :=
  match cell with
  | Some (String _ _ as s) => s
  | _ => fallback
  end.

(** One turn of the loop over the lines after the header. *)
Definition importRow (hdrs : list string) (raw : string)
  (clients : list Client.t) : JS (list Client.t) :=
  let line := trim raw in
  if negb (nonempty line) then ret clients
  else
    let values := splitCSVLine line in
    if (length values <? 2)%nat then ret clients
    else
      let name := val hdrs values "name" in
      let company := val hdrs values "company" in
      match name with
      | Some (String _ _ as name) =>
          id <- crypto_randomUUID ;;
          lastContactDate <- importDate (val hdrs values "last contact") ;;
          nextFollowUpDate <- importDate (val hdrs values "next follow") ;;
          ret (clients ++
               [ {| Client.id := id;
                    Client.name := name;
                    Client.company := or_else company "Unknown";
                    Client.role := val hdrs values "role";
                    Client.status :=
                      or_else (val hdrs values "status") ClientStatus.NEW;
                    Client.sector :=
                      or_else (val hdrs values "sector") IndustrySector.OTHER;
                    Client.email := val hdrs values "email";
                    Client.phone := val hdrs values "phone";
                    Client.location := val hdrs values "location";
                    Client.continent := NORTH_AMERICA;
                    Client.lastContactDate := lastContactDate;
                    Client.nextFollowUpDate := nextFollowUpDate;
                    Client.rate := val hdrs values "rate";
                    Client.notes := val hdrs values "notes";
                    Client.tags := importTags (val hdrs values "tags");
                    Client.logs := [];
                    Client.statusUpdatedAt := None;
                    Client.lat := None;
                    Client.lng := None;
                    Client.website := None |} ])
      | _ => ret clients
      end.

Fixpoint importRows (hdrs : list string) (rows : list string)
  (clients : list Client.t) : JS (list Client.t) :=
  match rows with
  | [] => ret clients
  | raw :: rows' =>
      clients' <- importRow hdrs raw clients ;;
      importRows hdrs rows' clients'
  end.

Definition parseCSV (csvText : string) : JS (list Client.t) :=
  match splitLines csvText with
  | first :: ((_ :: _) as rows) =>
      let hdrs := map (fun h => toLowerCase (trim h)) (splitCSVLine first) in
      importRows hdrs rows []
  | _ => ret []
  end.

End Storage.

(* ===================================================================== *)
(** * The edit form: [handleAddLog] *)
(* ===================================================================== *)

(** The state of the client form that [handleAddLog] reads and sets. *)
Record ModalState : Type := mkModalState {
  formData : PartialClient.t;
  newLog : PartialLog.t;
  showLogForm : bool
}.

Section ClientModal.

Variable H : Host.

(** [new Date(d)] for a [string | undefined]. *)
Definition new_Date_opt (d : option string) : TimeValue :=
  match d with
  | Some s => new_Date H s
  | None => NaN
  end.

(** [{ ...prev, logs, lastContactDate }] *)
Definition with_logs (prev : PartialClient.t)
  (logs : list ContactLog.t) (lastContactDate : option string)
  : PartialClient.t :=
  {| PartialClient.id := PartialClient.id prev;
     PartialClient.name := PartialClient.name prev;
     PartialClient.company := PartialClient.company prev;
     PartialClient.role := PartialClient.role prev;
     PartialClient.email := PartialClient.email prev;
     PartialClient.phone := PartialClient.phone prev;
     PartialClient.sector := PartialClient.sector prev;
     PartialClient.status := PartialClient.status prev;
     PartialClient.statusUpdatedAt := PartialClient.statusUpdatedAt prev;
     PartialClient.location := PartialClient.location prev;
     PartialClient.continent := PartialClient.continent prev;
     PartialClient.lat := PartialClient.lat prev;
     PartialClient.lng := PartialClient.lng prev;
     PartialClient.website := PartialClient.website prev;
     PartialClient.lastContactDate := lastContactDate;
     PartialClient.nextFollowUpDate := PartialClient.nextFollowUpDate prev;
     PartialClient.rate := PartialClient.rate prev;
     PartialClient.notes := PartialClient.notes prev;
     PartialClient.tags := PartialClient.tags prev;
     PartialClient.logs := Some logs |}.

(** The log form as it is reset: an e-mail dated today, without notes. *)
Definition blankLog : JS PartialLog.t :=
  stamp <- current_time_iso ;;
  ret (PartialLog.mk (Some (hd EmptyString (split "T"%char stamp)))
                     (Some Email) (Some EmptyString)).

Definition handleAddLog (st : ModalState) : JS ModalState :=
  match PartialLog.notes (newLog st) with
  | Some (String _ _ as notes) =>
      id <- crypto_randomUUID H ;;
      date <- toISOString (new_Date_opt (PartialLog.date (newLog st))) ;;
      let logEntry :=
        ContactLog.mk id date (PartialLog.type (newLog st)) notes in
      let updatedLogs :=
        logEntry :: default [] (PartialClient.logs (formData st)) in
      let prev := formData st in
      let lastContactDate :=
        if negb (truthy (PartialClient.lastContactDate prev)) ||
           date_gt (new_Date H (ContactLog.date logEntry))
                   (new_Date_opt (PartialClient.lastContactDate prev))
        then Some (ContactLog.date logEntry)
        else PartialClient.lastContactDate prev in
      fresh <- blankLog ;;
      ret (mkModalState (with_logs prev updatedLogs lastContactDate)
                        fresh false)
  | _ => ret st
  end.

End ClientModal.

(* ===================================================================== *)
(** * The application state: [handleSaveClient] *)
(* ===================================================================== *)

Inductive StorageMode : Type := FILE | LOCAL.

(** The state of the [App] component that saving a client touches. *)
Record AppState : Type := mkAppState {
  fileHandle : option FileSystemFileHandle;
  storageMode : StorageMode;
  isSaving : bool;
  clients : list Client.t;
  userProfile : option UserProfile.t;
  selectedClient : option Client.t
}.

Section App.

Variable H : Host.

(** The typed values as the untyped values the JSON codec sees. *)
Definition opt {A} (f : A -> JSVal) (o : option A) : JSVal :=
  match o with Some a => f a | None => JUndefined end.

Definition logType_text (t : LogType) : string :=
  match t with
  | Email => "Email" | Call => "Call" | Meeting => "Meeting"
  | Social => "Social"
  end.

Definition continent_text (c : Continent) : string :=
  match c with
  | NORTH_AMERICA => "North America" | SOUTH_AMERICA => "South America"
  | EUROPE => "Europe" | ASIA => "Asia" | AFRICA => "Africa"
  | OCEANIA => "Oceania" | ANTARCTICA => "Antarctica"
  end.

Definition log_value (l : ContactLog.t) : JSVal :=
  JObj [("id", JStr (ContactLog.id l)); ("date", JStr (ContactLog.date l));
        ("type", opt (fun t => JStr (logType_text t)) (ContactLog.type l));
        ("notes", JStr (ContactLog.notes l))].

(** [c[key]] for a client. *)
Definition client_member (c : Client.t) (key : string) : JSVal :=
  lookup_member key
    [("id", JStr (Client.id c)); ("name", JStr (Client.name c));
     ("company", JStr (Client.company c));
     ("role", opt JStr (Client.role c));
     ("email", opt JStr (Client.email c));
     ("phone", opt JStr (Client.phone c));
     ("sector", JStr (Client.sector c));
     ("status", JStr (Client.status c));
     ("statusUpdatedAt", opt JStr (Client.statusUpdatedAt c));
     ("location", opt JStr (Client.location c));
     ("continent", JStr (continent_text (Client.continent c)));
     ("lat", opt JNum (Client.lat c)); ("lng", opt JNum (Client.lng c));
     ("website", opt JStr (Client.website c));
     ("lastContactDate", opt JStr (Client.lastContactDate c));
     ("nextFollowUpDate", opt JStr (Client.nextFollowUpDate c));
     ("rate", opt JStr (Client.rate c));
     ("notes", opt JStr (Client.notes c));
     ("tags", JArr (map JStr (Client.tags c)));
     ("logs", JArr (map log_value (Client.logs c)))].

(** The object that carries a client: its members in the order the
    object lists them. *)
Definition client_value (c : Client.t) : JSVal :=
  JObj (map (fun key => (key, client_member c key)) (ownKeys H c)).

Definition profile_value (p : option UserProfile.t) : JSVal :=
  match p with
  | Some p => JObj [("name", JStr (UserProfile.name p));
                    ("industry", JStr (UserProfile.industry p))]
  | None => JNull
  end.

Definition saveData (st : AppState) (newClients : list Client.t)
  (newProfile : option UserProfile.t) : JS unit :=
  stamp <- current_time_iso ;;
  let data := AppData.mk (JArr (map client_value newClients))
                         (profile_value newProfile) (JStr stamp) in
  try_catch
    (match storageMode st, fileHandle st with
     | FILE, Some handle => saveDatabaseFile H handle data
     | FILE, None => ret tt
     | LOCAL, _ => saveToLocalStorage H data
     end)
    (fun e => console_log "Auto-save failed:" ;; alert "Failed to save changes.").

(** The list [handleSaveClient] computes before storing it. *)
Definition updatedClients (clients : list Client.t) (client : Client.t)
  : list Client.t :=
  match find (fun c => String.eqb (Client.id c) (Client.id client)) clients with
  | Some _ =>
      map (fun c => if String.eqb (Client.id c) (Client.id client)
                    then client else c) clients
  | None => clients ++ [client]
  end.

Definition handleSaveClient (client : Client.t) (st : AppState)
  : JS AppState :=
  let updated := updatedClients (clients st) client in
  saveData st updated (userProfile st) ;;
  ret (mkAppState (fileHandle st) (storageMode st) false updated
                  (userProfile st) None).

End App.

(* ===================================================================== *)
(** * A reference engine *)
(* ===================================================================== *)

(** A concrete engine on which the model runs: an en-US locale in the UTC
    time zone. Its date parser reads the date-time string format every
    engine must read and the month/day/year form its own locale writes,
    and nothing else; its JSON reader covers texts whose numbers are
    integers and whose strings have no unicode escapes. *)
Module RefHost.

Definition digit_val (c : ascii) : option Z :=
  let n := N_of_ascii c in
  if ((48 <=? n) && (n <=? 57))%N then Some (Z.of_N n - 48) else None.

Fixpoint digits_from (s : string) (acc : Z) : option Z :=
  match s with
  | EmptyString => Some acc
  | String c s' =>
      match digit_val c with
      | Some d => digits_from s' (10 * acc + d)
      | None => None
      end
  end.

(** A non-empty run of decimal digits. *)
Definition number (s : string) : option Z :=
  match s with
  | EmptyString => None
  | _ => digits_from s 0
  end.

Fixpoint decimal_from (fuel : nat) (n : Z) (acc : string) : string :=
  match fuel with
  | O => acc
  | S f => let acc' := String (ISO.digit n) acc in
           if n <? 10 then acc' else decimal_from f (n / 10) acc'
  end.

(** Decimal numeral of a natural number, without padding. *)
Definition decimal (n : Z) : string :=
  decimal_from (S (Z.to_nat (Z.log2 n))) n EmptyString.

Definition in_range (lo x hi : Z) : bool := (lo <=? x) && (x <=? hi).

Definition make_time (y m d hh mm ss ms : Z) : TimeValue :=
  if in_range 1 m 12 && in_range 1 d 31 && in_range 0 hh 23 &&
     in_range 0 mm 59 && in_range 0 ss 59
  then Time (ISO.days_from_civil y m 1 * msPerDay + (d - 1) * msPerDay +
             hh * 3600000 + mm * 60000 + ss * 1000 + ms)
  else NaN.

Definition sub (start len : nat) (s : string) : string :=
  String.substring start len s.

(** YYYY-MM-DD, optionally followed by THH:mm:ss.sssZ *)
Definition parse_iso (s : string) : TimeValue :=
  match number (sub 0 4 s), number (sub 5 2 s), number (sub 8 2 s) with
  | Some y, Some m, Some d =>
      if negb (String.eqb (sub 4 1 s) "-" && String.eqb (sub 7 1 s) "-")
      then NaN
      else if (String.length s =? 10)%nat then make_time y m d 0 0 0 0
      else if (String.length s =? 24)%nat &&
              String.eqb (sub 10 1 s) "T" && String.eqb (sub 13 1 s) ":" &&
              String.eqb (sub 16 1 s) ":" && String.eqb (sub 19 1 s) "." &&
              String.eqb (sub 23 1 s) "Z"
      then match number (sub 11 2 s), number (sub 14 2 s),
                 number (sub 17 2 s), number (sub 20 3 s) with
           | Some hh, Some mm, Some ss, Some ms => make_time y m d hh mm ss ms
           | _, _, _, _ => NaN
           end
      else NaN
  | _, _, _ => NaN
  end.

(** M/D/YYYY with a four-digit year, read as local (here UTC) midnight. *)
Definition parse_us (s : string) : TimeValue :=
  match split "/"%char s with
  | [ms; ds; ys] =>
      match number ms, number ds, number ys with
      | Some m, Some d, Some y =>
          if (String.length ys =? 4)%nat then make_time y m d 0 0 0 0 else NaN
      | _, _, _ => NaN
      end
  | _ => NaN
  end.

Definition Date_parse (s : string) : TimeValue :=
  match parse_iso s with
  | Time t => Time t
  | NaN => parse_us s
  end.

Definition locale_date (t : Z) : string :=
  let '(y, m, d) := ISO.civil_from_days (t / msPerDay) in
  decimal m +:+ "/" +:+ decimal d +:+ "/" +:+ decimal y.

Definition randomUUID (n : nat) : string :=
  "00000000-0000-4000-8000-" +:+ ISO.pad 12 (Z.of_nat n).

(** *** JSON *)

Definition backslash : ascii := "092"%char.

Definition hex_digit (n : N) : ascii :=
  if (n <? 10)%N then ascii_of_N (48 + n) else ascii_of_N (87 + n).

Definition escape_char (c : ascii) : string :=
  let n := N_of_ascii c in
  if Ascii.eqb c dquote then String backslash (str dquote)
  else if Ascii.eqb c backslash then String backslash (str backslash)
  else if Ascii.eqb c LF then String backslash "n"
  else if Ascii.eqb c CR then String backslash "r"
  else if (n =? 9)%N then String backslash "t"
  else if (n =? 8)%N then String backslash "b"
  else if (n =? 12)%N then String backslash "f"
  else if (n <? 32)%N
       then String backslash "u00" +:+ str (hex_digit (n / 16)) +:+
            str (hex_digit (n mod 16))
  else str c.

Fixpoint escape (s : string) : string :=
  match s with
  | EmptyString => EmptyString
  | String c s' => escape_char c +:+ escape s'
  end.

Definition quote (s : string) : string :=
  str dquote +:+ escape s +:+ str dquote.

Fixpoint spaces (n : nat) : string :=
  match n with
  | O => EmptyString
  | S n' => String " " (spaces n')
  end.

(** Brackets around the already printed parts, one per line when a gap
    is asked for. *)
Definition bracket (gap level : nat) (opening closing : string)
  (parts : list string) : string :=
  match parts, gap with
  | [], _ => opening +:+ closing
  | _, O => opening +:+ join "," parts +:+ closing
  | _, _ =>
      let inner := str LF +:+ spaces (gap * S level) in
      opening +:+ inner +:+ join ("," +:+ inner) parts +:+
      str LF +:+ spaces (gap * level) +:+ closing
  end.

Definition integer (n : Z) : string :=
  if n <? 0 then "-" +:+ decimal (- n) else decimal n.

Fixpoint stringify_at (gap level : nat) (v : JSVal) {struct v} : string :=
  match v with
  | JUndefined | JNull => "null"
  | JBool true => "true"
  | JBool false => "false"
  | JNum n => integer n
  | JStr s => quote s
  | JArr items =>
      bracket gap level "[" "]"
        ((fix each (l : list JSVal) : list string :=
            match l with
            | [] => []
            | x :: l' => stringify_at gap (S level) x :: each l'
            end) items)
  | JObj members =>
      bracket gap level "{" "}"
        ((fix each (l : list (string * JSVal)) : list string :=
            match l with
            | [] => []
            | (k, JUndefined) :: l' => each l'
            | (k, x) :: l' =>
                (quote k +:+ (if gap is O then ":" else ": ") +:+
                 stringify_at gap (S level) x) :: each l'
            end) members)
  end.

(** [JSON.stringify(v, null, gap)] *)
Definition JSON_stringify (gap : nat) (v : JSVal) : string :=
  stringify_at gap 0 v.

Definition json_space (c : ascii) : bool :=
  match N_of_ascii c with
  | 9%N | 10%N | 13%N | 32%N => true
  | _ => false
  end.

Fixpoint skip_space (s : string) : string :=
  match s with
  | String c s' => if json_space c then skip_space s' else s
  | EmptyString => EmptyString
  end.

(** The characters of a string literal after its opening quote. *)
Fixpoint string_body (s : string) (acc : string) : option (string * string) :=
  match s with
  | EmptyString => None
  | String c s' =>
      if Ascii.eqb c dquote then Some (acc, s')
      else if Ascii.eqb c backslash then
        match s' with
        | String e s'' =>
            let plain (x : ascii) := string_body s'' (acc +:+ str x) in
            if Ascii.eqb e dquote then plain dquote
            else if Ascii.eqb e backslash then plain backslash
            else if Ascii.eqb e "/" then plain "/"%char
            else if Ascii.eqb e "n" then plain LF
            else if Ascii.eqb e "r" then plain CR
            else if Ascii.eqb e "t" then plain "009"%char
            else if Ascii.eqb e "b" then plain "008"%char
            else if Ascii.eqb e "f" then plain "012"%char
            else None
        | EmptyString => None
        end
      else if (N_of_ascii c <? 32)%N then None
      else string_body s' (acc +:+ str c)
  end.

Fixpoint span_digits (s : string) (acc : string) : string * string :=
  match s with
  | String c s' =>
      match digit_val c with
      | Some _ => span_digits s' (acc +:+ str c)
      | None => (acc, s)
      end
  | EmptyString => (acc, s)
  end.

Definition unsigned (s : string) : option (Z * string) :=
  let '(ds, rest) := span_digits s EmptyString in
  match ds, number ds with
  | String "0" (String _ _), _ => None
  | _, Some n => Some (n, rest)
  | _, None => None
  end.

(** Storing a member: a repeated name keeps its place and takes the later
    value. *)
Fixpoint set_member (k : string) (v : JSVal) (ms : list (string * JSVal))
  : list (string * JSVal) :=
  match ms with
  | [] => [(k, v)]
  | (k', v') :: ms' =>
      if String.eqb k k' then (k, v) :: ms' else (k', v') :: set_member k v ms'
  end.

Section Reader.

Variable value : string -> option (JSVal * string).

(** After an element: a comma and the next element, or the closing
    bracket. *)
Fixpoint items_from (fuel : nat) (s : string) (acc : list JSVal)
  : option (JSVal * string) :=
  match fuel with
  | O => None
  | S f =>
      match value s with
      | Some (v, rest) =>
          match skip_space rest with
          | String "," rest' => items_from f rest' (acc ++ [v])
          | String "]" rest' => Some (JArr (acc ++ [v]), rest')
          | _ => None
          end
      | None => None
      end
  end.

Fixpoint members_from (fuel : nat) (s : string)
  (acc : list (string * JSVal)) : option (JSVal * string) :=
  match fuel with
  | O => None
  | S f =>
      match skip_space s with
      | String c s1 =>
          if Ascii.eqb c dquote then
            match string_body s1 EmptyString with
            | Some (k, s2) =>
                match skip_space s2 with
                | String ":" s3 =>
                    match value s3 with
                    | Some (v, rest) =>
                        match skip_space rest with
                        | String "," rest' =>
                            members_from f rest' (set_member k v acc)
                        | String "}" rest' =>
                            Some (JObj (set_member k v acc), rest')
                        | _ => None
                        end
                    | None => None
                    end
                | _ => None
                end
            | None => None
            end
          else None
      | EmptyString => None
      end
  end.

End Reader.

Fixpoint value (fuel : nat) (s : string) : option (JSVal * string) :=
  match fuel with
  | O => None
  | S f =>
      match skip_space s with
      | EmptyString => None
      | String c rest as t =>
          if String.eqb (sub 0 4 t) "null" then Some (JNull, sub 4 (String.length t) t)
          else if String.eqb (sub 0 4 t) "true"
               then Some (JBool true, sub 4 (String.length t) t)
          else if String.eqb (sub 0 5 t) "false"
               then Some (JBool false, sub 5 (String.length t) t)
          else if Ascii.eqb c dquote then
            match string_body rest EmptyString with
            | Some (str, rest') => Some (JStr str, rest')
            | None => None
            end
          else if Ascii.eqb c "[" then
            match skip_space rest with
            | String "]" rest' => Some (JArr [], rest')
            | _ => items_from (value f) f rest []
            end
          else if Ascii.eqb c "{" then
            match skip_space rest with
            | String "}" rest' => Some (JObj [], rest')
            | _ => members_from (value f) f rest []
            end
          else if Ascii.eqb c "-" then
            match unsigned rest with
            | Some (n, rest') => Some (JNum (- n), rest')
            | None => None
            end
          else
            match unsigned t with
            | Some (n, rest') => Some (JNum n, rest')
            | None => None
            end
      end
  end.

(** [JSON.parse(text)]; [None] stands for the [SyntaxError]. *)
Definition JSON_parse (text : string) : option JSVal :=
  match value (S (String.length text)) text with
  | Some (v, rest) =>
      match skip_space rest with
      | EmptyString => Some v
      | _ => None
      end
  | None => None
  end.

(** Objects list their members in the order of the literal in
    [handleSubmit]. *)
Definition ownKeys (c : Client.t) : list string :=
  ["id"; "name"; "company"; "role"; "email"; "phone"; "sector"; "status";
   "statusUpdatedAt"; "continent"; "location"; "lat"; "lng"; "website";
   "rate"; "notes"; "tags"; "logs"; "lastContactDate"; "nextFollowUpDate"].

Definition host : Host :=
  mkHost Date_parse locale_date JSON_parse JSON_stringify randomUUID ownKeys.

(** A browser with an empty store of the given capacity, no files and no
    file pickers. *)
Definition browser (capacity : nat) : Browser :=
  mkBrowser 1709634600000 0 ∅ capacity [] [] None None ∅ [] no_rejection.

End RefHost.

(* ===================================================================== *)
(** * Vocabulary of the statements *)
(* ===================================================================== *)

(** The member [k] of a value that has members. *)
Definition member (raw : JSVal) (k : string) : JSVal :=
  match raw with
  | JObj ms => lookup_member k ms
  | _ => JUndefined
  end.

(** The document every malformed input is replaced by. *)
Definition zero_document (w : Browser) : AppData.t :=
  AppData.mk (JArr []) JNull (JStr (ISO.format (now w))).

Definition object_like (v : JSVal) : bool :=
  match v with
  | JObj _ | JArr _ => true
  | _ => false
  end.

(** The profile of the validated document as the specification words it:
    passed through if present and object-like, none otherwise. *)
Definition spec_profile (raw : JSVal) : JSVal :=
  if object_like (member raw "profile") then member raw "profile" else JNull.

(** The rest of a line does not start with a double quote. *)
Definition no_quote_head (rest : string) : bool :=
  match rest with
  | EmptyString => true
  | String c _ => negb (Ascii.eqb c dquote)
  end.

(** The headers of the export, trimmed and in lower case. *)
Definition exported_hdrs : list string :=
  ["name"; "company"; "role"; "status"; "sector"; "email"; "phone";
   "location"; "last contact"; "next follow up"; "rate"; "notes"; "tags"].

(** A text that survives the trip through a quoted CSV cell: it is not
    made of double quotes only (so it is not empty), holds no line feed,
    and has no white space at either end. *)
Definition csv_stable (s : string) : bool :=
  negb (all_quotes s) && negb (has_char LF s) && String.eqb (trim s) s.

Definition stable_opt (o : option string) : bool :=
  match o with
  | Some s => csv_stable s
  | None => false
  end.

(** A tag that survives the comma-joined tags cell. *)
Definition stable_tag (t : string) : bool :=
  nonempty t && negb (has_char comma t) && String.eqb (trim t) t.

Section Exportable.

Variable H : Host.

(** A date whose exported cell is stable and is read back by the engine
    as a date. *)
Definition stable_date (d : option string) : bool :=
  csv_stable (dateCell H d) &&
  match new_Date H (dateCell H d) with
  | Time _ => true
  | NaN => false
  end.

(** The contacts whose export is read back field for field. *)
Definition exportable (c : Client.t) : bool :=
  csv_stable (Client.name c) && csv_stable (Client.company c) &&
  stable_opt (Client.role c) && csv_stable (Client.status c) &&
  csv_stable (Client.sector c) && stable_opt (Client.email c) &&
  stable_opt (Client.phone c) && stable_opt (Client.location c) &&
  stable_date (Client.lastContactDate c) &&
  stable_date (Client.nextFollowUpDate c) &&
  stable_opt (Client.rate c) && stable_opt (Client.notes c) &&
  csv_stable (join ", " (Client.tags c)) &&
  forallb stable_tag (Client.tags c).

(** What is left of a date after export and import: the ISO form of the
    engine's reading of the exported locale date. *)
Definition reread (d : option string) : option string :=
  match new_Date H (dateCell H d) with
  | Time t => Some (ISO.format t)
  | NaN => None
  end.

(** The contact that importing the exported row of [c] yields, given the
    id minted for it. *)
Definition reimported (id : string) (c : Client.t) : Client.t :=
  {| Client.id := id;
     Client.name := Client.name c;
     Client.company := Client.company c;
     Client.role := Client.role c;
     Client.status := Client.status c;
     Client.sector := Client.sector c;
     Client.email := Client.email c;
     Client.phone := Client.phone c;
     Client.location := Client.location c;
     Client.continent := NORTH_AMERICA;
     Client.lastContactDate := reread (Client.lastContactDate c);
     Client.nextFollowUpDate := reread (Client.nextFollowUpDate c);
     Client.rate := Client.rate c;
     Client.notes := Client.notes c;
     Client.tags := Client.tags c;
     Client.logs := [];
     Client.statusUpdatedAt := None;
     Client.lat := None;
     Client.lng := None;
     Client.website := None |}.

(** The contacts [cs] reimported with the ids minted from the [n]-th
    on. *)
Fixpoint reimported_from (n : nat) (cs : list Client.t) : list Client.t :=
  match cs with
  | [] => []
  | c :: cs' => reimported (randomUUID H n) c :: reimported_from (S n) cs'
  end.

End Exportable.

(** The browser after [k] more ids have been minted. *)
Definition after_minting (k : nat) (w : Browser) : Browser :=
  mkBrowser (now w) (k + minted w) (localStorage w) (quota w)
            (console w) (alerts w)
            (showOpenFilePicker w) (showSaveFilePicker w)
            (files w) (io w) (rejection w).

(** The fields the specification says a round trip preserves. *)
Definition same_business_fields (c c' : Client.t) : Prop :=
  Client.name c' = Client.name c /\
  Client.company c' = Client.company c /\
  Client.role c' = Client.role c /\
  Client.status c' = Client.status c /\
  Client.sector c' = Client.sector c /\
  Client.email c' = Client.email c /\
  Client.phone c' = Client.phone c /\
  Client.location c' = Client.location c /\
  Client.rate c' = Client.rate c /\
  Client.notes c' = Client.notes c /\
  (forall t, In t (Client.tags c') <-> In t (Client.tags c)).

(** The round trip as the specification states it, for one list of
    contacts on one engine. *)
Definition roundtrip_as_specified (H : Host) (w : Browser)
  (cs : list Client.t) : Prop :=
  exists cs' w',
    parseCSV H (csvContent H cs) w = (Normal cs', w') /\
    Forall2 same_business_fields cs cs'.

(** The header line as [parseCSV] reads it. *)
Definition readHeaders (first : string) : list string :=
  map (fun h => toLowerCase (trim h)) (splitCSVLine first).

(** The keywords [parseCSV] looks the columns up by, in the order of the
    exported columns. *)
Definition keywords : list string :=
  ["name"; "company"; "role"; "status"; "sector"; "email"; "phone";
   "location"; "last contact"; "next follow"; "rate"; "notes"; "tags"].

(** The exported header line with its columns in reversed order. *)
Definition reversed_header_line : string :=
  "Tags,Notes,Rate,Next Follow Up,Last Contact,Location,Phone,Email,Sector,Status,Role,Company,Name".

(** The rows [parseCSV] passes over: fewer than two fields, or nothing
    under the name header. *)
Definition skipped (hdrs : list string) (raw : string) : bool :=
  let values := splitCSVLine (trim raw) in
  (length values <? 2)%nat || negb (truthy (val hdrs values "name")).

Section DateCells.

Variable H : Host.

(** A cell with text that the engine does not read as a date. *)
Definition unreadable_date (cell : option string) : bool :=
  match cell with
  | Some (String _ _ as s) =>
      match new_Date H s with
      | NaN => true
      | Time _ => false
      end
  | _ => false
  end.

(** A row that is not passed over and has such a cell under a date
    header. *)
Definition has_unreadable_date (hdrs : list string) (raw : string) : bool :=
  let values := splitCSVLine (trim raw) in
  negb (skipped hdrs raw) &&
  (unreadable_date (val hdrs values "last contact") ||
   unreadable_date (val hdrs values "next follow")).

End DateCells.

(** The import as the specification states it for a row with an
    unreadable date: the row's contact is produced, with the date
    absent. *)
Definition unreadable_date_as_specified (H : Host) (hdrs : list string)
  (raw : string) (w : Browser) : Prop :=
  exists c w',
    importRow H hdrs raw [] w = (Normal [c], w') /\
    (unreadable_date H (val hdrs (splitCSVLine (trim raw)) "last contact")
       = true -> Client.lastContactDate c = None) /\
    (unreadable_date H (val hdrs (splitCSVLine (trim raw)) "next follow")
       = true -> Client.nextFollowUpDate c = None).

(* ===================================================================== *)
(** * Sample data *)
(* ===================================================================== *)

Module Sample.

Definition ana_id : string := "3f0c2c1e-8a44-4a6e-9d55-0f4b7a1c2d10".

(** A contact with every exported field filled in. *)
Definition ana : Client.t :=
  {| Client.id := ana_id;
     Client.name := "Ana Ruiz";
     Client.company := "Foo, Inc.";
     Client.role := Some "Lead";
     Client.email := Some "ana@foo.example";
     Client.phone := Some "555 0100";
     Client.sector := IndustrySector.ANIMATION;
     Client.status := ClientStatus.ACTIVE;
     Client.statusUpdatedAt := Some "2024-02-01T09:00:00.000Z";
     Client.location := Some "Madrid";
     Client.continent := EUROPE;
     Client.lat := None;
     Client.lng := None;
     Client.website := None;
     Client.lastContactDate := Some "2024-03-05T10:30:00.000Z";
     Client.nextFollowUpDate := Some "2024-04-01T08:00:00.000Z";
     Client.rate := Some "500/day";
     Client.notes := Some "Met at FMX";
     Client.tags := ["Nuke"; "Pipeline"];
     Client.logs :=
       [ContactLog.mk "log-1" "2024-03-05T10:30:00.000Z" (Some Call) "Intro"] |}.

(** The same contact with a space in front of the name. *)
Definition padded : Client.t :=
  {| Client.id := ana_id;
     Client.name := " Ana Ruiz";
     Client.company := Client.company ana;
     Client.role := Client.role ana;
     Client.email := Client.email ana;
     Client.phone := Client.phone ana;
     Client.sector := Client.sector ana;
     Client.status := Client.status ana;
     Client.statusUpdatedAt := Client.statusUpdatedAt ana;
     Client.location := Client.location ana;
     Client.continent := Client.continent ana;
     Client.lat := None;
     Client.lng := None;
     Client.website := None;
     Client.lastContactDate := Client.lastContactDate ana;
     Client.nextFollowUpDate := Client.nextFollowUpDate ana;
     Client.rate := Client.rate ana;
     Client.notes := Client.notes ana;
     Client.tags := Client.tags ana;
     Client.logs := Client.logs ana |}.

(** The contact of the specification's end-to-end example: only name,
    company and tags are set. *)
Definition sparse : Client.t :=
  {| Client.id := ana_id;
     Client.name := "Ana Ruiz";
     Client.company := "Foo, Inc.";
     Client.role := None;
     Client.email := None;
     Client.phone := None;
     Client.sector := IndustrySector.OTHER;
     Client.status := ClientStatus.NEW;
     Client.statusUpdatedAt := None;
     Client.location := None;
     Client.continent := EUROPE;
     Client.lat := None;
     Client.lng := None;
     Client.website := None;
     Client.lastContactDate := None;
     Client.nextFollowUpDate := None;
     Client.rate := None;
     Client.notes := None;
     Client.tags := ["Nuke"; "Pipeline"];
     Client.logs := [] |}.

Definition bo : Client.t :=
  {| Client.id := "7b1d9a52-11c3-4f0e-b2a7-5c6e8d9f0a21";
     Client.name := "Bo Lind";
     Client.company := "Bar AB";
     Client.role := Some "Producer";
     Client.email := Some "bo@bar.example";
     Client.phone := None;
     Client.sector := IndustrySector.VFX_FILM;
     Client.status := ClientStatus.NEW;
     Client.statusUpdatedAt := None;
     Client.location := Some "Malmo";
     Client.continent := EUROPE;
     Client.lat := None;
     Client.lng := None;
     Client.website := None;
     Client.lastContactDate := None;
     Client.nextFollowUpDate := None;
     Client.rate := None;
     Client.notes := Some "";
     Client.tags := [];
     Client.logs := [] |}.

(** [ana] edited: same id, new status. *)
Definition ana_edited : Client.t :=
  {| Client.id := ana_id;
     Client.name := "Ana Ruiz";
     Client.company := "Foo, Inc.";
     Client.role := Some "Supervisor";
     Client.email := Client.email ana;
     Client.phone := Client.phone ana;
     Client.sector := Client.sector ana;
     Client.status := ClientStatus.COMPLETED;
     Client.statusUpdatedAt := Some "2024-03-05T10:30:00.000Z";
     Client.location := Client.location ana;
     Client.continent := EUROPE;
     Client.lat := None;
     Client.lng := None;
     Client.website := None;
     Client.lastContactDate := Client.lastContactDate ana;
     Client.nextFollowUpDate := Client.nextFollowUpDate ana;
     Client.rate := Client.rate ana;
     Client.notes := Client.notes ana;
     Client.tags := Client.tags ana;
     Client.logs := Client.logs ana |}.

Definition app : AppState :=
  mkAppState None LOCAL false [bo; ana] None (Some ana).

(** A form for a contact last reached on 5 March 2024, with a log being
    entered for the given day. *)
Definition form (day : string) : ModalState :=
  mkModalState
    {| PartialClient.id := Some ana_id;
       PartialClient.name := Some "Ana Ruiz";
       PartialClient.company := Some "Foo, Inc.";
       PartialClient.role := None;
       PartialClient.email := None;
       PartialClient.phone := None;
       PartialClient.sector := Some IndustrySector.ANIMATION;
       PartialClient.status := Some ClientStatus.ACTIVE;
       PartialClient.statusUpdatedAt := None;
       PartialClient.location := None;
       PartialClient.continent := Some EUROPE;
       PartialClient.lat := None;
       PartialClient.lng := None;
       PartialClient.website := None;
       PartialClient.lastContactDate := Some "2024-03-05T10:30:00.000Z";
       PartialClient.nextFollowUpDate := None;
       PartialClient.rate := None;
       PartialClient.notes := Some "";
       PartialClient.tags := Some [];
       PartialClient.logs := Some [] |}
    (PartialLog.mk (Some day) (Some Call) (Some "Rang back"))
    true.

(** A CSV text whose second row has a date cell that is not a date. *)
Definition csv_bad_date : string :=
  "Name,Company,Last Contact" +:+ str LF +:+
  "Ana Ruiz,Foo,3/5/2024" +:+ str LF +:+
  "Bo Lind,Bar,soon".

(** A CSV text with a one-field row, a row without a name and a row
    without a company. *)
Definition csv_gaps : string :=
  "Name,Company" +:+ str LF +:+
  "solo" +:+ str CR +:+ str LF +:+
  ",Foo" +:+ str LF +:+
  "Ana Ruiz,".

(** A CSV text whose only row has the blank cell of the export, two
    double quotes, under the name header; and one with that cell under
    the company header. *)
Definition csv_blank_name : string :=
  "Name,Company" +:+ str LF +:+ esc None +:+ ",Foo".

Definition csv_blank_company : string :=
  "Name,Company" +:+ str LF +:+ "Ana Ruiz," +:+ esc None.

(** A browser whose storage slot holds the given text. *)
Definition stored (text : string) : Browser :=
  mkBrowser 1709634600000 0 {[ LOCAL_STORAGE_KEY := text ]} 4000
            [] [] None None ∅ [] no_rejection.

(** Documents as they come out of [JSON.parse]. *)
Definition raw_document : JSVal :=
  JObj [("clients", JArr [JObj [("id", JStr ana_id)]]);
        ("profile", JObj [("name", JStr "Kim"); ("industry", JStr "VFX")]);
        ("lastUpdated", JStr "2024-03-01T12:00:00.000Z")].

Definition blank_document : AppData.t :=
  AppData.mk (JArr []) JNull (JStr "2024-03-05T10:30:00.000Z").

(** Rows of thirteen cells, in exported and in reversed order. *)
Definition row_exported : string :=
  "Ana Ruiz,Foo,Lead,Active,Animation,ana@foo.example,555,Madrid,3/5/2024,4/1/2024,500,Met at FMX,Nuke".

Definition row_reversed : string :=
  "Nuke,Met at FMX,500,4/1/2024,3/5/2024,Madrid,555,ana@foo.example,Animation,Active,Lead,Foo,Ana Ruiz".

End Sample.

(* ===================================================================== *)
(** * More of the application state: deleting, importing, filtering *)
(* ===================================================================== *)


Section AppHandlers.

Variable H : Host.

(** [handleDeleteClient]; [confirmed] is the user's answer to
    [window.confirm]. *)
Definition handleDeleteClient (confirmed : bool) (id : string)
  (st : AppState) : JS AppState :=
  if confirmed then
    let updated :=
      List.filter (fun c => negb (String.eqb (Client.id c) id)) (clients st) in
    saveData H st updated (userProfile st) ;;
    ret (mkAppState (fileHandle st) (storageMode st) false updated
                    (userProfile st) (selectedClient st))
  else ret st.

Definition handleSaveProfile (profile : UserProfile.t) (st : AppState)
  : JS AppState :=
  saveData H st (clients st) (Some profile) ;;
  ret (mkAppState (fileHandle st) (storageMode st) false (clients st)
                  (Some profile) (selectedClient st)).


End AppHandlers.

(** The memo [filteredClients] of the [App] component. *)
Definition filteredClients (clients : list Client.t)
  (searchTerm filterContinent filterSector : string) : list Client.t :=
  List.filter
    (fun c =>
       let matchesSearch :=
         includes (toLowerCase (Client.name c)) (toLowerCase searchTerm) ||
         includes (toLowerCase (Client.company c)) (toLowerCase searchTerm) ||
         existsb (fun t => includes (toLowerCase t) (toLowerCase searchTerm))
                 (Client.tags c) in
       let matchesContinent :=
         String.eqb filterContinent "All" ||
         String.eqb (continent_text (Client.continent c)) filterContinent in
       let matchesSector :=
         String.eqb filterSector "All" ||
         String.eqb (Client.sector c) filterSector in
       matchesSearch && matchesContinent && matchesSector)
    clients.

(* ===================================================================== *)
(** * More of the edit form: tags, logs, submitting *)
(* ===================================================================== *)

(** [{ ...prev, tags }], which is [handleChange('tags', tags)]. *)
Definition with_tags (prev : PartialClient.t) (tags : list string)
  : PartialClient.t :=
  {| PartialClient.id := PartialClient.id prev;
     PartialClient.name := PartialClient.name prev;
     PartialClient.company := PartialClient.company prev;
     PartialClient.role := PartialClient.role prev;
     PartialClient.email := PartialClient.email prev;
     PartialClient.phone := PartialClient.phone prev;
     PartialClient.sector := PartialClient.sector prev;
     PartialClient.status := PartialClient.status prev;
     PartialClient.statusUpdatedAt := PartialClient.statusUpdatedAt prev;
     PartialClient.location := PartialClient.location prev;
     PartialClient.continent := PartialClient.continent prev;
     PartialClient.lat := PartialClient.lat prev;
     PartialClient.lng := PartialClient.lng prev;
     PartialClient.website := PartialClient.website prev;
     PartialClient.lastContactDate := PartialClient.lastContactDate prev;
     PartialClient.nextFollowUpDate := PartialClient.nextFollowUpDate prev;
     PartialClient.rate := PartialClient.rate prev;
     PartialClient.notes := PartialClient.notes prev;
     PartialClient.tags := Some tags;
     PartialClient.logs := PartialClient.logs prev |}.

(** [a.includes(x)] on an array of strings. *)
Definition array_includes (a : list string) (x : string) : bool :=
  existsb (String.eqb x) a.

(** [handleAddTag] on the key [key], with the text of the tag input; it
    gives the form data and the tag input afterwards. *)
Definition handleAddTag (key : string) (formData : PartialClient.t)
  (tagInput : string) : PartialClient.t * string :=
  if String.eqb key "Enter" && nonempty (trim tagInput) then
    let currentTags := default [] (PartialClient.tags formData) in
    (if negb (array_includes currentTags (trim tagInput))
     then with_tags formData (currentTags ++ [trim tagInput])
     else formData,
     EmptyString)
  else (formData, tagInput).

Definition removeTag (tag : string) (formData : PartialClient.t)
  : PartialClient.t :=
  with_tags formData
    (List.filter (fun t => negb (String.eqb t tag))
                 (default [] (PartialClient.tags formData))).

Definition handleDeleteLog (logId : string) (prev : PartialClient.t)
  : PartialClient.t :=
  with_logs prev
    (List.filter (fun l => negb (String.eqb (ContactLog.id l) logId))
                 (default [] (PartialClient.logs prev)))
    (PartialClient.lastContactDate prev).

(** [{ ...client }], the form data when the form opens on a client. *)
Definition formOf (c : Client.t) : PartialClient.t :=
  {| PartialClient.id := Some (Client.id c);
     PartialClient.name := Some (Client.name c);
     PartialClient.company := Some (Client.company c);
     PartialClient.role := Client.role c;
     PartialClient.email := Client.email c;
     PartialClient.phone := Client.phone c;
     PartialClient.sector := Some (Client.sector c);
     PartialClient.status := Some (Client.status c);
     PartialClient.statusUpdatedAt := Client.statusUpdatedAt c;
     PartialClient.location := Client.location c;
     PartialClient.continent := Some (Client.continent c);
     PartialClient.lat := Client.lat c;
     PartialClient.lng := Client.lng c;
     PartialClient.website := Client.website c;
     PartialClient.lastContactDate := Client.lastContactDate c;
     PartialClient.nextFollowUpDate := Client.nextFollowUpDate c;
     PartialClient.rate := Client.rate c;
     PartialClient.notes := Client.notes c;
     PartialClient.tags := Some (Client.tags c);
     PartialClient.logs := Some (Client.logs c) |}.

Section SubmitForm.

Variable H : Host.

(** [client.status !== formData.status] *)
Definition status_differs (c : Client.t) (formData : PartialClient.t) : bool :=
  match PartialClient.status formData with
  | Some s => negb (String.eqb (Client.status c) s)
  | None => true
  end.

(** [handleSubmit] for the form opened on [client]; the result is the
    client handed to [onSave], or none when the form is not submitted. *)
Definition handleSubmit (client : option Client.t)
  (formData : PartialClient.t) : JS (option Client.t) :=
  match PartialClient.name formData, PartialClient.company formData with
  | Some (String _ _ as name), Some (String _ _ as company) =>
      let isStatusChanged :=
        match client with
        | None => true
        | Some c => status_differs c formData
        end in
      updatedTimestamp <-
        (if isStatusChanged then current_time_iso
         else match client with
              | Some c =>
                  match Client.statusUpdatedAt c with
                  | Some (String _ _ as stamp) => ret stamp
                  | _ => current_time_iso
                  end
              | None => current_time_iso
              end) ;;
      id <- (match PartialClient.id formData with
             | Some (String _ _ as id) => ret id
             | _ => crypto_randomUUID H
             end) ;;
      ret (Some
             {| Client.id := id;
                Client.name := name;
                Client.company := company;
                Client.role := Some (or_else (PartialClient.role formData) "");
                Client.email := Some (or_else (PartialClient.email formData) "");
                Client.phone := Some (or_else (PartialClient.phone formData) "");
                Client.sector :=
                  or_else (PartialClient.sector formData) IndustrySector.OTHER;
                Client.status :=
                  or_else (PartialClient.status formData) ClientStatus.NEW;
                Client.statusUpdatedAt := Some updatedTimestamp;
                Client.continent :=
                  default NORTH_AMERICA (PartialClient.continent formData);
                Client.location :=
                  Some (or_else (PartialClient.location formData) "");
                Client.lat := PartialClient.lat formData;
                Client.lng := PartialClient.lng formData;
                Client.website :=
                  Some (or_else (PartialClient.website formData) "");
                Client.rate := Some (or_else (PartialClient.rate formData) "");
                Client.notes := Some (or_else (PartialClient.notes formData) "");
                Client.tags := default [] (PartialClient.tags formData);
                Client.logs := default [] (PartialClient.logs formData);
                Client.lastContactDate :=
                  PartialClient.lastContactDate formData;
                Client.nextFollowUpDate :=
                  PartialClient.nextFollowUpDate formData |})
  | _, _ => ret None
  end.

(** Submitting the form inside the [App], where [onSave] is
    [handleSaveClient]. *)
Definition submitAndSave (client : option Client.t)
  (formData : PartialClient.t) (st : AppState) : JS AppState :=
  saved <- handleSubmit client formData ;;
  match saved with
  | Some newClient => handleSaveClient H newClient st
  | None => ret st
  end.

End SubmitForm.

(* ===================================================================== *)
(** * The settings dialog: importing a CSV file *)
(* ===================================================================== *)


Section SettingsModal.

Variable H : Host.


End SettingsModal.

(* ===================================================================== *)
(** * Vocabulary of the further properties *)
(* ===================================================================== *)

(** A document as [validateData] leaves it: the clients are an array, the
    profile is null or truthy, and the time stamp is truthy. *)
Definition wellformed_document (d : AppData.t) : bool :=
  isArray (AppData.clients d) &&
  match AppData.profile d with
  | JNull => true
  | p => truthy_val p
  end &&
  truthy_val (AppData.lastUpdated d).

(** The rejection a write to [h] meets first, if any of its three calls
    rejects. *)
Definition first_rejection (w : Browser) (h : FileSystemFileHandle)
  : option JSError :=
  match rejection w h CreateWritable with
  | Some e => Some e
  | None =>
      match rejection w h WriteData with
      | Some e => Some e
      | None => rejection w h CloseWritable
      end
  end.

(** The document [createNewDatabase] builds at the time of [w]. *)
Definition seeded_document (seed : list JSVal) (w : Browser) : AppData.t :=
  AppData.mk (JArr seed) JNull (JStr (ISO.format (now w))).

(** What the line splitter returns for a quoted field with the text [t]:
    the text itself, but one double quote more when the text is made of
    double quotes only. *)
Definition read_back (t : string) : string :=
  if all_quotes t then String dquote t else t.

Section CellTexts.

Variable H : Host.

(** The thirteen texts [exportToCSV] quotes for a client. *)
Definition cellTexts (c : Client.t) : list string :=
  [ Client.name c; Client.company c; default EmptyString (Client.role c);
    Client.status c; Client.sector c;
    default EmptyString (Client.email c);
    default EmptyString (Client.phone c);
    default EmptyString (Client.location c);
    dateCell H (Client.lastContactDate c);
    dateCell H (Client.nextFollowUpDate c);
    default EmptyString (Client.rate c);
    default EmptyString (Client.notes c);
    join ", " (Client.tags c) ].

End CellTexts.

(** A date member as the import leaves it: absent, or a time stamp in ISO
    form. *)
Definition iso_or_absent (d : option string) : Prop :=
  d = None \/ exists t, d = Some (ISO.format t).

(** What holds of every contact [parseCSV] builds. *)
Definition imported_shape (c : Client.t) : Prop :=
  Client.name c <> EmptyString /\ trim (Client.name c) = Client.name c /\
  Client.company c <> EmptyString /\
  Client.status c <> EmptyString /\ Client.sector c <> EmptyString /\
  Client.continent c = NORTH_AMERICA /\ Client.logs c = [] /\
  Client.statusUpdatedAt c = None /\ Client.lat c = None /\
  Client.lng c = None /\ Client.website c = None /\
  iso_or_absent (Client.lastContactDate c) /\
  iso_or_absent (Client.nextFollowUpDate c) /\
  Forall (fun t => t <> EmptyString /\ trim t = t /\
                   has_char comma t = false) (Client.tags c).

(** The last character of [s] is a carriage return. *)
Fixpoint ends_with_CR (s : string) : bool :=
  match s with
  | EmptyString => false
  | String c EmptyString => Ascii.eqb c CR
  | String _ s' => ends_with_CR s'
  end.

Definition CRLF : string := String CR (str LF).

(** ** Rows under the reversed header *)

(** The cells of a row as [parseCSV] reads them. *)
Definition cells (raw : string) : list string := splitCSVLine (trim raw).

(** Two optional cells are the same. *)
Definition same_cell (a b : option string) : bool :=
  match a, b with
  | Some x, Some y => String.eqb x y
  | None, None => true
  | _, _ => false
  end.

(** Row [r] holds in reversed column order what row [s] holds in the
    exported order: both rows have fewer than two cells (such rows are
    passed over whatever they hold), or neither has and, for each of the
    thirteen columns, cell [j] of [r] is cell [12 - j] of [s] (both
    there and equal, or both missing). *)
Definition mirrored (r s : string) : bool :=
  if (length (cells r) <? 2)%nat then (length (cells s) <? 2)%nat
  else
    negb (length (cells s) <? 2)%nat &&
    forallb (fun j => same_cell (cells r !! j) (cells s !! (12 - j)%nat))
            (seq 0 13).

(** A text that is one line of a file: it holds no line feed and does
    not end in a carriage return. *)
Definition one_line (l : string) : bool :=
  negb (has_char LF l) && negb (ends_with_CR l).

(** The export of [cs] with its columns in reversed order, header and
    rows alike. *)
Definition reversed_export (H : Host) (cs : list Client.t) : string :=
  join (str LF)
       (reversed_header_line ::
        map (fun c => join "," (rev (csvRow H c))) cs).

(** ** Blank cells *)

(** The import as the specification states it for a file whose only row
    has a blank name cell: no contact, nothing raised. *)
Definition blank_name_as_specified (H : Host) (text : string)
  (w : Browser) : Prop :=
  exists w', parseCSV H text w = (Normal [], w').

(** The import as the specification states it for a file whose only row
    has a name and a blank company cell: one contact, of the company
    Unknown. *)
Definition blank_company_as_specified (H : Host) (text : string)
  (w : Browser) : Prop :=
  exists c w',
    parseCSV H text w = (Normal [c], w') /\ Client.company c = "Unknown".

(** The document [saveData] serializes at the time of [w]. *)
Definition saved_document (H : Host) (cs : list Client.t)
  (p : option UserProfile.t) (w : Browser) : AppData.t :=
  AppData.mk (JArr (map (client_value H) cs)) (profile_value p)
             (JStr (ISO.format (now w))).

(** Whether an optional member is there at all. *)
Definition present {A : Type} (o : option A) : bool :=
  match o with Some _ => true | None => false end.

(** A client in which every member the form normalizes is already in its
    normal form: the texts submitting would default are present (name,
    company, sector, status and the status time stamp non-empty). *)
Definition complete (c : Client.t) : bool :=
  nonempty (Client.name c) && nonempty (Client.company c) &&
  nonempty (Client.sector c) && nonempty (Client.status c) &&
  truthy (Client.statusUpdatedAt c) && nonempty (Client.id c) &&
  present (Client.role c) && present (Client.email c) &&
  present (Client.phone c) && present (Client.location c) &&
  present (Client.website c) && present (Client.rate c) &&
  present (Client.notes c).

(** The tags of the form, as the handlers read them. *)
Definition tags_of (formData : PartialClient.t) : list string :=
  default [] (PartialClient.tags formData).

Definition logs_of (formData : PartialClient.t) : list ContactLog.t :=
  default [] (PartialClient.logs formData).

(** ** Further sample data *)

Module Fixture.

(** A browser with the file pickers answering as given, over the given
    files. *)
Definition desk (opened saved : Completion FileSystemFileHandle)
  (disk : gmap string string) : Browser :=
  mkBrowser 1709634600000 0 ∅ 4000 [] [] (Some opened) (Some saved) disk []
            no_rejection.

(** The user picks the same file in both pickers. *)
Definition picking : Browser :=
  desk (Normal "db.yongu") (Normal "db.yongu") ∅.

(** The user dismisses both pickers. *)
Definition dismissing : Browser :=
  desk (Throw (DOMException "AbortError"))
       (Throw (DOMException "AbortError")) ∅.

(** The user picks the file in both pickers, but the given call of a
    write to it rejects: the disk is full. *)
Definition disk_full (failing : WriteCall) : Browser :=
  mkBrowser 1709634600000 0 ∅ 4000 [] [] (Some (Normal "db.yongu"))
            (Some (Normal "db.yongu")) {[ "db.yongu" := "{}" ]} []
            (fun _ call =>
               match failing, call with
               | CreateWritable, CreateWritable
               | WriteData, WriteData
               | CloseWritable, CloseWritable =>
                   Some (DOMException "QuotaExceededError")
               | _, _ => None
               end).

(** The user picks a file that does not hold JSON. *)
Definition picking_notes : Browser :=
  desk (Normal "notes.txt") (Normal "notes.txt")
       {[ "notes.txt" := "{oops" ]}.

(** [Sample.ana] with a website: no member is left for the form to
    default. *)
Definition full : Client.t :=
  {| Client.id := Client.id Sample.ana;
     Client.name := Client.name Sample.ana;
     Client.company := Client.company Sample.ana;
     Client.role := Client.role Sample.ana;
     Client.email := Client.email Sample.ana;
     Client.phone := Client.phone Sample.ana;
     Client.sector := Client.sector Sample.ana;
     Client.status := Client.status Sample.ana;
     Client.statusUpdatedAt := Client.statusUpdatedAt Sample.ana;
     Client.location := Client.location Sample.ana;
     Client.continent := Client.continent Sample.ana;
     Client.lat := None;
     Client.lng := None;
     Client.website := Some "https://foo.example";
     Client.lastContactDate := Client.lastContactDate Sample.ana;
     Client.nextFollowUpDate := Client.nextFollowUpDate Sample.ana;
     Client.rate := Client.rate Sample.ana;
     Client.notes := Client.notes Sample.ana;
     Client.tags := Client.tags Sample.ana;
     Client.logs := Client.logs Sample.ana |}.

(** Application states in local mode, in file mode with a handle and in
    file mode without one. *)
Definition local_app (cs : list Client.t) : AppState :=
  mkAppState None LOCAL false cs None None.

Definition file_app (cs : list Client.t) : AppState :=
  mkAppState (Some "db.yongu") FILE false cs None None.

Definition detached_app (cs : list Client.t) : AppState :=
  mkAppState None FILE false cs None None.

(** The form of a contact never reached before, with a log being entered
    for the given day, and the same form with no notes entered. *)
Definition first_contact (day : string) : ModalState :=
  mkModalState
    (with_logs (formData (Sample.form day)) [] None)
    (newLog (Sample.form day)) true.

Definition no_notes : ModalState :=
  mkModalState (formData (Sample.form "2024-03-10"))
               (PartialLog.mk (Some "2024-03-10") (Some Call) None) true.

(** A form on which neither name nor company was entered. *)
Definition nameless : PartialClient.t :=
  {| PartialClient.id := None;
     PartialClient.name := Some "";
     PartialClient.company := None;
     PartialClient.role := None;
     PartialClient.email := None;
     PartialClient.phone := None;
     PartialClient.sector := Some IndustrySector.OTHER;
     PartialClient.status := Some ClientStatus.NEW;
     PartialClient.statusUpdatedAt := None;
     PartialClient.location := None;
     PartialClient.continent := Some NORTH_AMERICA;
     PartialClient.lat := None;
     PartialClient.lng := None;
     PartialClient.website := None;
     PartialClient.lastContactDate := None;
     PartialClient.nextFollowUpDate := None;
     PartialClient.rate := None;
     PartialClient.notes := None;
     PartialClient.tags := Some [];
     PartialClient.logs := Some [] |}.

(** The form of a new contact: name and company entered, no id yet. *)
Definition newcomer : PartialClient.t :=
  {| PartialClient.id := None;
     PartialClient.name := Some "Cy Moss";
     PartialClient.company := Some "Baz";
     PartialClient.role := None;
     PartialClient.email := None;
     PartialClient.phone := None;
     PartialClient.sector := Some IndustrySector.OTHER;
     PartialClient.status := Some ClientStatus.NEW;
     PartialClient.statusUpdatedAt := None;
     PartialClient.location := None;
     PartialClient.continent := Some NORTH_AMERICA;
     PartialClient.lat := None;
     PartialClient.lng := None;
     PartialClient.website := None;
     PartialClient.lastContactDate := None;
     PartialClient.nextFollowUpDate := None;
     PartialClient.rate := None;
     PartialClient.notes := None;
     PartialClient.tags := Some [];
     PartialClient.logs := Some [] |}.

(** A CSV text whose header line names no name column. *)
Definition csv_no_name_column : string :=
  "Company,Email" +:+ str LF +:+ "Foo,ana@foo.example".

End Fixture.

(* ===================================================================== *)
(** * Properties *)
(* ===================================================================== *)

(** ** Running monadic code *)

Lemma bind_normal {A B} (m : JS A) (k : A -> JS B) w a w' :
  m w = (Normal a, w') -> bind m k w = k a w'.
Proof. intros E. unfold bind. now rewrite E. Qed.

Lemma bind_throw {A B} (m : JS A) (k : A -> JS B) w e w' :
  m w = (Throw e, w') -> bind m k w = (Throw e, w').
Proof. intros E. unfold bind. now rewrite E. Qed.

(** Unfolds the monad's operations in the goal. *)
Ltac js_unfold :=
  unfold bind, ret, throw, try_catch, window, await, emit, console_log,
    alert, current_time_iso, getItem; simpl.

(** ** The file backend without file pickers *)

(** C9. On a platform without the file-picker capability both
    [openDatabaseFile] and [createDatabaseFile] fail with the
    NOT_SUPPORTED error, and the browser is left exactly as it was: no
    picker was shown and no file was read or written. *)
Theorem file_backend_unsupported_platform :
  forall (H : Host) (seed : list JSVal) (w : Browser),
    (showOpenFilePicker w = None ->
     openDatabaseFile H w = (Throw (Error "NOT_SUPPORTED"), w)) /\
    (showSaveFilePicker w = None ->
     createDatabaseFile H seed w = (Throw (Error "NOT_SUPPORTED"), w)).
Proof.
  intros H seed w. split; intros E.
  - unfold openDatabaseFile. js_unfold. now rewrite E.
  - unfold createDatabaseFile. js_unfold. now rewrite E.
Qed.

Lemma file_backend_unsupported_platform_witness :
  openDatabaseFile RefHost.host (RefHost.browser 100)
    = (Throw (Error "NOT_SUPPORTED"), RefHost.browser 100) /\
  createDatabaseFile RefHost.host [] (RefHost.browser 100)
    = (Throw (Error "NOT_SUPPORTED"), RefHost.browser 100).
Proof.
  destruct (file_backend_unsupported_platform RefHost.host []
              (RefHost.browser 100)) as [Ho Hc].
  split; [apply Ho | apply Hc]; reflexivity.
Defined.

(** ** Saving a client *)

Section SaveClient.

Variable H : Host.

Lemma saveData_returns st cs p w :
  exists w', saveData H st cs p w = (Normal tt, w').
Proof.
  unfold saveData, bind, current_time_iso, try_catch.
  match goal with
  | |- context [match ?m ?x with _ => _ end] => destruct (m x) as [[[]|e] w1]
  end; js_unfold; eauto.
Qed.

Lemma find_none_map (c : Client.t) (l : list Client.t) :
  find (fun x => String.eqb (Client.id x) (Client.id c)) l = None ->
  forall x, In x l -> Client.id x <> Client.id c.
Proof.
  intros E x Hin Hid.
  apply (find_none _ _ E) in Hin. simpl in Hin.
  rewrite Hid, String.eqb_refl in Hin. discriminate.
Qed.

Lemma replace_unique (c : Client.t) (l : list Client.t) :
  NoDup (map Client.id l) ->
  forall x, In x l -> Client.id x = Client.id c ->
  exists l1 l2,
    l = l1 ++ x :: l2 /\
    map (fun y => if String.eqb (Client.id y) (Client.id c) then c else y) l
      = l1 ++ c :: l2.
Proof.
  induction l as [|a l IH]; intros ND x Hin Hid; [destruct Hin|].
  simpl in ND. apply NoDup_cons in ND as [Hnotin ND].
  assert (Hfix : forall l', (forall y, In y l' -> Client.id y <> Client.id c) ->
            map (fun y => if String.eqb (Client.id y) (Client.id c) then c else y) l'
              = l').
  { induction l' as [|b l' IH']; intros Hne; [reflexivity|]. simpl.
    destruct (String.eqb_spec (Client.id b) (Client.id c)) as [E|E].
    - exfalso. apply (Hne b); [now left|exact E].
    - f_equal. apply IH'. intros y Hy. apply Hne. now right. }
  destruct Hin as [->|Hin].
  - exists [], l. split; [reflexivity|]. simpl.
    rewrite Hid, String.eqb_refl. f_equal. apply Hfix.
    intros y Hy E. apply Hnotin. rewrite Hid, <- E.
    apply list_elem_of_In, in_map, Hy.
  - destruct (IH ND x Hin Hid) as (l1 & l2 & -> & E).
    exists (a :: l1), l2. split; [reflexivity|]. simpl.
    destruct (String.eqb_spec (Client.id a) (Client.id c)) as [Ea|Ea].
    + exfalso. apply Hnotin. rewrite Ea, <- Hid.
      apply list_elem_of_In, in_map, Hin.
    + now rewrite E.
Qed.

(** C10. [handleSaveClient] always completes, and the list it stores is a
    replace-by-id of the old one: when some contact has the saved
    contact's id, the list keeps its length and order, every position
    holding that id now holds the saved contact and every other position
    is unchanged (so with unique ids exactly one element is replaced, in
    place); when no contact has that id, the saved contact is appended
    after the unchanged list. *)
Theorem handleSaveClient_replace_by_id :
  forall (c : Client.t) (st : AppState) (w : Browser),
    exists st' w',
      handleSaveClient H c st w = (Normal st', w') /\
      ((exists x, In x (clients st) /\ Client.id x = Client.id c) ->
       length (clients st') = length (clients st) /\
       (forall i x, nth_error (clients st) i = Some x ->
          nth_error (clients st') i =
            Some (if String.eqb (Client.id x) (Client.id c) then c else x)) /\
       (NoDup (map Client.id (clients st)) ->
        exists l1 x l2,
          clients st = l1 ++ x :: l2 /\ Client.id x = Client.id c /\
          clients st' = l1 ++ c :: l2)) /\
      ((forall x, In x (clients st) -> Client.id x <> Client.id c) ->
       clients st' = clients st ++ [c]).
Proof.
  intros c st w.
  destruct (saveData_returns st (updatedClients (clients st) c)
              (userProfile st) w) as [w' Hs].
  eexists _, w'. split.
  { unfold handleSaveClient. rewrite (bind_normal _ _ _ _ _ Hs). reflexivity. }
  simpl. unfold updatedClients.
  destruct (find _ (clients st)) as [y|] eqn:F.
  - split.
    + intros _. split; [apply length_map|]. split.
      * intros i x Hi. rewrite nth_error_map, Hi. reflexivity.
      * intros ND. apply find_some in F as [Hin Hid].
        apply String.eqb_eq in Hid.
        destruct (replace_unique c _ ND y Hin Hid) as (l1 & l2 & E1 & E2).
        exists l1, y, l2. auto.
    + intros Hne. exfalso. apply find_some in F as [Hin Hid].
      apply String.eqb_eq in Hid. exact (Hne y Hin Hid).
  - split.
    + intros (x & Hin & Hid). exfalso.
      exact (find_none_map c _ F x Hin Hid).
    + intros _. reflexivity.
Qed.

End SaveClient.

(** ** Adding a log *)

Section AddLog.

Variable H : Host.

(** C6. When the log form holds notes and a readable date, [handleAddLog]
    puts a new entry, dated with the ISO form of that date, in front of
    the logs. If the contact had no [lastContactDate] it becomes the
    entry's date. If it had one that reads as the time [t0] and the
    entry's date reads as [tn], then [lastContactDate] becomes the entry's
    date when [tn] is later than [t0] and is left as it was when [tn] is
    earlier than or equal to [t0]: it never moves back. *)
Theorem handleAddLog_lastContactDate :
  forall (st : ModalState) (w : Browser) (notes : string) (t : Z),
    PartialLog.notes (newLog st) = Some notes ->
    notes <> EmptyString ->
    new_Date_opt H (PartialLog.date (newLog st)) = Time t ->
    exists st' w' entry,
      handleAddLog H st w = (Normal st', w') /\
      ContactLog.date entry = ISO.format t /\
      ContactLog.notes entry = notes /\
      PartialClient.logs (formData st') =
        Some (entry :: default [] (PartialClient.logs (formData st))) /\
      (truthy (PartialClient.lastContactDate (formData st)) = false ->
       PartialClient.lastContactDate (formData st')
         = Some (ContactLog.date entry)) /\
      (forall old t0 tn,
         PartialClient.lastContactDate (formData st) = Some old ->
         old <> EmptyString ->
         new_Date H old = Time t0 ->
         new_Date H (ContactLog.date entry) = Time tn ->
         (t0 < tn ->
          PartialClient.lastContactDate (formData st')
            = Some (ContactLog.date entry)) /\
         (tn <= t0 ->
          PartialClient.lastContactDate (formData st') = Some old)).
Proof.
  intros st w notes t Hn Hne Hd.
  unfold handleAddLog. rewrite Hn.
  destruct notes as [|c notes]; [contradiction|].
  rewrite Hd. js_unfold.
  eexists _, _, (ContactLog.mk _ _ _ _). split; [reflexivity|]. simpl.
  split; [reflexivity|]. split; [reflexivity|]. split; [reflexivity|].
  split.
  - intros E. now rewrite E.
  - intros old t0 tn Hold Hnonempty Ht0 Htn. rewrite Hold. simpl.
    rewrite Ht0, Htn.
    destruct old as [|c0 old]; [contradiction|]. simpl. split.
    + intros Hlt. apply Z.ltb_lt in Hlt. now rewrite Hlt.
    + intros Hle. apply Z.ltb_ge in Hle. now rewrite Hle.
Qed.

End AddLog.

(** ** Validation *)

Lemma validateData_malformed raw w :
  truthy_val raw = false \/ isArray (member raw "clients") = false ->
  exists w', validateData raw w = (Normal (zero_document w), w') /\
             now w' = now w.
Proof.
  intros Hbad. unfold validateData, zero_document.
  destruct raw as [| |b|n|s|items|ms]; simpl in *; js_unfold;
    try (eexists; split; reflexivity).
  - destruct b; js_unfold; eexists; split; reflexivity.
  - destruct (n =? 0); js_unfold; eexists; split; reflexivity.
  - destruct s; js_unfold; eexists; split; reflexivity.
  - destruct Hbad as [Hbad|Hbad]; [discriminate|]. rewrite Hbad. simpl.
    eexists; split; reflexivity.
Qed.

Lemma validateData_wellformed ms w :
  isArray (lookup_member "clients" ms) = true ->
  validateData (JObj ms) w =
    (Normal (AppData.mk
               (lookup_member "clients" ms)
               (if truthy_val (lookup_member "profile" ms)
                then lookup_member "profile" ms else JNull)
               (if truthy_val (lookup_member "lastUpdated" ms)
                then lookup_member "lastUpdated" ms
                else JStr (ISO.format (now w)))), w).
Proof.
  intros Harr. unfold validateData. js_unfold. rewrite Harr. simpl.
  destruct (truthy_val (lookup_member "lastUpdated" ms)); reflexivity.
Qed.

Lemma validateData_returns raw w :
  exists doc w', validateData raw w = (Normal doc, w').
Proof.
  destruct (truthy_val raw) eqn:T.
  - destruct (isArray (member raw "clients")) eqn:A.
    + destruct raw; try discriminate. simpl in A.
      rewrite (validateData_wellformed _ w A). eauto.
    + destruct (validateData_malformed raw w (or_intror A)) as (w' & E & _).
      eauto.
  - destruct (validateData_malformed raw w (or_introl T)) as (w' & E & _).
    eauto.
Qed.

(** C2, as the code has it. [validateData] never throws. It returns the
    zero-value document when the input is absent, is not an object, or has
    a [clients] member that is not an array; in particular for [null],
    for the empty object and for an object whose [clients] is a string.
    Otherwise it returns the input's [clients] unchanged, its [profile] if
    that is truthy (so whenever it is object-like) and [null] otherwise,
    and its [lastUpdated] if that is truthy and the current time
    otherwise. *)
Theorem validateData_repairs :
  forall (raw : JSVal) (w : Browser),
    (exists doc w', validateData raw w = (Normal doc, w')) /\
    (raw = JUndefined \/ raw = JNull \/ (forall ms, raw <> JObj ms) \/
     isArray (member raw "clients") = false ->
     exists w', validateData raw w = (Normal (zero_document w), w')) /\
    (forall ms, raw = JObj ms -> isArray (member raw "clients") = true ->
     exists doc w',
       validateData raw w = (Normal doc, w') /\
       AppData.clients doc = member raw "clients" /\
       AppData.profile doc =
         (if truthy_val (member raw "profile")
          then member raw "profile" else JNull) /\
       (object_like (member raw "profile") = true ->
        AppData.profile doc = member raw "profile") /\
       AppData.lastUpdated doc =
         (if truthy_val (member raw "lastUpdated")
          then member raw "lastUpdated"
          else JStr (ISO.format (now w)))) /\
    (exists w', validateData JNull w = (Normal (zero_document w), w')) /\
    (exists w', validateData (JObj []) w = (Normal (zero_document w), w')) /\
    (exists w', validateData (JObj [("clients", JStr "not-a-list")]) w
                = (Normal (zero_document w), w')).
Proof.
  intros raw w.
  assert (Hzero : forall r, isArray (member r "clients") = false ->
            exists w', validateData r w = (Normal (zero_document w), w')).
  { intros r A. destruct (validateData_malformed r w (or_intror A))
      as (w' & E & _). eauto. }
  split; [apply validateData_returns|].
  split.
  { intros [->|[->|[Hno|A]]]; try (apply Hzero; reflexivity).
    - destruct raw; try (apply Hzero; reflexivity).
      exfalso. eapply Hno. reflexivity.
    - apply Hzero, A. }
  split.
  { intros ms -> A. simpl in A.
    rewrite (validateData_wellformed _ w A).
    eexists _, _. split; [reflexivity|]. simpl.
    split; [reflexivity|]. split; [reflexivity|]. split; [|reflexivity].
    intros O. destruct (lookup_member "profile" ms); try discriminate;
      reflexivity. }
  repeat split; apply Hzero; reflexivity.
Qed.

(** C2, a counterexample to the statement as the specification words it:
    a profile that is a string is not object-like, yet it is passed
    through instead of being replaced by none. *)
Lemma validateData_profile_counterexample :
  let raw := JObj [("clients", JArr []); ("profile", JStr "admin")] in
  exists doc w',
    validateData raw (RefHost.browser 100) = (Normal doc, w') /\
    AppData.profile doc = JStr "admin" /\
    AppData.profile doc <> spec_profile raw.
Proof.
  simpl. eexists _, _. split; [reflexivity|]. simpl.
  split; [reflexivity|]. discriminate.
Qed.

(** ** The local backend *)

Section LocalBackend.

Variable H : Host.

(** C5. [loadFromLocalStorage] never throws. It returns none when the
    slot is absent, and none as well when the slot's text does not parse;
    when the text parses it returns what [validateData] makes of the
    parsed value. (No JSON text is empty, so the engine is taken to reject
    the empty text.) *)
Theorem loadFromLocalStorage_outcomes :
  forall (w : Browser),
    JSON_parse H EmptyString = None ->
    (exists r w', loadFromLocalStorage H w = (Normal r, w')) /\
    (localStorage w !! LOCAL_STORAGE_KEY = None ->
     loadFromLocalStorage H w = (Normal None, w)) /\
    (forall text,
       localStorage w !! LOCAL_STORAGE_KEY = Some text ->
       JSON_parse H text = None ->
       exists w', loadFromLocalStorage H w = (Normal None, w')) /\
    (forall text v,
       localStorage w !! LOCAL_STORAGE_KEY = Some text ->
       JSON_parse H text = Some v ->
       exists doc w',
         validateData v w = (Normal doc, w') /\
         loadFromLocalStorage H w = (Normal (Some doc), w')).
Proof.
  intros w Hempty.
  assert (Habsent : localStorage w !! LOCAL_STORAGE_KEY = None ->
            loadFromLocalStorage H w = (Normal None, w)).
  { intros E. unfold loadFromLocalStorage. js_unfold. now rewrite E. }
  assert (Hcorrupt : forall text,
            localStorage w !! LOCAL_STORAGE_KEY = Some text ->
            JSON_parse H text = None ->
            exists w', loadFromLocalStorage H w = (Normal None, w')).
  { intros text E P. unfold loadFromLocalStorage. js_unfold. rewrite E.
    destruct text as [|c text]; [eauto|].
    unfold JSON_parse_text. rewrite P. js_unfold. eauto. }
  assert (Hparsed : forall text v,
            localStorage w !! LOCAL_STORAGE_KEY = Some text ->
            JSON_parse H text = Some v ->
            exists doc w',
              validateData v w = (Normal doc, w') /\
              loadFromLocalStorage H w = (Normal (Some doc), w')).
  { intros text v E P.
    destruct (validateData_returns v w) as (doc & w' & V).
    exists doc, w'. split; [exact V|].
    unfold loadFromLocalStorage. js_unfold. rewrite E.
    destruct text as [|c text]; [congruence|].
    unfold JSON_parse_text. rewrite P. js_unfold. now rewrite V. }
  split; [|auto].
  destruct (localStorage w !! LOCAL_STORAGE_KEY) as [text|] eqn:E.
  - destruct (JSON_parse H text) as [v|] eqn:P.
    + destruct (Hparsed text v eq_refl P) as (doc & w' & _ & L). eauto.
    + destruct (Hcorrupt text eq_refl P) as (w' & L). eauto.
  - rewrite (Habsent eq_refl). eauto.
Qed.

(** C4, as the code has it. When the store rejects the write,
    [saveToLocalStorage] still returns normally to its caller: the
    exception is caught inside, the slot keeps its old content, and the
    failure is reported to the user by an alert and to the console. *)
Theorem saveToLocalStorage_reports_to_user :
  forall (data : AppData.t) (w : Browser),
    (quota w <
     storage_size (<[LOCAL_STORAGE_KEY :=
                       JSON_stringify H 0 (AppData.toJSVal data)]>
                     (localStorage w)))%nat ->
    exists w',
      saveToLocalStorage H data w = (Normal tt, w') /\
      localStorage w' = localStorage w /\
      alerts w' =
        alerts w ++ ["Warning: Local storage full. Some data may not be saved."] /\
      console w' =
        console w ++ ["Failed to save to local storage (quota exceeded?)"].
Proof.
  intros data w Hfull.
  unfold saveToLocalStorage, try_catch, setItem.
  apply Nat.leb_gt in Hfull. rewrite Hfull. js_unfold.
  eexists. repeat split.
Qed.

End LocalBackend.

(** C4, a counterexample to the statement as the specification words it:
    the store rejects the write, and the caller of [saveToLocalStorage]
    sees a normal return, not the failure. *)
Lemma saveToLocalStorage_counterexample :
  let w := RefHost.browser 10 in
  let data := AppData.mk (JArr []) JNull (JStr "2024-03-05T10:30:00.000Z") in
  fst (setItem LOCAL_STORAGE_KEY
         (JSON_stringify RefHost.host 0 (AppData.toJSVal data)) w)
    = Throw (DOMException "QuotaExceededError") /\
  fst (saveToLocalStorage RefHost.host data w) = Normal tt /\
  localStorage (snd (saveToLocalStorage RefHost.host data w)) = localStorage w.
Proof. vm_compute. repeat split. Qed.

(** ** Strings *)

#[local] Arguments String.append !s1 s2 : simpl nomatch.

Lemma sapp_assoc (a b c : string) : (a +:+ b) +:+ c = a +:+ (b +:+ c).
Proof. induction a as [|x a IH]; simpl; [reflexivity|now f_equal]. Qed.

Lemma sapp_nil_r (a : string) : a +:+ EmptyString = a.
Proof. induction a as [|x a IH]; simpl; [reflexivity|now f_equal]. Qed.

Lemma has_char_app c (a b : string) :
  has_char c (a +:+ b) = has_char c a || has_char c b.
Proof.
  induction a as [|x a IH]; simpl; [reflexivity|].
  now rewrite IH, orb_assoc.
Qed.

Lemma last_nonspace_app (a b : string) :
  last_nonspace b = true -> last_nonspace (a +:+ b) = true.
Proof.
  intros Hb. induction a as [|x a IH]; simpl; [exact Hb|].
  destruct (a +:+ b) eqn:E; [|exact IH].
  destruct a; simpl in E; [subst b; discriminate|discriminate].
Qed.

Lemma trimEnd_id (s : string) : last_nonspace s = true -> trimEnd s = s.
Proof.
  induction s as [|c s IH]; [discriminate|]. simpl.
  destruct s as [|c' s].
  - simpl. intros E. now destruct (is_white_space c).
  - intros E. rewrite (IH E). reflexivity.
Qed.

(** A string that starts and ends with characters that are not white
    space is its own trimming. *)
Lemma trim_id (c : ascii) (s : string) :
  is_white_space c = false -> last_nonspace (String c s) = true ->
  trim (String c s) = String c s.
Proof.
  intros Hc Hl. unfold trim. simpl trimStart. rewrite Hc.
  now apply trimEnd_id.
Qed.

Lemma nonspace_not_CR c : is_white_space c = false -> Ascii.eqb c CR = false.
Proof.
  intros E. destruct (Ascii.eqb_spec c CR) as [->|]; [discriminate|reflexivity].
Qed.

Lemma splitLines_step (c : ascii) (s : string) :
  splitLines (String c s) =
    if Ascii.eqb c LF then EmptyString :: splitLines s
    else
      let keep := match splitLines s with
                  | w :: ws => String c w :: ws
                  | [] => [str c]
                  end in
      if Ascii.eqb c CR then
        match s with
        | String c2 s'' =>
            if Ascii.eqb c2 LF then EmptyString :: splitLines s'' else keep
        | EmptyString => keep
        end
      else keep.
Proof. reflexivity. Qed.

(** A line without line feed that does not end in white space is split
    off whole. *)
Lemma splitLines_cons (l rest : string) :
  has_char LF l = false -> last_nonspace l = true ->
  splitLines (l +:+ String LF rest) = l :: splitLines rest.
Proof.
  induction l as [|c l IH]; [discriminate|].
  intros Hlf Hlast. simpl in Hlf. apply orb_false_iff in Hlf as [Hc Hl].
  simpl append. rewrite splitLines_step, Hc. cbv zeta.
  destruct l as [|c' l].
  - simpl in Hlast. apply negb_true_iff in Hlast.
    rewrite (nonspace_not_CR _ Hlast). reflexivity.
  - rewrite (IH Hl Hlast).
    simpl in Hl. apply orb_false_iff in Hl as [Hc' _].
    simpl append. cbv beta iota. rewrite Hc'.
    now destruct (Ascii.eqb c CR).
Qed.

Lemma splitLines_single (l : string) :
  has_char LF l = false -> last_nonspace l = true -> splitLines l = [l].
Proof.
  induction l as [|c l IH]; [discriminate|].
  intros Hlf Hlast. simpl in Hlf. apply orb_false_iff in Hlf as [Hc Hl].
  destruct l as [|c' l].
  - simpl in Hlast. apply negb_true_iff in Hlast.
    simpl. now rewrite Hc, (nonspace_not_CR _ Hlast).
  - specialize (IH Hl Hlast).
    rewrite splitLines_step, Hc, IH. cbv zeta.
    simpl in Hl. apply orb_false_iff in Hl as [Hc' _].
    rewrite Hc'. now destruct (Ascii.eqb c CR).
Qed.

Lemma splitLines_join (ls : list string) :
  ls <> [] ->
  Forall (fun l => has_char LF l = false /\ last_nonspace l = true) ls ->
  splitLines (join (str LF) ls) = ls.
Proof.
  induction ls as [|l ls IH]; [congruence|].
  intros _ Hall. inversion Hall as [|? ? [Hlf Hlast] Hrest]; subst.
  destruct ls as [|l2 ls].
  - simpl. now apply splitLines_single.
  - change (join (str LF) (l :: l2 :: ls))
      with (l +:+ String LF (join (str LF) (l2 :: ls))).
    rewrite (splitLines_cons _ _ Hlf Hlast), IH;
      [reflexivity|congruence|exact Hrest].
Qed.

(** ** The line splitter on quoted fields *)

Lemma splitCSVLine_from_step char rest res current inQuotes :
  splitCSVLine_from (String char rest) res current inQuotes =
    if Ascii.eqb char dquote then
      match rest with
      | String next rest' =>
          if Ascii.eqb next dquote
          then splitCSVLine_from rest' res (current +:+ str dquote) inQuotes
          else splitCSVLine_from rest res current (negb inQuotes)
      | EmptyString => splitCSVLine_from rest res current (negb inQuotes)
      end
    else if Ascii.eqb char comma && negb inQuotes then
      splitCSVLine_from rest (res ++ [current]) EmptyString inQuotes
    else
      splitCSVLine_from rest res (current +:+ str char) inQuotes.
Proof. reflexivity. Qed.

Lemma sapp_snoc (cur : string) (c : ascii) (t : string) :
  (cur +:+ str c) +:+ t = cur +:+ String c t.
Proof. rewrite sapp_assoc. reflexivity. Qed.

(** Inside quotes the splitter reads an escaped text back, up to the
    closing quote. *)
Lemma split_in_quotes (t : string) :
  forall res cur rest,
    no_quote_head rest = true ->
    splitCSVLine_from (doubleQuotes t +:+ String dquote rest) res cur true
      = splitCSVLine_from rest res (cur +:+ t) false.
Proof.
  induction t as [|c t IH]; intros res cur rest Hrest.
  - simpl append. rewrite splitCSVLine_from_step, sapp_nil_r.
    change (Ascii.eqb dquote dquote) with true. cbv iota.
    destruct rest as [|next rest']; [reflexivity|].
    simpl in Hrest. apply negb_true_iff in Hrest. now rewrite Hrest.
  - simpl doubleQuotes. destruct (Ascii.eqb c dquote) eqn:Ec.
    + apply Ascii.eqb_eq in Ec. subst c.
      simpl append. rewrite splitCSVLine_from_step.
      change (Ascii.eqb dquote dquote) with true. cbv iota.
      rewrite IH by exact Hrest. now rewrite sapp_snoc.
    + simpl append. rewrite splitCSVLine_from_step, Ec.
      rewrite andb_false_r. rewrite IH by exact Hrest.
      now rewrite sapp_snoc.
Qed.

(** From outside quotes the splitter reads a quoted text back, unless the
    text is made of double quotes only. *)
Lemma split_quoted (t : string) :
  all_quotes t = false ->
  forall res cur rest,
    no_quote_head rest = true ->
    splitCSVLine_from (String dquote (doubleQuotes t +:+ String dquote rest))
                      res cur false
      = splitCSVLine_from rest res (cur +:+ t) false.
Proof.
  induction t as [|c t IH]; intros Hq res cur rest Hrest; [discriminate|].
  simpl in Hq. rewrite splitCSVLine_from_step.
  change (Ascii.eqb dquote dquote) with true. cbv iota.
  simpl doubleQuotes. destruct (Ascii.eqb c dquote) eqn:Ec.
  - apply Ascii.eqb_eq in Ec. subst c. simpl in Hq.
    simpl append. change (Ascii.eqb dquote dquote) with true. cbv iota.
    rewrite IH by assumption. now rewrite sapp_snoc.
  - simpl append. cbv beta iota. rewrite Ec. simpl negb.
    replace (String c (doubleQuotes t +:+ String dquote rest))
      with (doubleQuotes (String c t) +:+ String dquote rest)
      by (simpl; now rewrite Ec).
    now apply split_in_quotes.
Qed.

(** A text of [n] double quotes, the empty text included, is read back
    with one double quote too many. *)
Lemma split_all_quotes (t : string) :
  all_quotes t = true ->
  forall res cur rest,
    no_quote_head rest = true ->
    splitCSVLine_from (String dquote (doubleQuotes t +:+ String dquote rest))
                      res cur false
      = splitCSVLine_from rest res (cur +:+ String dquote t) false.
Proof.
  induction t as [|c t IH]; intros Hq res cur rest Hrest.
  - simpl. change (Ascii.eqb dquote dquote) with true. cbv iota. reflexivity.
  - simpl in Hq. apply andb_true_iff in Hq as [Ec Hq].
    apply Ascii.eqb_eq in Ec. subst c.
    simpl doubleQuotes. change (Ascii.eqb dquote dquote) with true. cbv iota.
    rewrite splitCSVLine_from_step.
    change (Ascii.eqb dquote dquote) with true. cbv iota.
    simpl append. change (Ascii.eqb dquote dquote) with true. cbv iota.
    rewrite IH by assumption. now rewrite sapp_snoc.
Qed.

Lemma esc_some (t : string) :
  esc (Some t) = String dquote (doubleQuotes t +:+ String dquote EmptyString).
Proof. destruct t; reflexivity. Qed.

(** The splitter gives back the texts of a row of quoted fields, none of
    which is made of double quotes only. *)
Lemma split_row (fs : list string) :
  fs <> [] ->
  Forall (fun t => all_quotes t = false) fs ->
  forall res,
    splitCSVLine_from (join "," (map (fun t => esc (Some t)) fs))
                      res EmptyString false
      = res ++ fs.
Proof.
  induction fs as [|t fs IH]; [congruence|].
  intros _ Hall res. inversion Hall as [|? ? Ht Hrest]; subst.
  destruct fs as [|t2 fs].
  - change (join "," (map (fun t => esc (Some t)) [t]))
      with (esc (Some t)).
    rewrite esc_some.
    rewrite (split_quoted t Ht res EmptyString EmptyString eq_refl).
    reflexivity.
  - change (join "," (map (fun t => esc (Some t)) (t :: t2 :: fs)))
      with (esc (Some t) +:+ String comma
              (join "," (map (fun t => esc (Some t)) (t2 :: fs)))).
    rewrite esc_some. simpl append. rewrite sapp_assoc. simpl append.
    rewrite (split_quoted t Ht res EmptyString) by reflexivity.
    rewrite splitCSVLine_from_step.
    change (Ascii.eqb comma dquote) with false.
    change (Ascii.eqb comma comma && negb false) with true. cbv iota.
    rewrite IH; [|congruence|exact Hrest].
    now rewrite <- app_assoc.
Qed.

(** A quoted field whose text is made of double quotes only, the empty
    field among them, is read back with one double quote too many. *)
Lemma split_field_of_quotes (t : string) :
  all_quotes t = true ->
  splitCSVLine (esc (Some t)) = [String dquote t].
Proof.
  intros Hq. unfold splitCSVLine. rewrite esc_some.
  now rewrite (split_all_quotes t Hq [] EmptyString EmptyString eq_refl).
Qed.

(** ** The tags cell *)

Lemma split_cons (sep : ascii) (t rest : string) :
  has_char sep t = false ->
  split sep (t +:+ String sep rest) = t :: split sep rest.
Proof.
  induction t as [|c t IH]; intros Hs.
  - simpl. now rewrite Ascii.eqb_refl.
  - simpl in Hs. apply orb_false_iff in Hs as [Hc Ht].
    simpl. rewrite Hc, (IH Ht). reflexivity.
Qed.

Lemma split_single (sep : ascii) (t : string) :
  has_char sep t = false -> split sep t = [t].
Proof.
  induction t as [|c t IH]; intros Hs; [reflexivity|].
  simpl in Hs. apply orb_false_iff in Hs as [Hc Ht].
  simpl. rewrite Hc, (IH Ht). reflexivity.
Qed.

Lemma stable_tag_inv (t : string) :
  stable_tag t = true ->
  nonempty t = true /\ has_char comma t = false /\ trim t = t.
Proof.
  unfold stable_tag. intros E.
  apply andb_true_iff in E as [E Ht]. apply andb_true_iff in E as [Hn Hc].
  apply negb_true_iff in Hc. apply String.eqb_eq in Ht. auto.
Qed.

(** Splitting the joined tags on commas, trimming and dropping empty
    pieces gives the tags back; a leading space makes no difference. *)
Lemma tags_read_back (tags : list string) :
  tags <> [] ->
  forallb stable_tag tags = true ->
  forall lead : bool,
    List.filter nonempty
      (map trim (split comma
         ((if lead then " " else EmptyString) +:+ join ", " tags))) = tags.
Proof.
  induction tags as [|t tags IH]; [congruence|].
  intros _ Hall lead. simpl in Hall. apply andb_true_iff in Hall as [Ht Hall].
  apply stable_tag_inv in Ht as (Hn & Hc & Htrim).
  assert (Hlead : has_char comma ((if lead then " " else EmptyString) +:+ t)
                  = false).
  { rewrite has_char_app, Hc. now destruct lead. }
  assert (Htrim' : trim ((if lead then " " else EmptyString) +:+ t) = t).
  { destruct lead; exact Htrim. }
  destruct tags as [|t2 tags].
  - simpl join. rewrite (split_single _ _ Hlead). simpl.
    rewrite Htrim', Hn. reflexivity.
  - change (join ", " (t :: t2 :: tags))
      with (t +:+ String comma (String " " (join ", " (t2 :: tags)))).
    rewrite <- sapp_assoc, (split_cons _ _ _ Hlead). simpl map. simpl List.filter.
    rewrite Htrim', Hn. f_equal.
    apply (IH ltac:(congruence) Hall true).
Qed.

Lemma importTags_join (tags : list string) :
  csv_stable (join ", " tags) = true ->
  forallb stable_tag tags = true ->
  importTags (Some (join ", " tags)) = tags.
Proof.
  intros Hs Hall.
  assert (Hne : tags <> []) by (intros ->; discriminate).
  unfold importTags.
  destruct (join ", " tags) as [|c s] eqn:E; [discriminate|].
  rewrite <- E. exact (tags_read_back tags Hne Hall false).
Qed.

(** ** Importing an exported row *)

(** The headers of the export as the import reads them. *)
Lemma exported_headers :
  readHeaders (join "," headers) = exported_hdrs.
Proof. reflexivity. Qed.

Lemma csv_stable_inv (s : string) :
  csv_stable s = true ->
  all_quotes s = false /\ has_char LF s = false /\ trim s = s.
Proof.
  unfold csv_stable. intros E.
  apply andb_true_iff in E as [E Ht]. apply andb_true_iff in E as [Hq Hl].
  apply negb_true_iff in Hq. apply negb_true_iff in Hl.
  apply String.eqb_eq in Ht. auto.
Qed.

Lemma stable_opt_inv (o : option string) :
  stable_opt o = true -> exists s, o = Some s /\ csv_stable s = true.
Proof. destruct o as [s|]; [eauto|discriminate]. Qed.

Lemma has_char_doubleQuotes (t : string) :
  has_char LF (doubleQuotes t) = has_char LF t.
Proof.
  induction t as [|c t IH]; [reflexivity|]. simpl.
  destruct (Ascii.eqb_spec c dquote) as [->|]; simpl; now rewrite IH.
Qed.

Lemma has_char_esc (t : string) :
  has_char LF (esc (Some t)) = has_char LF t.
Proof.
  rewrite esc_some. simpl. rewrite has_char_app, has_char_doubleQuotes.
  simpl. now rewrite orb_false_r.
Qed.

Lemma last_nonspace_esc (t : string) : last_nonspace (esc (Some t)) = true.
Proof.
  rewrite esc_some.
  change (String dquote (doubleQuotes t +:+ String dquote EmptyString))
    with (String dquote (doubleQuotes t) +:+ String dquote EmptyString).
  now apply last_nonspace_app.
Qed.

(** The text of a row of quoted fields. *)
Lemma row_cons (t t2 : string) (l : list string) :
  join "," (map (fun t => esc (Some t)) (t :: t2 :: l)) =
  esc (Some t) +:+ String comma (join "," (map (fun t => esc (Some t)) (t2 :: l))).
Proof. reflexivity. Qed.

Lemma row_single (t : string) :
  join "," (map (fun t => esc (Some t)) [t]) = esc (Some t).
Proof. reflexivity. Qed.

Lemma row_head (fs : list string) :
  fs <> [] ->
  exists s, join "," (map (fun t => esc (Some t)) fs) = String dquote s.
Proof.
  destruct fs as [|t [|t2 l]]; [congruence| |]; intros _.
  - rewrite row_single, esc_some. eauto.
  - rewrite row_cons, esc_some. simpl append. eauto.
Qed.

Lemma row_last (fs : list string) :
  fs <> [] ->
  last_nonspace (join "," (map (fun t => esc (Some t)) fs)) = true.
Proof.
  induction fs as [|t l IH]; [congruence|]. intros _.
  destruct l as [|t2 l].
  - rewrite row_single. apply last_nonspace_esc.
  - rewrite row_cons.
    change (String comma ?x) with (str comma +:+ x).
    rewrite <- sapp_assoc. apply last_nonspace_app, IH. congruence.
Qed.

Lemma row_trim (fs : list string) :
  fs <> [] ->
  trim (join "," (map (fun t => esc (Some t)) fs))
    = join "," (map (fun t => esc (Some t)) fs).
Proof.
  intros Hne. destruct (row_head fs Hne) as [s E]. rewrite E.
  apply trim_id; [reflexivity|]. rewrite <- E. now apply row_last.
Qed.

Lemma row_no_LF (fs : list string) :
  Forall (fun t => has_char LF t = false) fs ->
  has_char LF (join "," (map (fun t => esc (Some t)) fs)) = false.
Proof.
  induction fs as [|t l IH]; [reflexivity|].
  intros Hall. inversion Hall as [|? ? Ht Hl]; subst.
  destruct l as [|t2 l].
  - rewrite row_single. now rewrite has_char_esc.
  - rewrite row_cons, has_char_app, has_char_esc, Ht.
    change (has_char LF (String comma ?x)) with (has_char LF x).
    apply IH, Hl.
Qed.

(** Under the headers of the export each keyword selects its own
    column. *)
Lemma val_exported (v0 v1 v2 v3 v4 v5 v6 v7 v8 v9 v10 v11 v12 : string) :
  let values := [v0; v1; v2; v3; v4; v5; v6; v7; v8; v9; v10; v11; v12] in
  val exported_hdrs values "name" = Some (trim v0) /\
  val exported_hdrs values "company" = Some (trim v1) /\
  val exported_hdrs values "role" = Some (trim v2) /\
  val exported_hdrs values "status" = Some (trim v3) /\
  val exported_hdrs values "sector" = Some (trim v4) /\
  val exported_hdrs values "email" = Some (trim v5) /\
  val exported_hdrs values "phone" = Some (trim v6) /\
  val exported_hdrs values "location" = Some (trim v7) /\
  val exported_hdrs values "last contact" = Some (trim v8) /\
  val exported_hdrs values "next follow" = Some (trim v9) /\
  val exported_hdrs values "rate" = Some (trim v10) /\
  val exported_hdrs values "notes" = Some (trim v11) /\
  val exported_hdrs values "tags" = Some (trim v12).
Proof. repeat split. Qed.

Lemma stable_nonempty (s : string) :
  csv_stable s = true -> exists c s', s = String c s'.
Proof.
  intros E. apply csv_stable_inv in E as (Hq & _).
  destruct s as [|c s']; [discriminate|eauto].
Qed.

Lemma match_nonempty {A} (s : string) (a b : A) :
  nonempty s = true ->
  match s with EmptyString => a | String _ _ => b end = b.
Proof. destruct s; [discriminate|reflexivity]. Qed.

Lemma stable_is_nonempty (s : string) :
  csv_stable s = true -> nonempty s = true.
Proof. intros E. destruct (stable_nonempty s E) as (c & s' & ->). reflexivity. Qed.

Section RoundTrip.

Variable H : Host.

Lemma crypto_randomUUID_run (w : Browser) :
  crypto_randomUUID H w = (Normal (randomUUID H (minted w)), after_minting 1 w).
Proof. reflexivity. Qed.

Lemma importDate_stable (d : option string) :
  stable_date H d = true ->
  forall w, importDate H (Some (dateCell H d)) w = (Normal (reread H d), w).
Proof.
  unfold stable_date, reread. intros E w.
  apply andb_true_iff in E as [Hs Ht].
  destruct (stable_nonempty _ Hs) as (c & s' & Ecell).
  unfold importDate. rewrite Ecell. rewrite <- Ecell.
  destruct (new_Date H (dateCell H d)); [discriminate|]. reflexivity.
Qed.

Lemma exportable_inv (c : Client.t) :
  exportable H c = true ->
  exists role email phone location rate notes,
    Client.role c = Some role /\ Client.email c = Some email /\
    Client.phone c = Some phone /\ Client.location c = Some location /\
    Client.rate c = Some rate /\ Client.notes c = Some notes /\
    Forall (fun t => csv_stable t = true)
      [Client.name c; Client.company c; role; Client.status c;
       Client.sector c; email; phone; location;
       dateCell H (Client.lastContactDate c);
       dateCell H (Client.nextFollowUpDate c); rate; notes;
       join ", " (Client.tags c)] /\
    stable_date H (Client.lastContactDate c) = true /\
    stable_date H (Client.nextFollowUpDate c) = true /\
    forallb stable_tag (Client.tags c) = true.
Proof.
  unfold exportable. intros E.
  apply andb_true_iff in E as [E Htags].
  apply andb_true_iff in E as [E Hjoin].
  apply andb_true_iff in E as [E Hnotes].
  apply andb_true_iff in E as [E Hrate].
  apply andb_true_iff in E as [E Hnfd].
  apply andb_true_iff in E as [E Hlcd].
  apply andb_true_iff in E as [E Hloc].
  apply andb_true_iff in E as [E Hphone].
  apply andb_true_iff in E as [E Hemail].
  apply andb_true_iff in E as [E Hsector].
  apply andb_true_iff in E as [E Hstatus].
  apply andb_true_iff in E as [E Hrole].
  apply andb_true_iff in E as [Hname Hcompany].
  apply stable_opt_inv in Hrole as (role & Er & Hrole).
  apply stable_opt_inv in Hemail as (email & Ee & Hemail).
  apply stable_opt_inv in Hphone as (phone & Ep & Hphone).
  apply stable_opt_inv in Hloc as (location & El & Hloc).
  apply stable_opt_inv in Hrate as (rate & Era & Hrate).
  apply stable_opt_inv in Hnotes as (notes & En & Hnotes).
  exists role, email, phone, location, rate, notes.
  repeat (split; [assumption|]).
  split; [|auto].
  pose proof Hlcd as Hl. pose proof Hnfd as Hn'.
  unfold stable_date in Hl, Hn'.
  apply andb_true_iff in Hl as [Hl _]. apply andb_true_iff in Hn' as [Hn' _].
  repeat constructor; assumption.
Qed.

Lemma row_nonempty (fs : list string) :
  fs <> [] ->
  nonempty (join "," (map (fun t => esc (Some t)) fs)) = true.
Proof. intros Hne. destruct (row_head fs Hne) as [s ->]. reflexivity. Qed.

Lemma or_else_stable (s fallback : string) :
  csv_stable s = true -> or_else (Some s) fallback = s.
Proof. intros E. destruct (stable_nonempty s E) as (c & s' & ->). reflexivity. Qed.

(** Importing the exported row of an exportable contact appends the
    reimported contact and mints one id. *)
Lemma importRow_exported (c : Client.t) (acc : list Client.t) (w : Browser) :
  exportable H c = true ->
  importRow H exported_hdrs (join "," (csvRow H c)) acc w =
    (Normal (acc ++ [reimported H (randomUUID H (minted w)) c]),
     after_minting 1 w).
Proof.
  intros E.
  destruct (exportable_inv c E)
    as (role & email & phone & location & rate & notes &
        Er & Ee & Ep & El & Era & En & Hall & Hlcd & Hnfd & Htags).
  pose (fields := [Client.name c; Client.company c; role; Client.status c;
       Client.sector c; email; phone; location;
       dateCell H (Client.lastContactDate c);
       dateCell H (Client.nextFollowUpDate c); rate; notes;
       join ", " (Client.tags c)]).
  assert (Hrow : csvRow H c = map (fun t => esc (Some t)) fields).
  { unfold csvRow. rewrite Er, Ee, Ep, El, Era, En. reflexivity. }
  assert (Hne : fields <> []) by discriminate.
  unfold importRow. rewrite Hrow, (row_trim fields Hne), (row_nonempty fields Hne).
  cbv beta iota zeta. simpl negb. cbv iota.
  unfold splitCSVLine. rewrite (split_row fields Hne).
  2:{ eapply Forall_impl; [exact Hall|]. intros t Ht.
      now apply csv_stable_inv in Ht. }
  rewrite app_nil_l.
  change (length fields <? 2)%nat with false. cbv iota.
  destruct (val_exported (Client.name c) (Client.company c) role
              (Client.status c) (Client.sector c) email phone location
              (dateCell H (Client.lastContactDate c))
              (dateCell H (Client.nextFollowUpDate c)) rate notes
              (join ", " (Client.tags c)))
    as (V0 & V1 & V2 & V3 & V4 & V5 & V6 & V7 & V8 & V9 & V10 & V11 & V12).
  fold fields in V0, V1, V2, V3, V4, V5, V6, V7, V8, V9, V10, V11, V12.
  rewrite V0, V1, V2, V3, V4, V5, V6, V7, V8, V9, V10, V11, V12.
  clear V0 V1 V2 V3 V4 V5 V6 V7 V8 V9 V10 V11 V12.
  repeat match goal with
         | X : Forall _ (_ :: _) |- _ =>
             let S := fresh "S" in
             apply Forall_cons in X as [S X];
             pose proof (proj2 (proj2 (csv_stable_inv _ S)))
         end.
  repeat match goal with
         | X : trim ?t = ?t |- _ => rewrite X; clear X
         end.
  rewrite (match_nonempty (Client.name c)) by (now apply stable_is_nonempty).
  change (negb true) with false. cbv iota.
  rewrite (bind_normal _ _ _ _ _ (crypto_randomUUID_run w)).
  rewrite (bind_normal _ _ _ _ _ (importDate_stable _ Hlcd _)).
  rewrite (bind_normal _ _ _ _ _ (importDate_stable _ Hnfd _)).
  rewrite !or_else_stable by assumption.
  rewrite (importTags_join _ S11 Htags).
  unfold reimported. rewrite Er, Ee, Ep, El, Era, En. reflexivity.
Qed.

End RoundTrip.

(** ** The round trip of exportable contacts *)

Lemma after_minting_zero (w : Browser) : after_minting 0 w = w.
Proof. destruct w. reflexivity. Qed.

Lemma after_minting_succ (k : nat) (w : Browser) :
  after_minting k (after_minting 1 w) = after_minting (S k) w.
Proof. unfold after_minting. simpl. f_equal. lia. Qed.

Section RoundTripList.

Variable H : Host.

Lemma importRows_exported (cs : list Client.t) :
  forallb (exportable H) cs = true ->
  forall acc w,
    importRows H exported_hdrs (map (fun c => join "," (csvRow H c)) cs) acc w
      = (Normal (acc ++ reimported_from H (minted w) cs),
         after_minting (length cs) w).
Proof.
  induction cs as [|c cs IH]; intros Hall acc w.
  - simpl. now rewrite app_nil_r, after_minting_zero.
  - simpl in Hall. apply andb_true_iff in Hall as [Hc Hall].
    simpl map. simpl importRows.
    rewrite (bind_normal _ _ _ _ _ (importRow_exported H c acc w Hc)).
    rewrite (IH Hall). rewrite after_minting_succ. simpl.
    now rewrite <- app_assoc.
Qed.

Lemma exported_lines_split (cs : list Client.t) :
  forallb (exportable H) cs = true ->
  splitLines (csvContent H cs) =
    join "," headers :: map (fun c => join "," (csvRow H c)) cs.
Proof.
  intros Hall. unfold csvContent. rewrite map_map.
  apply splitLines_join; [discriminate|].
  constructor; [split; reflexivity|].
  apply Forall_forall. intros l Hin.
  apply list_elem_of_In, in_map_iff in Hin as (c & <- & Hc).
  rewrite forallb_forall in Hall. specialize (Hall c Hc).
  destruct (exportable_inv H c Hall)
    as (role & email & phone & location & rate & notes &
        Er & Ee & Ep & El & Era & En & Hst & _).
  unfold csvRow. rewrite Er, Ee, Ep, El, Era, En.
  match goal with
  | |- context [join "," ?l] =>
      change l with (map (fun t => esc (Some t))
        [Client.name c; Client.company c; role; Client.status c;
         Client.sector c; email; phone; location;
         dateCell H (Client.lastContactDate c);
         dateCell H (Client.nextFollowUpDate c); rate; notes;
         join ", " (Client.tags c)])
  end.
  split.
  - apply row_no_LF. eapply Forall_impl; [exact Hst|].
    intros t Ht. now apply csv_stable_inv in Ht.
  - apply row_last. discriminate.
Qed.

Lemma reimported_from_lookup (cs : list Client.t) :
  forall n i c,
    cs !! i = Some c ->
    reimported_from H n cs !! i
      = Some (reimported H (randomUUID H (n + i)) c).
Proof.
  induction cs as [|c0 cs IH]; intros n i c Hi; [discriminate|].
  destruct i as [|i]; simpl in *.
  - injection Hi as ->. now rewrite Nat.add_0_r.
  - rewrite (IH (S n) i c Hi). do 3 f_equal. lia.
Qed.

Lemma reimported_from_fields (cs : list Client.t) :
  forall n, Forall2 same_business_fields cs (reimported_from H n cs).
Proof.
  induction cs as [|c cs IH]; intros n; constructor; [|apply IH].
  unfold same_business_fields. simpl. repeat split; auto.
Qed.

Lemma reimported_from_fresh (cs : list Client.t) :
  forall n,
    Forall (fun c' => Client.logs c' = [] /\
                      Client.continent c' = NORTH_AMERICA)
           (reimported_from H n cs).
Proof.
  induction cs as [|c cs IH]; intros n; constructor; [split; reflexivity|].
  apply IH.
Qed.

(** C1, as the code has it. For contacts whose thirteen exported cells are
    all stable (each cell text is not made of double quotes only, so not
    empty, holds no line feed and has no white space at its ends; tags are
    non-empty, trimmed and free of commas; both dates are present and
    their exported locale form is read back by the engine as a date),
    importing the export succeeds and yields as many contacts in the same
    order, with name, company, role, status, sector, email, phone,
    location, rate, notes and tags equal to the original's. Ids are the
    ones newly minted by the engine, logs are empty, the continent is
    North America, and each date is the ISO form of the engine's reading
    of the exported locale date. *)
Theorem csv_roundtrip_exportable :
  forall (cs : list Client.t) (w : Browser),
    forallb (exportable H) cs = true ->
    exists cs',
      parseCSV H (csvContent H cs) w
        = (Normal cs', after_minting (length cs) w) /\
      length cs' = length cs /\
      Forall2 same_business_fields cs cs' /\
      Forall (fun c' => Client.logs c' = [] /\
                        Client.continent c' = NORTH_AMERICA) cs' /\
      (forall i c,
         cs !! i = Some c ->
         exists c',
           cs' !! i = Some c' /\
           Client.id c' = randomUUID H (minted w + i) /\
           Client.tags c' = Client.tags c /\
           Client.lastContactDate c' = reread H (Client.lastContactDate c) /\
           Client.nextFollowUpDate c'
             = reread H (Client.nextFollowUpDate c)).
Proof.
  intros cs w Hall.
  exists (reimported_from H (minted w) cs). split; [|split; [|split; [|split]]].
  - unfold parseCSV. rewrite (exported_lines_split cs Hall).
    destruct cs as [|c cs].
    + simpl. now rewrite after_minting_zero.
    + cbn [map].
      change (map (fun h => toLowerCase (trim h))
                  (splitCSVLine (join "," headers)))
        with (readHeaders (join "," headers)).
      rewrite exported_headers.
      apply (importRows_exported (c :: cs) Hall []).
  - generalize (minted w). induction cs as [|c cs IH]; intros n;
      [reflexivity|]. simpl in *. apply andb_true_iff in Hall as [_ Hall].
    now rewrite IH.
  - apply reimported_from_fields.
  - apply reimported_from_fresh.
  - intros i c Hi. exists (reimported H (randomUUID H (minted w + i)) c).
    split; [apply reimported_from_lookup; exact Hi|].
    simpl. auto.
Qed.

End RoundTripList.

(** ** Rows that are passed over, and the company fallback *)

Section ImportRows.

Variable H : Host.

Lemma importRow_skipped hdrs raw clients w :
  skipped hdrs raw = true ->
  importRow H hdrs raw clients w = (Normal clients, w).
Proof.
  unfold skipped, importRow. intros Hs.
  destruct (nonempty (trim raw)); [|reflexivity]. simpl.
  destruct (length (splitCSVLine (trim raw)) <? 2)%nat; [reflexivity|].
  simpl in Hs. apply negb_true_iff in Hs.
  destruct (val hdrs (splitCSVLine (trim raw)) "name") as [[|c n]|];
    [reflexivity|discriminate|reflexivity].
Qed.

Lemma importRows_app hdrs before after clients w :
  importRows H hdrs (before ++ after) clients w =
    match importRows H hdrs before clients w with
    | (Normal cs, w') => importRows H hdrs after cs w'
    | (Throw e, w') => (Throw e, w')
    end.
Proof.
  revert clients w. induction before as [|r before IH]; intros clients w.
  - reflexivity.
  - simpl. unfold bind.
    destruct (importRow H hdrs r clients w) as [[cs'|e] w1]; [|reflexivity].
    apply IH.
Qed.

(** The only exception a row can raise is the [RangeError] of an invalid
    date. *)
Lemma importDate_outcome cell w :
  (exists d, importDate H cell w = (Normal d, w)) \/
  (unreadable_date H cell = true /\
   importDate H cell w = (Throw (RangeError "Invalid time value"), w)).
Proof.
  unfold importDate, unreadable_date.
  destruct cell as [[|c s]|]; [left; eauto| |left; eauto].
  destruct (new_Date H (String c s)); [right; auto|left; eauto].
Qed.

Lemma importRow_outcome hdrs raw clients w :
  (exists cs' w', importRow H hdrs raw clients w = (Normal cs', w')) \/
  (exists w', importRow H hdrs raw clients w
                = (Throw (RangeError "Invalid time value"), w')).
Proof.
  destruct (skipped hdrs raw) eqn:Hs.
  - left. rewrite (importRow_skipped _ _ _ _ Hs). eauto.
  - unfold skipped in Hs. apply orb_false_iff in Hs as [Hlen Hname].
    apply negb_false_iff in Hname. unfold importRow.
    destruct (nonempty (trim raw)); [|left; simpl; eauto]. simpl.
    rewrite Hlen.
    destruct (val hdrs (splitCSVLine (trim raw)) "name") as [[|c n]|];
      try discriminate.
    rewrite (bind_normal _ _ _ _ _ (crypto_randomUUID_run H w)).
    destruct (importDate_outcome
                (val hdrs (splitCSVLine (trim raw)) "last contact")
                (after_minting 1 w)) as [[d1 E1]|[_ E1]].
    + rewrite (bind_normal _ _ _ _ _ E1).
      destruct (importDate_outcome
                  (val hdrs (splitCSVLine (trim raw)) "next follow")
                  (after_minting 1 w)) as [[d2 E2]|[_ E2]].
      * rewrite (bind_normal _ _ _ _ _ E2). left. unfold ret. eauto.
      * rewrite (bind_throw _ _ _ _ _ E2). right. eauto.
    + rewrite (bind_throw _ _ _ _ _ E1). right. eauto.
Qed.

Lemma importRows_outcome hdrs rows :
  forall clients w,
    (exists cs' w', importRows H hdrs rows clients w = (Normal cs', w')) \/
    (exists w', importRows H hdrs rows clients w
                  = (Throw (RangeError "Invalid time value"), w')).
Proof.
  induction rows as [|r rows IH]; intros clients w.
  - left. simpl. unfold ret. eauto.
  - simpl. destruct (importRow_outcome hdrs r clients w)
      as [(cs' & w' & E)|(w' & E)].
    + rewrite (bind_normal _ _ _ _ _ E). apply IH.
    + rewrite (bind_throw _ _ _ _ _ E). right. eauto.
Qed.

Lemma parseCSV_rows text first rows w :
  splitLines text = first :: rows ->
  parseCSV H text w = importRows H (readHeaders first) rows [] w.
Proof.
  intros E. unfold parseCSV. rewrite E. destruct rows; reflexivity.
Qed.

(** ** A date cell that is not a date *)

(** C3, what the code does instead: a row that is not passed over and has
    text under a date header that the engine does not read as a date
    makes [toISOString] throw a [RangeError], which ends the whole import:
    no contact is returned, neither for that row nor for any other. *)
Theorem import_unreadable_date_throws :
  forall (hdrs : list string) (raw : string),
    has_unreadable_date H hdrs raw = true ->
    (forall clients w,
       exists w', importRow H hdrs raw clients w
                    = (Throw (RangeError "Invalid time value"), w')) /\
    (forall text first before after w,
       splitLines text = first :: before ++ raw :: after ->
       hdrs = readHeaders first ->
       exists w', parseCSV H text w
                    = (Throw (RangeError "Invalid time value"), w')).
Proof.
  intros hdrs raw Hbad.
  assert (Hrow : forall clients w,
            exists w', importRow H hdrs raw clients w
                         = (Throw (RangeError "Invalid time value"), w')).
  { intros clients w. unfold has_unreadable_date in Hbad.
    apply andb_true_iff in Hbad as [Hs Hbad]. apply negb_true_iff in Hs.
    unfold skipped in Hs. apply orb_false_iff in Hs as [Hlen Hname].
    apply negb_false_iff in Hname. unfold importRow.
    destruct (nonempty (trim raw)) eqn:Hline.
    2:{ exfalso. destruct (trim raw); [discriminate Hlen|discriminate Hline]. }
    change (negb true) with false. cbv iota. rewrite Hlen.
    destruct (val hdrs (splitCSVLine (trim raw)) "name") as [[|c n]|];
      try discriminate.
    rewrite (bind_normal _ _ _ _ _ (crypto_randomUUID_run H w)).
    destruct (importDate_outcome
                (val hdrs (splitCSVLine (trim raw)) "last contact")
                (after_minting 1 w)) as [[d1 E1]|[_ E1]].
    2:{ rewrite (bind_throw _ _ _ _ _ E1). eauto. }
    rewrite (bind_normal _ _ _ _ _ E1).
    destruct (importDate_outcome
                (val hdrs (splitCSVLine (trim raw)) "next follow")
                (after_minting 1 w)) as [[d2 E2]|[_ E2]].
    2:{ rewrite (bind_throw _ _ _ _ _ E2). eauto. }
    exfalso. apply orb_true_iff in Hbad as [B|B].
    - unfold importDate, unreadable_date in *.
      destruct (val hdrs (splitCSVLine (trim raw)) "last contact")
        as [[|c1 s1]|]; try discriminate.
      destruct (new_Date H (String c1 s1)); discriminate.
    - unfold importDate, unreadable_date in *.
      destruct (val hdrs (splitCSVLine (trim raw)) "next follow")
        as [[|c1 s1]|]; try discriminate.
      destruct (new_Date H (String c1 s1)); discriminate. }
  split; [exact Hrow|].
  intros text first before after w E ->.
  rewrite (parseCSV_rows _ _ _ _ E), importRows_app.
  destruct (importRows_outcome (readHeaders first) before [] w)
    as [(cs & w1 & E1)|(w1 & E1)].
  - rewrite E1. simpl.
    destruct (Hrow cs w1) as [w2 E2].
    rewrite (bind_throw _ _ _ _ _ E2). eauto.
  - rewrite E1. eauto.
Qed.

End ImportRows.

(** ** The blank cell of the export *)

(** C7, what the code does instead on the blank cell of the export. The
    splitter tests for a doubled double quote before it looks at the
    quoting state, so the quoted empty cell (two double quotes, as
    [exportToCSV] writes every blank cell) is read as one double quote.
    On every engine, a row with that cell under the name header is not
    passed over but imported, under the name of one double quote, and a
    row with that cell under the company header gets the company of one
    double quote, not Unknown. Where the blank cells are not quoted, the
    guards do what they are there for: of a one-cell row, a row with
    nothing before the first comma and a row with nothing after it, only
    the last is imported, with the company Unknown. *)
Theorem import_quoted_blank_cells :
  forall (H : Host) (w : Browser),
    cells (esc None +:+ ",Foo") = [str dquote; "Foo"] /\
    (exists c,
       parseCSV H Sample.csv_gaps w = (Normal [c], after_minting 1 w) /\
       Client.name c = "Ana Ruiz" /\ Client.company c = "Unknown") /\
    (exists c,
       parseCSV H Sample.csv_blank_name w = (Normal [c], after_minting 1 w) /\
       Client.name c = str dquote /\ Client.company c = "Foo") /\
    (exists c,
       parseCSV H Sample.csv_blank_company w
         = (Normal [c], after_minting 1 w) /\
       Client.name c = "Ana Ruiz" /\ Client.company c = str dquote).
Proof.
  intros H w. split; [reflexivity|]. split; [|split].
  - eexists. split; [vm_compute; reflexivity|]. split; reflexivity.
  - eexists. split; [vm_compute; reflexivity|]. split; reflexivity.
  - eexists. split; [vm_compute; reflexivity|]. split; reflexivity.
Qed.

(** C7, the statement of the specification fails on those rows. *)
Lemma import_blank_cells_not_as_specified :
  ~ blank_name_as_specified RefHost.host Sample.csv_blank_name
      (RefHost.browser 100) /\
  ~ blank_company_as_specified RefHost.host Sample.csv_blank_company
      (RefHost.browser 100).
Proof.
  split.
  - intros (w' & E). vm_compute in E. discriminate E.
  - intros (c & w' & E & Hc). vm_compute in E. injection E as <- _.
    vm_compute in Hc. discriminate Hc.
Qed.

(* ===================================================================== *)
(** * Further properties of the storage backends *)
(* ===================================================================== *)

Lemma nonempty_app_r (a b : string) :
  nonempty b = true -> nonempty (a +:+ b) = true.
Proof. destruct a; [auto|reflexivity]. Qed.

Lemma ISO_format_nonempty (t : Z) : nonempty (ISO.format t) = true.
Proof.
  unfold ISO.format. destruct (ISO.civil_from_days (t / msPerDay)) as [[y m] d].
  apply nonempty_app_r. reflexivity.
Qed.

Lemma validateData_fixpoint (d : AppData.t) (w : Browser) :
  wellformed_document d = true ->
  validateData (AppData.toJSVal d) w = (Normal d, w).
Proof.
  unfold wellformed_document. intros Hwf.
  apply andb_true_iff in Hwf as [Hwf Hlu]. apply andb_true_iff in Hwf as [Harr Hp].
  unfold AppData.toJSVal. rewrite validateData_wellformed by exact Harr.
  change (lookup_member "clients" _) with (AppData.clients d).
  change (lookup_member "profile" _) with (AppData.profile d).
  change (lookup_member "lastUpdated" _) with (AppData.lastUpdated d).
  rewrite Hlu. destruct d as [c p l]. simpl in *.
  destruct p; simpl in Hp |- *; try discriminate Hp; try rewrite Hp;
    reflexivity.
Qed.

Lemma validateData_result_wellformed raw w doc w' :
  validateData raw w = (Normal doc, w') -> wellformed_document doc = true.
Proof.
  intros E.
  assert (Hz : wellformed_document (zero_document w) = true).
  { unfold wellformed_document, zero_document. simpl.
    apply ISO_format_nonempty. }
  destruct (truthy_val raw) eqn:T.
  - destruct (isArray (member raw "clients")) eqn:A.
    + destruct raw; try discriminate. simpl in A.
      rewrite (validateData_wellformed _ w A) in E. injection E as <- _.
      unfold wellformed_document. simpl. rewrite A. simpl.
      apply andb_true_iff. split.
      * destruct (truthy_val (lookup_member "profile" members)) eqn:P;
          [|reflexivity].
        destruct (lookup_member "profile" members); try discriminate P;
          try reflexivity; exact P.
      * destruct (truthy_val (lookup_member "lastUpdated" members)) eqn:L;
          [exact L|apply ISO_format_nonempty].
    + destruct (validateData_malformed raw w (or_intror A)) as (w1 & E1 & _).
      rewrite E1 in E. injection E as <- _. exact Hz.
  - destruct (validateData_malformed raw w (or_introl T)) as (w1 & E1 & _).
    rewrite E1 in E. injection E as <- _. exact Hz.
Qed.

(** X1. What [validateData] returns is well formed (an array of clients,
    a profile that is null or truthy, a truthy time stamp), and a
    well-formed document is a fixed point: validating it again returns it
    unchanged and logs nothing. *)
Theorem validateData_idempotent :
  forall (raw : JSVal) (w : Browser) (doc : AppData.t) (w' : Browser),
    validateData raw w = (Normal doc, w') ->
    wellformed_document doc = true /\
    forall w2, validateData (AppData.toJSVal doc) w2 = (Normal doc, w2).
Proof.
  intros raw w doc w' E.
  pose proof (validateData_result_wellformed _ _ _ _ E) as Hwf.
  split; [exact Hwf|]. intros w2. now apply validateData_fixpoint.
Qed.

Section StorageRoundTrips.

Variable H : Host.

Lemma setItem_fits k v w :
  (storage_size (<[k := v]> (localStorage w)) <= quota w)%nat ->
  exists w1,
    setItem k v w = (Normal tt, w1) /\
    localStorage w1 = <[k := v]> (localStorage w) /\
    alerts w1 = alerts w /\ console w1 = console w /\ now w1 = now w /\
    files w1 = files w /\ io w1 = io w.
Proof.
  intros Hfit. unfold setItem. apply Nat.leb_le in Hfit. rewrite Hfit.
  eexists. repeat split.
Qed.

(** X2. When the serialized document fits in the store, and the engine
    reads its own serialization of the document back,
    [saveToLocalStorage] stores it without alerting the user and a
    following [loadFromLocalStorage] returns the same well-formed
    document. *)
Theorem local_save_then_load :
  forall (d : AppData.t) (w : Browser),
    JSON_parse H EmptyString = None ->
    JSON_parse H (JSON_stringify H 0 (AppData.toJSVal d))
      = Some (AppData.toJSVal d) ->
    wellformed_document d = true ->
    (storage_size (<[LOCAL_STORAGE_KEY :=
                       JSON_stringify H 0 (AppData.toJSVal d)]>
                     (localStorage w)) <= quota w)%nat ->
    exists w1,
      saveToLocalStorage H d w = (Normal tt, w1) /\
      localStorage w1 !! LOCAL_STORAGE_KEY
        = Some (JSON_stringify H 0 (AppData.toJSVal d)) /\
      alerts w1 = alerts w /\
      loadFromLocalStorage H w1 = (Normal (Some d), w1).
Proof.
  intros d w Hempty Hrt Hwf Hfit.
  destruct (setItem_fits _ _ _ Hfit) as (w1 & E & Hs & Ha & _).
  exists w1. split.
  { unfold saveToLocalStorage, try_catch. now rewrite E. }
  assert (Hget : localStorage w1 !! LOCAL_STORAGE_KEY
                 = Some (JSON_stringify H 0 (AppData.toJSVal d))).
  { rewrite Hs. apply lookup_insert_eq. }
  split; [exact Hget|]. split; [exact Ha|].
  unfold loadFromLocalStorage, try_catch, bind, getItem. rewrite Hget.
  destruct (JSON_stringify H 0 (AppData.toJSVal d)) as [|c text] eqn:Et;
    [congruence|].
  unfold JSON_parse_text. rewrite Hrt. unfold ret.
  now rewrite (validateData_fixpoint d w1 Hwf).
Qed.

Lemma writeText_run h text w :
  first_rejection w h = None ->
  exists w1,
    writeText h text w = (Normal tt, w1) /\
    files w1 = <[h := text]> (files w) /\
    io w1 = io w ++ [FileWritten h text] /\
    showOpenFilePicker w1 = showOpenFilePicker w /\
    localStorage w1 = localStorage w /\ now w1 = now w /\
    alerts w1 = alerts w.
Proof.
  unfold first_rejection, writeText, bind, settle. intros Hok.
  destruct (rejection w h CreateWritable); [discriminate|].
  destruct (rejection w h WriteData); [discriminate|].
  rewrite Hok. eexists. repeat split.
Qed.

Lemma writeText_rejected h text w e :
  first_rejection w h = Some e ->
  writeText h text w = (Throw e, w).
Proof.
  unfold first_rejection, writeText, bind, settle. intros Hno.
  destruct (rejection w h CreateWritable); [congruence|].
  destruct (rejection w h WriteData); [congruence|].
  now rewrite Hno.
Qed.

Lemma openDatabaseFile_reads h text v w :
  showOpenFilePicker w = Some (Normal h) ->
  files w !! h = Some text ->
  JSON_parse H text = Some v ->
  exists doc w1 w2,
    validateData v w1 = (Normal doc, w2) /\
    openDatabaseFile H w = (Normal (doc, h), w2) /\
    files w1 = files w /\ io w1 = io w ++ [OpenPickerShown; FileRead h].
Proof.
  intros Hp Hf Hj.
  set (w1 := mkBrowser (now w) (minted w) (localStorage w) (quota w)
               (console w) (alerts w) (showOpenFilePicker w)
               (showSaveFilePicker w) (files w)
               ((io w ++ [OpenPickerShown]) ++ [FileRead h]) (rejection w)).
  destruct (validateData_returns v w1) as (doc & w2 & V).
  exists doc, w1, w2. split; [exact V|]. split.
  - unfold openDatabaseFile, bind, window. rewrite Hp.
    unfold emit, await, readText, bind, window. simpl. rewrite Hf.
    unfold emit, ret. simpl. unfold JSON_parse_text. rewrite Hj.
    unfold ret. fold w1. now rewrite V.
  - split; [reflexivity|]. simpl. now rewrite <- app_assoc.
Qed.

(** X3. When none of the three calls of the write rejects, the file
    holds the pretty-printed document after [saveDatabaseFile] and
    nothing else is written; if the user then picks that file, and the
    engine reads its own serialization back, [openDatabaseFile] returns
    the saved well-formed document with the same handle. When a call of
    the write rejects, [saveDatabaseFile] rejects with that error and
    the browser, the file included, is as it was. *)
Theorem file_save_then_open :
  forall (h : FileSystemFileHandle) (d : AppData.t) (w : Browser),
    (first_rejection w h = None ->
     showOpenFilePicker w = Some (Normal h) ->
     JSON_parse H (JSON_stringify H 2 (AppData.toJSVal d))
       = Some (AppData.toJSVal d) ->
     wellformed_document d = true ->
     exists w1 w2,
       saveDatabaseFile H h d w = (Normal tt, w1) /\
       files w1 = <[h := JSON_stringify H 2 (AppData.toJSVal d)]> (files w) /\
       openDatabaseFile H w1 = (Normal (d, h), w2) /\
       files w2 = files w1) /\
    (forall e,
       first_rejection w h = Some e ->
       saveDatabaseFile H h d w = (Throw e, w)).
Proof.
  intros h d w. split.
  - intros Hok Hp Hrt Hwf.
    destruct (writeText_run h (JSON_stringify H 2 (AppData.toJSVal d)) w Hok)
      as (w1 & E & Hf & _ & Hp1 & _).
    assert (Hget : files w1 !! h
                   = Some (JSON_stringify H 2 (AppData.toJSVal d))).
    { rewrite Hf. apply lookup_insert_eq. }
    rewrite <- Hp1 in Hp.
    destruct (openDatabaseFile_reads h _ _ w1 Hp Hget Hrt)
      as (doc & wa & w2 & V & O & Hfa & _).
    rewrite (validateData_fixpoint d wa Hwf) in V. injection V as <- <-.
    exists w1, wa. split; [exact E|]. split; [exact Hf|].
    split; [exact O|exact Hfa].
  - intros e Hno. now apply writeText_rejected.
Qed.

(** X4. When the user picks a place and none of the three calls of the
    write rejects, [createDatabaseFile] prompts once, writes the
    pretty-printed seed document (the seed contacts, no profile, stamped
    now) to the chosen file only, and returns that document with the
    handle; reopening the file gives the same document back. When a call
    of the write rejects, [createDatabaseFile] rejects with that error
    after the prompt and no file is changed. *)
Theorem createDatabaseFile_seeds_file :
  forall (seed : list JSVal) (h : FileSystemFileHandle) (w : Browser),
    showSaveFilePicker w = Some (Normal h) ->
    let d := seeded_document seed w in
    let text := JSON_stringify H 2 (AppData.toJSVal d) in
    (first_rejection w h = None ->
     exists w1,
       createDatabaseFile H seed w = (Normal (d, h), w1) /\
       files w1 = <[h := text]> (files w) /\
       (forall h', h' <> h -> files w1 !! h' = files w !! h') /\
       io w1 = io w ++ [SavePickerShown; FileWritten h text] /\
       localStorage w1 = localStorage w /\
       (showOpenFilePicker w = Some (Normal h) ->
        JSON_parse H text = Some (AppData.toJSVal d) ->
        exists w2, openDatabaseFile H w1 = (Normal (d, h), w2))) /\
    (forall e,
       first_rejection w h = Some e ->
       exists w1,
         createDatabaseFile H seed w = (Throw e, w1) /\
         files w1 = files w /\
         io w1 = io w ++ [SavePickerShown] /\
         localStorage w1 = localStorage w).
Proof.
  intros seed h w Hp d text.
  set (w0 := mkBrowser (now w) (minted w) (localStorage w) (quota w)
               (console w) (alerts w) (showOpenFilePicker w)
               (showSaveFilePicker w) (files w)
               (io w ++ [SavePickerShown]) (rejection w)).
  assert (Hrun : createDatabaseFile H seed w
                 = bind (writeText h text) (fun _ => ret (d, h)) w0).
  { unfold createDatabaseFile, bind at 1, window. rewrite Hp.
    unfold emit, await, createNewDatabase, current_time_iso.
    reflexivity. }
  split.
  - intros Hok.
    destruct (writeText_run h text w0 Hok)
      as (w1 & E & Hf & Hio & Hp1 & Hs & _).
    exists w1. split.
    { rewrite Hrun. now rewrite (bind_normal _ _ _ _ _ E). }
    split; [exact Hf|]. split.
    { intros h' Hne. rewrite Hf. now apply lookup_insert_ne. }
    split; [rewrite Hio; simpl; now rewrite <- app_assoc|].
    split; [exact Hs|].
    intros Ho Hrt.
    destruct (openDatabaseFile_reads h text (AppData.toJSVal d) w1)
      as (doc & wa & w2 & V & O & _);
      [rewrite Hp1; exact Ho|rewrite Hf; apply lookup_insert_eq|exact Hrt|].
    assert (Hwf : wellformed_document d = true).
    { unfold wellformed_document, d, seeded_document. simpl.
      apply ISO_format_nonempty. }
    rewrite (validateData_fixpoint d wa Hwf) in V. injection V as <- <-.
    eauto.
  - intros e Hno. exists w0. split.
    { rewrite Hrun.
      now rewrite (bind_throw _ _ _ _ _ (writeText_rejected h text w0 e Hno)). }
    repeat split.
Qed.

(** X5. Failures of the file backend reach the caller and leave the files
    alone: a dismissed picker rejects with the picker's own exception
    right after the prompt, for opening and for creating, and a chosen
    file whose text is not JSON makes [openDatabaseFile] throw a
    [SyntaxError] after the file was read. *)
Theorem file_backend_failures_propagate :
  forall (seed : list JSVal) (w : Browser),
    (forall e, showOpenFilePicker w = Some (Throw e) ->
       exists w',
         openDatabaseFile H w = (Throw e, w') /\
         io w' = io w ++ [OpenPickerShown] /\ files w' = files w) /\
    (forall e, showSaveFilePicker w = Some (Throw e) ->
       exists w',
         createDatabaseFile H seed w = (Throw e, w') /\
         io w' = io w ++ [SavePickerShown] /\ files w' = files w) /\
    (forall h text,
       showOpenFilePicker w = Some (Normal h) ->
       files w !! h = Some text ->
       JSON_parse H text = None ->
       exists w',
         openDatabaseFile H w
           = (Throw (SyntaxError "Unexpected token in JSON"), w') /\
         io w' = io w ++ [OpenPickerShown; FileRead h] /\
         files w' = files w).
Proof.
  intros seed w. split; [|split].
  - intros e Hp. eexists. split.
    { unfold openDatabaseFile, bind, window. rewrite Hp. reflexivity. }
    split; reflexivity.
  - intros e Hp. eexists. split.
    { unfold createDatabaseFile, bind, window. rewrite Hp. reflexivity. }
    split; reflexivity.
  - intros h text Hp Hf Hj. eexists. split.
    { unfold openDatabaseFile, bind, window. rewrite Hp.
      unfold emit, await, readText, bind, window. simpl. rewrite Hf.
      unfold emit, ret. simpl. unfold JSON_parse_text. rewrite Hj.
      reflexivity. }
    simpl. split; [now rewrite <- app_assoc|reflexivity].
Qed.

End StorageRoundTrips.

(* ===================================================================== *)
(** * Further properties of the CSV codec *)
(* ===================================================================== *)

(** ** Quoted fields, whatever they hold *)

Lemma split_field (t : string) :
  forall res cur rest,
    no_quote_head rest = true ->
    splitCSVLine_from (esc (Some t) +:+ rest) res cur false
      = splitCSVLine_from rest res (cur +:+ read_back t) false.
Proof.
  intros res cur rest Hrest. rewrite esc_some. simpl append.
  rewrite sapp_assoc. simpl append. unfold read_back.
  destruct (all_quotes t) eqn:Hq.
  - now apply split_all_quotes.
  - now apply split_quoted.
Qed.

Lemma split_row_any (fs : list string) :
  fs <> [] ->
  forall res,
    splitCSVLine_from (join "," (map (fun t => esc (Some t)) fs))
                      res EmptyString false
      = res ++ map read_back fs.
Proof.
  induction fs as [|t fs IH]; [congruence|]. intros _ res.
  destruct fs as [|t2 fs].
  - rewrite row_single.
    rewrite <- (sapp_nil_r (esc (Some t))).
    rewrite (split_field t res EmptyString EmptyString eq_refl). reflexivity.
  - rewrite row_cons.
    rewrite (split_field t res EmptyString) by reflexivity.
    rewrite splitCSVLine_from_step.
    change (Ascii.eqb comma dquote) with false.
    change (Ascii.eqb comma comma && negb false) with true. cbv iota.
    rewrite IH by congruence. simpl map. now rewrite <- app_assoc.
Qed.

Lemma esc_default (o : option string) :
  esc o = esc (Some (default EmptyString o)).
Proof. destruct o as [[|c s]|]; reflexivity. Qed.

Lemma csvRow_cells (H : Host) (c : Client.t) :
  csvRow H c = map (fun t => esc (Some t)) (cellTexts H c).
Proof.
  unfold csvRow, cellTexts. cbn [map].
  now rewrite !(esc_default (Client.role c)), !(esc_default (Client.email c)),
    !(esc_default (Client.phone c)), !(esc_default (Client.location c)),
    !(esc_default (Client.rate c)), !(esc_default (Client.notes c)).
Qed.

(** X6. Whatever a client's fields hold (commas, double quotes, nothing),
    its exported row is not changed by trimming and splits back into
    exactly thirteen fields; a field whose text is not made of double
    quotes only comes back as that text, and any other (the empty field
    among them) comes back with one double quote more. *)
Theorem exported_row_splits_into_cells :
  forall (H : Host) (c : Client.t),
    let row := join "," (csvRow H c) in
    trim row = row /\
    splitCSVLine row = map read_back (cellTexts H c) /\
    length (splitCSVLine row) = 13%nat /\
    (forall i t, cellTexts H c !! i = Some t ->
       splitCSVLine row !! i
         = Some (if all_quotes t then String dquote t else t)).
Proof.
  intros H c row. subst row. rewrite csvRow_cells.
  assert (Hne : cellTexts H c <> []) by discriminate.
  assert (Hsplit : splitCSVLine (join "," (map (fun t => esc (Some t))
                                              (cellTexts H c)))
                   = map read_back (cellTexts H c)).
  { unfold splitCSVLine. now rewrite (split_row_any _ Hne). }
  split; [now apply row_trim|]. split; [exact Hsplit|].
  rewrite Hsplit. split; [reflexivity|].
  intros i t Hi. rewrite list_lookup_fmap, Hi. reflexivity.
Qed.

(** ** Texts that import nothing *)

Lemma splitLines_one_line (s : string) :
  has_char LF s = false -> splitLines s = [s].
Proof.
  induction s as [|c s IH]; [reflexivity|].
  intros Hlf. simpl in Hlf. apply orb_false_iff in Hlf as [Hc Hs].
  rewrite splitLines_step, Hc, (IH Hs). cbv zeta.
  destruct (Ascii.eqb c CR); [|reflexivity].
  destruct s as [|c2 s]; [reflexivity|].
  simpl in Hs. apply orb_false_iff in Hs as [Hc2 _]. now rewrite Hc2.
Qed.

Lemma findIndex_none {A} (p : A -> bool) (l : list A) :
  Forall (fun x => p x = false) l -> findIndex p l = -1.
Proof.
  induction 1 as [|x l Hx _ IH]; [reflexivity|].
  simpl. now rewrite Hx, IH.
Qed.

Lemma findIndex_nonneg_or_none {A} (p : A -> bool) (l : list A) :
  findIndex p l = -1 \/ 0 <= findIndex p l.
Proof.
  induction l as [|x l IH]; [now left|]. simpl.
  destruct (p x); [right; lia|].
  destruct (findIndex p l <? 0) eqn:E; [now left|].
  apply Z.ltb_ge in E. right. lia.
Qed.

Lemma findIndex_first {A} (p : A -> bool) (before : list A) (x : A)
  (after : list A) :
  Forall (fun y => p y = false) before -> p x = true ->
  findIndex p (before ++ x :: after) = Z.of_nat (length before).
Proof.
  induction 1 as [|y l Hy _ IH]; intros Hx.
  - simpl. now rewrite Hx.
  - cbn [app findIndex length]. rewrite Hy, (IH Hx).
    destruct (Z.of_nat (length l) <? 0) eqn:E.
    + apply Z.ltb_lt in E. lia.
    + lia.
Qed.

(** X7. Column resolution is by the first header, from the left, that
    contains the keyword: the cell under it is returned trimmed
    (undefined when the row is too short for it); when no header contains
    the keyword the result is the empty string. *)
Theorem val_first_matching_header :
  forall (keyPart : string) (values : list string),
    (forall before h after,
       Forall (fun x => includes x keyPart = false) before ->
       includes h keyPart = true ->
       val (before ++ h :: after) values keyPart
         = option_map trim (values !! length before)) /\
    (forall hdrs,
       Forall (fun x => includes x keyPart = false) hdrs ->
       val hdrs values keyPart = Some EmptyString).
Proof.
  intros keyPart values. split.
  - intros before h after Hb Hh. unfold val.
    rewrite (findIndex_first (fun x => includes x keyPart) before h after Hb Hh).
    replace (Z.of_nat (length before) >? -1) with true
      by (symmetry; apply Z.gtb_lt; lia).
    now rewrite Nat2Z.id.
  - intros hdrs Hn. unfold val.
    now rewrite (findIndex_none (fun x => includes x keyPart) hdrs Hn).
Qed.

Section ImportNothing.

Variable H : Host.

Lemma importRows_all_skipped hdrs rows :
  Forall (fun raw => skipped hdrs raw = true) rows ->
  forall acc w, importRows H hdrs rows acc w = (Normal acc, w).
Proof.
  induction 1 as [|raw rows Hs _ IH]; intros acc w; [reflexivity|].
  simpl. rewrite (bind_normal _ _ _ _ _ (importRow_skipped H _ _ acc w Hs)).
  apply IH.
Qed.

(** X8. A text without a line feed (the empty text, a lone header line)
    imports no contact, raises nothing and mints no id; and so does any
    text whose header line has no header containing the word name,
    however many rows follow and whatever they hold. *)
Theorem parseCSV_imports_nothing :
  forall (text : string) (w : Browser),
    (has_char LF text = false -> parseCSV H text w = (Normal [], w)) /\
    (Forall (fun h => includes h "name" = false)
            (readHeaders (hd EmptyString (splitLines text))) ->
     parseCSV H text w = (Normal [], w)).
Proof.
  intros text w. split.
  - intros Hlf. unfold parseCSV. now rewrite (splitLines_one_line _ Hlf).
  - intros Hno. destruct (splitLines text) as [|first rows] eqn:E.
    { unfold parseCSV. now rewrite E. }
    rewrite (parseCSV_rows H _ _ _ w E). simpl in Hno.
    apply importRows_all_skipped. apply Forall_forall. intros raw _.
    unfold skipped, val.
    rewrite (findIndex_none (fun h => includes h "name") _ Hno).
    apply orb_true_r.
Qed.

End ImportNothing.

(** ** What every imported contact looks like *)

Lemma trimStart_head (s : string) :
  trimStart s = EmptyString \/
  exists c r, trimStart s = String c r /\ is_white_space c = false.
Proof.
  induction s as [|c s IH]; [now left|]. simpl.
  destruct (is_white_space c) eqn:E; [exact IH|]. right. eauto.
Qed.

Lemma trimEnd_last (s : string) :
  trimEnd s = EmptyString \/ last_nonspace (trimEnd s) = true.
Proof.
  induction s as [|c s IH]; [now left|]. simpl.
  destruct (trimEnd s) as [|a t] eqn:E.
  - destruct (is_white_space c) eqn:W; [now left|].
    right. simpl. now rewrite W.
  - right. destruct IH as [IH|IH]; [discriminate|]. exact IH.
Qed.

Lemma trimEnd_keeps_head (c : ascii) (s : string) :
  is_white_space c = false -> exists r, trimEnd (String c s) = String c r.
Proof.
  intros W. simpl. destruct (trimEnd s); [rewrite W|]; eauto.
Qed.

(** Trimming twice is trimming once. *)
Lemma trim_idempotent (s : string) : trim (trim s) = trim s.
Proof.
  unfold trim at 2 3.
  destruct (trimStart_head s) as [E|(c & r & E & W)]; rewrite E.
  - reflexivity.
  - destruct (trimEnd_keeps_head c r W) as [r' E'].
    destruct (trimEnd_last (String c r)) as [L|L]; [congruence|].
    rewrite E' in *. now apply trim_id.
Qed.

Lemma has_char_trimStart c (s : string) :
  has_char c s = false -> has_char c (trimStart s) = false.
Proof.
  induction s as [|a s IH]; [reflexivity|]. intros E. simpl.
  destruct (is_white_space a); [|exact E].
  simpl in E. apply orb_false_iff in E as [_ E]. now apply IH.
Qed.

Lemma has_char_trimEnd c (s : string) :
  has_char c s = false -> has_char c (trimEnd s) = false.
Proof.
  induction s as [|a s IH]; [reflexivity|]. intros E. simpl in E |- *.
  apply orb_false_iff in E as [Ea Es]. specialize (IH Es).
  destruct (trimEnd s) as [|b t].
  - destruct (is_white_space a); [reflexivity|]. simpl. now rewrite Ea.
  - simpl. rewrite Ea. exact IH.
Qed.

Lemma has_char_trim c (s : string) :
  has_char c s = false -> has_char c (trim s) = false.
Proof.
  intros E. unfold trim. now apply has_char_trimEnd, has_char_trimStart.
Qed.

Lemma split_pieces (sep : ascii) (s : string) :
  Forall (fun p => has_char sep p = false) (split sep s).
Proof.
  induction s as [|c s IH]; [repeat constructor|]. simpl.
  destruct (Ascii.eqb c sep) eqn:E; [constructor; [reflexivity|exact IH]|].
  destruct (split sep s) as [|w ws]; [repeat constructor; simpl; now rewrite E|].
  inversion IH as [|? ? Hw Hws]; subst.
  constructor; [simpl; now rewrite E|exact Hws].
Qed.

Lemma val_trimmed hdrs values keyPart s :
  val hdrs values keyPart = Some s -> trim s = s.
Proof.
  unfold val. destruct (findIndex _ hdrs >? -1).
  - destruct (values !! _) as [x|]; [|discriminate].
    simpl. intros E. injection E as <-. apply trim_idempotent.
  - intros E. injection E as <-. reflexivity.
Qed.

Lemma importTags_shape (cell : option string) :
  Forall (fun t => t <> EmptyString /\ trim t = t /\ has_char comma t = false)
         (importTags cell).
Proof.
  unfold importTags. destruct cell as [[|c s]|]; try constructor.
  apply Forall_forall. intros t Hin.
  apply list_elem_of_In, filter_In in Hin as [Hin Hne].
  apply in_map_iff in Hin as (p & <- & Hp).
  split; [intros E; rewrite E in Hne; discriminate|].
  split; [apply trim_idempotent|].
  apply has_char_trim.
  pose proof (split_pieces comma (String c s)) as Hall.
  rewrite Forall_forall in Hall. apply Hall. now apply list_elem_of_In.
Qed.

Lemma or_else_nonempty (cell : option string) (fallback : string) :
  fallback <> EmptyString -> or_else cell fallback <> EmptyString.
Proof. destruct cell as [[|c s]|]; simpl; congruence. Qed.

Section ImportedContacts.

Variable H : Host.

Lemma importDate_iso cell w d w' :
  importDate H cell w = (Normal d, w') -> iso_or_absent d /\ w' = w.
Proof.
  unfold importDate, iso_or_absent.
  destruct cell as [[|c s]|]; try (intros E; injection E as <- <-; auto).
  destruct (new_Date H (String c s)) as [|t]; simpl.
  - discriminate.
  - unfold bind, ret. simpl. intros E. injection E as <- <-. eauto.
Qed.

(** A turn of the loop that returns either passes the row over, or
    appends one contact of the imported shape with the next id. *)
Lemma importRow_normal hdrs raw acc w cs' w' :
  importRow H hdrs raw acc w = (Normal cs', w') ->
  (cs' = acc /\ w' = w) \/
  (exists c, cs' = acc ++ [c] /\ w' = after_minting 1 w /\
             Client.id c = randomUUID H (minted w) /\ imported_shape c).
Proof.
  intros E0. destruct (skipped hdrs raw) eqn:Hs.
  { rewrite (importRow_skipped H _ _ _ _ Hs) in E0.
    injection E0 as <- <-. now left. }
  right. revert E0. unfold skipped in Hs.
  apply orb_false_iff in Hs as [Hlen Hname].
  apply negb_false_iff in Hname. unfold importRow.
  destruct (nonempty (trim raw)) eqn:Hline.
  2:{ exfalso. destruct (trim raw); [discriminate Hlen|discriminate Hline]. }
  change (negb true) with false. cbv iota. rewrite Hlen.
  destruct (val hdrs (splitCSVLine (trim raw)) "name") as [[|c n]|] eqn:Vn;
    try discriminate.
  rewrite (bind_normal _ _ _ _ _ (crypto_randomUUID_run H w)).
  unfold bind at 1.
  destruct (importDate H (val hdrs (splitCSVLine (trim raw)) "last contact")
              (after_minting 1 w)) as [[d1|e1] w1] eqn:E1; [|discriminate].
  apply importDate_iso in E1 as [I1 ->].
  unfold bind at 1.
  destruct (importDate H (val hdrs (splitCSVLine (trim raw)) "next follow")
              (after_minting 1 w)) as [[d2|e2] w2] eqn:E2; [|discriminate].
  apply importDate_iso in E2 as [I2 ->].
  unfold ret. intros E. injection E as <- <-.
  eexists. split; [reflexivity|]. split; [reflexivity|].
  split; [reflexivity|]. unfold imported_shape. simpl.
  split; [discriminate|]. split; [exact (val_trimmed _ _ _ _ Vn)|].
  split; [now apply or_else_nonempty|].
  split; [now apply or_else_nonempty|].
  split; [now apply or_else_nonempty|].
  repeat (split; [reflexivity|]).
  split; [exact I1|]. split; [exact I2|]. apply importTags_shape.
Qed.

Lemma importRows_normal hdrs rows :
  forall acc w cs w',
    importRows H hdrs rows acc w = (Normal cs, w') ->
    exists new,
      cs = acc ++ new /\ w' = after_minting (length new) w /\
      (length new <= length rows)%nat /\
      map Client.id new
        = map (randomUUID H) (seq (minted w) (length new)) /\
      Forall imported_shape new.
Proof.
  induction rows as [|raw rows IH]; intros acc w cs w' E.
  - simpl in E. injection E as <- <-. exists [].
    rewrite app_nil_r, after_minting_zero. repeat split; auto.
  - simpl in E. unfold bind in E.
    destruct (importRow H hdrs raw acc w) as [[cs1|e] w1] eqn:E1;
      [|discriminate].
    apply importRow_normal in E1 as [[-> ->]|(c & -> & -> & Hid & Hc)].
    + destruct (IH _ _ _ _ E) as (new & -> & -> & Hlen & Hids & Hall).
      exists new. repeat split; auto. simpl. lia.
    + destruct (IH _ _ _ _ E) as (new & -> & -> & Hlen & Hids & Hall).
      exists (c :: new). split; [now rewrite <- app_assoc|].
      split; [simpl; now rewrite after_minting_succ|].
      split; [simpl; lia|]. split; [|now constructor].
      simpl. rewrite Hid. f_equal. exact Hids.
Qed.

(** X9. Every contact a successful import returns has a non-empty,
    trimmed name, a non-empty company, status and sector, the continent
    North America, no logs, no status time stamp, coordinates or website,
    dates that are absent or in ISO form, and tags that are non-empty,
    trimmed and free of commas. *)
Theorem parseCSV_contacts_shape :
  forall (text : string) (w : Browser) (cs : list Client.t) (w' : Browser),
    parseCSV H text w = (Normal cs, w') ->
    Forall imported_shape cs.
Proof.
  intros text w cs w' E. unfold parseCSV in E.
  destruct (splitLines text) as [|first [|r rows]];
    try (injection E as <- _; constructor).
  apply importRows_normal in E as (new & -> & _ & _ & _ & Hall).
  exact Hall.
Qed.

(** X10. A successful import mints exactly one id per returned contact
    and nothing else changes in the browser; the contacts carry, in
    order, the ids the engine minted one after the other; and there are
    at most as many contacts as lines after the header. *)
Theorem parseCSV_mints_one_id_per_contact :
  forall (text : string) (w : Browser) (cs : list Client.t) (w' : Browser),
    parseCSV H text w = (Normal cs, w') ->
    w' = after_minting (length cs) w /\
    map Client.id cs = map (randomUUID H) (seq (minted w) (length cs)) /\
    (length cs <= length (splitLines text) - 1)%nat.
Proof.
  intros text w cs w' E. unfold parseCSV in E.
  destruct (splitLines text) as [|first [|r rows]].
  - injection E as <- <-. rewrite after_minting_zero. repeat split. simpl. lia.
  - injection E as <- <-. rewrite after_minting_zero. repeat split. simpl. lia.
  - apply importRows_normal in E as (new & -> & -> & Hlen & Hids & _).
    simpl app. split; [reflexivity|]. split; [exact Hids|].
    simpl length in *. lia.
Qed.

End ImportedContacts.

(** ** Line endings *)

Lemma splitLines_LF_cons (l rest : string) :
  has_char LF l = false -> ends_with_CR l = false ->
  splitLines (l +:+ String LF rest) = l :: splitLines rest.
Proof.
  induction l as [|c l IH]; intros Hlf Hcr.
  - simpl append. rewrite splitLines_step.
    change (Ascii.eqb LF LF) with true. reflexivity.
  - simpl in Hlf. apply orb_false_iff in Hlf as [Hc Hl].
    simpl append. rewrite splitLines_step, Hc. cbv zeta.
    destruct l as [|c' l].
    + simpl in Hcr. pose proof (IH eq_refl eq_refl) as IH0.
      simpl append in IH0 |- *. rewrite IH0, Hcr. reflexivity.
    + rewrite (IH Hl Hcr).
      simpl in Hl. apply orb_false_iff in Hl as [Hc' _].
      simpl append. cbv beta iota. rewrite Hc'.
      now destruct (Ascii.eqb c CR).
Qed.

Lemma splitLines_CRLF_cons (l rest : string) :
  has_char LF l = false ->
  splitLines (l +:+ String CR (String LF rest)) = l :: splitLines rest.
Proof.
  induction l as [|c l IH]; intros Hlf.
  - simpl append. rewrite splitLines_step.
    change (Ascii.eqb CR LF) with false. change (Ascii.eqb CR CR) with true.
    change (Ascii.eqb LF LF) with true. reflexivity.
  - simpl in Hlf. apply orb_false_iff in Hlf as [Hc Hl].
    simpl append. rewrite splitLines_step, Hc, (IH Hl). cbv zeta.
    destruct (Ascii.eqb c CR); [|reflexivity].
    destruct l as [|c' l]; simpl append; cbv beta iota.
    + change (Ascii.eqb CR LF) with false. reflexivity.
    + simpl in Hl. apply orb_false_iff in Hl as [Hc' _]. now rewrite Hc'.
Qed.

Lemma splitLines_join_LF (ls : list string) :
  ls <> [] ->
  Forall (fun l => has_char LF l = false /\ ends_with_CR l = false) ls ->
  splitLines (join (str LF) ls) = ls.
Proof.
  induction ls as [|l ls IH]; [congruence|].
  intros _ Hall. inversion Hall as [|? ? [Hlf Hcr] Hrest]; subst.
  destruct ls as [|l2 ls].
  - simpl. now apply splitLines_one_line.
  - change (join (str LF) (l :: l2 :: ls))
      with (l +:+ String LF (join (str LF) (l2 :: ls))).
    rewrite (splitLines_LF_cons _ _ Hlf Hcr), IH;
      [reflexivity|congruence|exact Hrest].
Qed.

Lemma splitLines_join_CRLF (ls : list string) :
  ls <> [] ->
  Forall (fun l => has_char LF l = false) ls ->
  splitLines (join CRLF ls) = ls.
Proof.
  induction ls as [|l ls IH]; [congruence|].
  intros _ Hall. inversion Hall as [|? ? Hlf Hrest]; subst.
  destruct ls as [|l2 ls].
  - simpl. now apply splitLines_one_line.
  - change (join CRLF (l :: l2 :: ls))
      with (l +:+ String CR (String LF (join CRLF (l2 :: ls)))).
    rewrite (splitLines_CRLF_cons _ _ Hlf), IH;
      [reflexivity|congruence|exact Hrest].
Qed.

(** X11. Lines joined by carriage return and line feed are split into
    the same lines as when joined by line feeds alone, so a CSV text
    imports the same with either line ending (for lines that hold no line
    feed and do not end in a carriage return). *)
Theorem parseCSV_line_endings :
  forall (H : Host) (ls : list string) (w : Browser),
    Forall (fun l => has_char LF l = false /\ ends_with_CR l = false) ls ->
    (ls <> [] -> splitLines (join CRLF ls) = ls) /\
    parseCSV H (join CRLF ls) w = parseCSV H (join (str LF) ls) w.
Proof.
  intros H ls w Hall.
  assert (Hlf : Forall (fun l => has_char LF l = false) ls).
  { eapply Forall_impl; [exact Hall|]. now intros l [E _]. }
  split; [intros Hne; now apply splitLines_join_CRLF|].
  destruct ls as [|l ls]; [reflexivity|].
  unfold parseCSV.
  rewrite (splitLines_join_CRLF (l :: ls)) by (congruence || exact Hlf).
  now rewrite (splitLines_join_LF (l :: ls)) by (congruence || exact Hall).
Qed.

(* ===================================================================== *)
(** * Further properties of the application state *)
(* ===================================================================== *)

Lemma replace_keeps_ids (c : Client.t) (l : list Client.t) :
  map Client.id
      (map (fun x => if String.eqb (Client.id x) (Client.id c) then c else x) l)
    = map Client.id l.
Proof.
  rewrite map_map. apply map_ext. intros x.
  destruct (String.eqb_spec (Client.id x) (Client.id c)) as [E|E]; congruence.
Qed.

Lemma replace_fixes_others (c : Client.t) (l : list Client.t) :
  (forall x, In x l -> Client.id x <> Client.id c) ->
  map (fun x => if String.eqb (Client.id x) (Client.id c) then c else x) l = l.
Proof.
  induction l as [|a l IH]; intros Hne; [reflexivity|]. simpl.
  destruct (String.eqb_spec (Client.id a) (Client.id c)) as [E|E].
  - exfalso. apply (Hne a); [now left|exact E].
  - f_equal. apply IH. intros x Hx. apply Hne. now right.
Qed.

Lemma find_id_app (c : Client.t) (l : list Client.t) :
  exists y,
    find (fun x => String.eqb (Client.id x) (Client.id c)) (l ++ [c]) = Some y.
Proof.
  induction l as [|a l IH]; simpl.
  - rewrite String.eqb_refl. eauto.
  - destruct (String.eqb (Client.id a) (Client.id c)); eauto.
Qed.

(** X12. Saving a client keeps the ids of the list pairwise distinct when
    they were, puts the saved client in the list, and leaves in the list
    only the saved client and clients that were there before. *)
Theorem updatedClients_keeps_ids_distinct :
  forall (l : list Client.t) (c : Client.t),
    NoDup (map Client.id l) ->
    NoDup (map Client.id (updatedClients l c)) /\
    In c (updatedClients l c) /\
    (forall x, In x (updatedClients l c) -> x = c \/ In x l).
Proof.
  intros l c ND. unfold updatedClients.
  destruct (find _ l) as [y|] eqn:F.
  - split; [now rewrite replace_keeps_ids|].
    apply find_some in F as [Hin Hid]. apply String.eqb_eq in Hid.
    split.
    + apply in_map_iff. exists y. rewrite Hid, String.eqb_refl. auto.
    + intros x Hx. apply in_map_iff in Hx as (z & <- & Hz).
      destruct (String.eqb (Client.id z) (Client.id c)); auto.
  - split; [|split].
    + rewrite map_app. simpl. apply NoDup_app. split; [exact ND|].
      split; [|apply NoDup_singleton].
      intros i Hi Hc. apply list_elem_of_In in Hi, Hc.
      destruct Hc as [<-|[]]. apply in_map_iff in Hi as (x & Hid & Hx).
      exact (find_none_map c l F x Hx Hid).
    + apply in_or_app. right. now left.
    + intros x Hx. apply in_app_or in Hx as [Hx|[<-|[]]]; auto.
Qed.

Lemma updatedClients_idempotent (l : list Client.t) (c : Client.t) :
  updatedClients (updatedClients l c) c = updatedClients l c.
Proof.
  unfold updatedClients at 2 3.
  destruct (find _ l) as [y|] eqn:F.
  - unfold updatedClients.
    apply find_some in F as [Hin Hid].
    destruct (find _ (map _ l)) as [z|] eqn:F2.
    + rewrite map_map. apply map_ext. intros x.
      destruct (String.eqb (Client.id x) (Client.id c)) eqn:E;
        [now rewrite String.eqb_refl|now rewrite E].
    + exfalso.
      assert (Hc : In c (map (fun x => if String.eqb (Client.id x) (Client.id c)
                                       then c else x) l)).
      { apply in_map_iff. exists y. now rewrite Hid. }
      pose proof (find_none _ _ F2 c Hc) as Hx. simpl in Hx.
      rewrite String.eqb_refl in Hx. discriminate Hx.
  - unfold updatedClients. destruct (find_id_app c l) as [y ->].
    rewrite map_app. simpl. rewrite String.eqb_refl.
    now rewrite (replace_fixes_others c l (find_none_map c l F)).
Qed.

Section AppStateProperties.

Variable H : Host.

Lemma handleSaveClient_run c st w :
  exists w',
    handleSaveClient H c st w
      = (Normal (mkAppState (fileHandle st) (storageMode st) false
                            (updatedClients (clients st) c)
                            (userProfile st) None), w').
Proof.
  destruct (saveData_returns H st (updatedClients (clients st) c)
              (userProfile st) w) as [w' E].
  exists w'. unfold handleSaveClient.
  now rewrite (bind_normal _ _ _ _ _ E).
Qed.

(** X13. Saving the same client a second time changes nothing in the
    list: [handleSaveClient] is idempotent on the clients. *)
Theorem handleSaveClient_twice :
  forall (c : Client.t) (st : AppState) (w : Browser),
    exists st1 w1 st2 w2,
      handleSaveClient H c st w = (Normal st1, w1) /\
      handleSaveClient H c st1 w1 = (Normal st2, w2) /\
      clients st2 = clients st1.
Proof.
  intros c st w.
  destruct (handleSaveClient_run c st w) as [w1 E1].
  destruct (handleSaveClient_run c
              (mkAppState (fileHandle st) (storageMode st) false
                 (updatedClients (clients st) c) (userProfile st) None) w1)
    as [w2 E2].
  eexists _, w1, _, w2. split; [exact E1|]. split; [exact E2|].
  simpl. apply updatedClients_idempotent.
Qed.

Lemma handleDeleteClient_run id st w :
  exists w',
    handleDeleteClient H true id st w
      = (Normal (mkAppState (fileHandle st) (storageMode st) false
                   (List.filter (fun c => negb (String.eqb (Client.id c) id))
                                (clients st))
                   (userProfile st) (selectedClient st)), w').
Proof.
  destruct (saveData_returns H st
              (List.filter (fun c => negb (String.eqb (Client.id c) id))
                           (clients st))
              (userProfile st) w) as [w' E].
  exists w'. unfold handleDeleteClient.
  now rewrite (bind_normal _ _ _ _ _ E).
Qed.

Lemma filter_other_ids (id : string) (l : list Client.t) :
  (forall x, In x l -> Client.id x <> id) ->
  List.filter (fun c => negb (String.eqb (Client.id c) id)) l = l.
Proof.
  induction l as [|a l IH]; intros Hne; [reflexivity|]. simpl.
  destruct (String.eqb_spec (Client.id a) id) as [E|E].
  - exfalso. apply (Hne a); [now left|exact E].
  - simpl. f_equal. apply IH. intros x Hx. apply Hne. now right.
Qed.

(** X14. [handleDeleteClient] does nothing at all when the user declines
    the confirmation. When the user confirms it always completes, and the
    clients left are exactly those with another id, in their old order:
    none with the deleted id remains, ids stay pairwise distinct, and
    deleting an id that no client has leaves the list as it was. *)
Theorem handleDeleteClient_removes_id :
  forall (id : string) (st : AppState) (w : Browser),
    handleDeleteClient H false id st w = (Normal st, w) /\
    exists st' w',
      handleDeleteClient H true id st w = (Normal st', w') /\
      (forall x, In x (clients st') <->
                 In x (clients st) /\ Client.id x <> id) /\
      sublist (clients st') (clients st) /\
      (NoDup (map Client.id (clients st)) ->
       NoDup (map Client.id (clients st'))) /\
      ((forall x, In x (clients st) -> Client.id x <> id) ->
       clients st' = clients st).
Proof.
  intros id st w. split; [reflexivity|].
  destruct (handleDeleteClient_run id st w) as [w' E].
  eexists _, w'. split; [exact E|]. clear E. simpl.
  split; [|split; [|split]].
  - intros x. rewrite filter_In. split; intros [Hin Hid]; split; auto.
    + intros Eq. rewrite Eq, String.eqb_refl in Hid. discriminate.
    + apply negb_true_iff. now apply String.eqb_neq.
  - induction (clients st) as [|a l IH]; [constructor|]. simpl.
    destruct (negb (String.eqb (Client.id a) id));
      [now apply sublist_skip|now apply sublist_cons].
  - intros ND. induction (clients st) as [|a l IH]; [exact ND|].
    simpl in ND |- *. apply NoDup_cons in ND as [Hnotin ND].
    destruct (negb (String.eqb (Client.id a) id)); [|now apply IH].
    simpl. apply NoDup_cons. split; [|now apply IH].
    intros Hin. apply Hnotin.
    apply list_elem_of_In, in_map_iff in Hin as (x & Hx & Hin).
    apply filter_In in Hin as [Hin _].
    apply list_elem_of_In, in_map_iff. eauto.
  - apply filter_other_ids.
Qed.

(** X15. Adding a client whose id no client has, and then deleting that
    id, gives back the list of clients as it was. *)
Theorem add_then_delete_restores :
  forall (c : Client.t) (st : AppState) (w : Browser),
    (forall x, In x (clients st) -> Client.id x <> Client.id c) ->
    exists st1 w1 st2 w2,
      handleSaveClient H c st w = (Normal st1, w1) /\
      clients st1 = clients st ++ [c] /\
      handleDeleteClient H true (Client.id c) st1 w1 = (Normal st2, w2) /\
      clients st2 = clients st.
Proof.
  intros c st w Hfresh.
  destruct (handleSaveClient_run c st w) as [w1 E1].
  destruct (handleDeleteClient_run (Client.id c)
              (mkAppState (fileHandle st) (storageMode st) false
                 (updatedClients (clients st) c) (userProfile st) None) w1)
    as [w2 E2].
  assert (Hupd : updatedClients (clients st) c = clients st ++ [c]).
  { unfold updatedClients.
    destruct (find _ (clients st)) as [y|] eqn:F; [|reflexivity].
    exfalso. apply find_some in F as [Hin Hid].
    apply String.eqb_eq in Hid. exact (Hfresh y Hin Hid). }
  eexists _, w1, _, w2. split; [exact E1|]. split; [exact Hupd|].
  split; [exact E2|]. simpl. rewrite Hupd, List.filter_app. simpl.
  rewrite String.eqb_refl. simpl.
  now rewrite (filter_other_ids _ _ Hfresh), app_nil_r.
Qed.

Lemma saveData_local st cs p w :
  storageMode st = LOCAL ->
  (storage_size (<[LOCAL_STORAGE_KEY :=
                     JSON_stringify H 0
                       (AppData.toJSVal (saved_document H cs p w))]>
                   (localStorage w)) <= quota w)%nat ->
  exists w',
    saveData H st cs p w = (Normal tt, w') /\
    localStorage w' = <[LOCAL_STORAGE_KEY :=
                          JSON_stringify H 0
                            (AppData.toJSVal (saved_document H cs p w))]>
                        (localStorage w) /\
    alerts w' = alerts w /\ files w' = files w.
Proof.
  intros Hm Hfit.
  destruct (setItem_fits _ _ _ Hfit) as (w' & E & Hs & Ha & _ & _ & Hf & _).
  exists w'. split; [|auto].
  unfold saveData, bind, current_time_iso, try_catch. rewrite Hm.
  unfold saveToLocalStorage, try_catch. fold (saved_document H cs p w).
  now rewrite E.
Qed.

Lemma saveData_local_full st cs p w :
  storageMode st = LOCAL ->
  (quota w <
   storage_size (<[LOCAL_STORAGE_KEY :=
                     JSON_stringify H 0
                       (AppData.toJSVal (saved_document H cs p w))]>
                   (localStorage w)))%nat ->
  exists w',
    saveData H st cs p w = (Normal tt, w') /\
    localStorage w' = localStorage w /\
    alerts w' =
      alerts w ++ ["Warning: Local storage full. Some data may not be saved."].
Proof.
  intros Hm Hfull. eexists. split.
  - unfold saveData, bind, current_time_iso, try_catch. rewrite Hm.
    unfold saveToLocalStorage, try_catch, setItem. simpl.
    fold (saved_document H cs p w).
    apply Nat.leb_gt in Hfull. rewrite Hfull.
    unfold bind, console_log, alert. simpl. reflexivity.
  - split; reflexivity.
Qed.

Lemma saveData_file st cs p w handle :
  storageMode st = FILE -> fileHandle st = Some handle ->
  first_rejection w handle = None ->
  exists w',
    saveData H st cs p w = (Normal tt, w') /\
    files w' = <[handle := JSON_stringify H 2
                             (AppData.toJSVal (saved_document H cs p w))]>
                 (files w) /\
    localStorage w' = localStorage w /\ alerts w' = alerts w.
Proof.
  intros Hm Hh Hok.
  destruct (writeText_run handle
              (JSON_stringify H 2 (AppData.toJSVal (saved_document H cs p w)))
              w Hok) as (w' & E & Hf & _ & _ & Hs & _ & Ha).
  exists w'. split; [|auto].
  unfold saveData, bind, current_time_iso, try_catch. rewrite Hm, Hh.
  unfold saveDatabaseFile. fold (saved_document H cs p w). now rewrite E.
Qed.

Lemma saveData_file_rejected st cs p w handle e :
  storageMode st = FILE -> fileHandle st = Some handle ->
  first_rejection w handle = Some e ->
  exists w',
    saveData H st cs p w = (Normal tt, w') /\
    files w' = files w /\ localStorage w' = localStorage w /\
    console w' = console w ++ ["Auto-save failed:"] /\
    alerts w' = alerts w ++ ["Failed to save changes."].
Proof.
  intros Hm Hh Hno. eexists. split.
  - unfold saveData, bind at 1, current_time_iso, try_catch. rewrite Hm, Hh.
    unfold saveDatabaseFile.
    rewrite (writeText_rejected handle _ w e Hno).
    unfold bind, console_log, alert. reflexivity.
  - repeat split.
Qed.

(** X16. What [handleSaveClient] persists: the document whose clients
    are the objects that carry the updated list (each with its members
    in the order the object lists them), with the unchanged profile. In
    local mode, when the serialized document fits, the storage slot
    afterwards holds its compact serialization and the user is not
    alerted. In file mode with a handle, when no call of the write
    rejects, the file holds its pretty-printed serialization; when a
    call rejects, the file is as it was, the list in memory is updated
    all the same, and the user is told that saving failed. In file mode
    without a handle nothing is persisted at all, although the list in
    memory is updated. *)
Theorem handleSaveClient_persists :
  forall (c : Client.t) (st : AppState) (w : Browser),
    let doc := saved_document H (updatedClients (clients st) c)
                              (userProfile st) w in
    (storageMode st = LOCAL ->
     (storage_size (<[LOCAL_STORAGE_KEY :=
                        JSON_stringify H 0 (AppData.toJSVal doc)]>
                      (localStorage w)) <= quota w)%nat ->
     exists st' w',
       handleSaveClient H c st w = (Normal st', w') /\
       localStorage w' !! LOCAL_STORAGE_KEY
         = Some (JSON_stringify H 0 (AppData.toJSVal doc)) /\
       alerts w' = alerts w) /\
    (forall handle,
       storageMode st = FILE -> fileHandle st = Some handle ->
       first_rejection w handle = None ->
       exists st' w',
         handleSaveClient H c st w = (Normal st', w') /\
         files w' !! handle
           = Some (JSON_stringify H 2 (AppData.toJSVal doc)) /\
         localStorage w' = localStorage w /\
         alerts w' = alerts w) /\
    (forall handle e,
       storageMode st = FILE -> fileHandle st = Some handle ->
       first_rejection w handle = Some e ->
       exists st' w',
         handleSaveClient H c st w = (Normal st', w') /\
         clients st' = updatedClients (clients st) c /\
         files w' = files w /\
         localStorage w' = localStorage w /\
         alerts w' = alerts w ++ ["Failed to save changes."]) /\
    (storageMode st = FILE -> fileHandle st = None ->
     exists st',
       handleSaveClient H c st w = (Normal st', w) /\
       clients st' = updatedClients (clients st) c).
Proof.
  intros c st w doc. split; [|split; [|split]].
  - intros Hm Hfit.
    destruct (saveData_local st _ _ w Hm Hfit) as (w' & E & Hs & Ha & _).
    eexists _, w'. split.
    { unfold handleSaveClient. now rewrite (bind_normal _ _ _ _ _ E). }
    split; [|exact Ha]. rewrite Hs. apply lookup_insert_eq.
  - intros handle Hm Hh Hok.
    destruct (saveData_file st (updatedClients (clients st) c)
                (userProfile st) w handle Hm Hh Hok)
      as (w' & E & Hf & Hs & Ha).
    eexists _, w'. split.
    { unfold handleSaveClient. now rewrite (bind_normal _ _ _ _ _ E). }
    split; [rewrite Hf; apply lookup_insert_eq|]. split; [exact Hs|exact Ha].
  - intros handle e Hm Hh Hno.
    destruct (saveData_file_rejected st (updatedClients (clients st) c)
                (userProfile st) w handle e Hm Hh Hno)
      as (w' & E & Hf & Hs & _ & Ha).
    eexists _, w'. split.
    { unfold handleSaveClient. now rewrite (bind_normal _ _ _ _ _ E). }
    split; [reflexivity|]. split; [exact Hf|]. split; [exact Hs|exact Ha].
  - intros Hm Hh. eexists. split.
    { unfold handleSaveClient, saveData, bind, current_time_iso, try_catch.
      rewrite Hm, Hh. unfold ret. reflexivity. }
    reflexivity.
Qed.

(** X17. When the store rejects the write in local mode,
    [handleSaveClient] still completes and updates the list in memory,
    while the storage slot keeps its old content: memory and store then
    differ, and the only notice is the storage warning shown to the
    user. *)
Theorem handleSaveClient_store_full :
  forall (c : Client.t) (st : AppState) (w : Browser),
    storageMode st = LOCAL ->
    (quota w <
     storage_size
       (<[LOCAL_STORAGE_KEY :=
            JSON_stringify H 0
              (AppData.toJSVal
                 (saved_document H (updatedClients (clients st) c)
                                 (userProfile st) w))]>
          (localStorage w)))%nat ->
    exists st' w',
      handleSaveClient H c st w = (Normal st', w') /\
      clients st' = updatedClients (clients st) c /\
      localStorage w' = localStorage w /\
      alerts w' =
        alerts w ++ ["Warning: Local storage full. Some data may not be saved."].
Proof.
  intros c st w Hm Hfull.
  destruct (saveData_local_full st _ _ w Hm Hfull) as (w' & E & Hs & Ha).
  eexists _, w'. split.
  { unfold handleSaveClient. now rewrite (bind_normal _ _ _ _ _ E). }
  auto.
Qed.

End AppStateProperties.

(** ** The client filter *)

Lemma includes_empty (s : string) : includes s EmptyString = true.
Proof. destruct s; reflexivity. Qed.

Lemma filter_all {A} (f : A -> bool) (l : list A) :
  (forall x, f x = true) -> List.filter f l = l.
Proof.
  intros Hf. induction l as [|a l IH]; [reflexivity|].
  simpl. now rewrite Hf, IH.
Qed.

Lemma lower_char_idempotent (c : ascii) :
  lower_char (lower_char c) = lower_char c.
Proof.
  destruct c as [[] [] [] [] [] [] [] []]; reflexivity.
Qed.

Lemma toLowerCase_idempotent (s : string) :
  toLowerCase (toLowerCase s) = toLowerCase s.
Proof.
  induction s as [|c s IH]; [reflexivity|]. simpl.
  now rewrite lower_char_idempotent, IH.
Qed.

(** X18. With an empty search term and both filters on All,
    [filteredClients] shows every client. In general its result is a
    sublist of the clients (same order, nothing added), the search does
    not depend on the letter case of the term, and a sector filter
    other than All lets through only clients of exactly that sector. *)
Theorem filteredClients_properties :
  forall (cs : list Client.t) (term continent sector : string),
    filteredClients cs EmptyString "All" "All" = cs /\
    sublist (filteredClients cs term continent sector) cs /\
    filteredClients cs (toLowerCase term) continent sector
      = filteredClients cs term continent sector /\
    (sector <> "All" ->
     Forall (fun c => Client.sector c = sector)
            (filteredClients cs term continent sector)).
Proof.
  intros cs term continent sector. split; [|split; [|split]].
  - unfold filteredClients. apply filter_all. intros c.
    change (toLowerCase EmptyString) with EmptyString.
    now rewrite includes_empty.
  - unfold filteredClients. induction cs as [|c cs IH]; [constructor|].
    simpl. match goal with |- context [if ?b then _ else _] => destruct b end;
      [now apply sublist_skip|now apply sublist_cons].
  - unfold filteredClients. now rewrite toLowerCase_idempotent.
  - intros Hne. unfold filteredClients. apply Forall_forall. intros c Hin.
    apply list_elem_of_In, filter_In in Hin as [_ Hc].
    apply andb_true_iff in Hc as [_ Hs].
    apply orb_true_iff in Hs as [Hs|Hs]; apply String.eqb_eq in Hs;
      [congruence|exact Hs].
Qed.

(* ===================================================================== *)
(** * Further properties of the edit form *)
(* ===================================================================== *)

Lemma array_includes_In (a : list string) (x : string) :
  array_includes a x = true <-> In x a.
Proof.
  unfold array_includes. rewrite existsb_exists. split.
  - intros (y & Hy & E). apply String.eqb_eq in E. now subst.
  - intros Hx. exists x. split; [exact Hx|apply String.eqb_refl].
Qed.

Lemma NoDup_snoc (l : list string) (x : string) :
  NoDup l -> ~ In x l -> NoDup (l ++ [x]).
Proof.
  intros ND Hx. apply NoDup_app. split; [exact ND|].
  split; [|apply NoDup_singleton].
  intros y Hy Hy'. apply list_elem_of_In in Hy, Hy'.
  destruct Hy' as [<-|[]]. exact (Hx Hy).
Qed.

(** X19. [handleAddTag] acts only on the Enter key with an input that is
    not blank; it then clears the input and makes sure the trimmed input
    is among the tags: a tag that is already there is not added again
    (the form is left as it was), a new one is appended at the end. Tags
    without duplicates stay without duplicates. *)
Theorem handleAddTag_deduplicates :
  forall (key : string) (formData : PartialClient.t) (tagInput : string),
    let after := handleAddTag key formData tagInput in
    (key <> "Enter" \/ trim tagInput = EmptyString ->
     after = (formData, tagInput)) /\
    (key = "Enter" -> trim tagInput <> EmptyString ->
     snd after = EmptyString /\
     In (trim tagInput) (tags_of (fst after)) /\
     (In (trim tagInput) (tags_of formData) -> fst after = formData) /\
     (~ In (trim tagInput) (tags_of formData) ->
      tags_of (fst after) = tags_of formData ++ [trim tagInput]) /\
     (NoDup (tags_of formData) -> NoDup (tags_of (fst after)))).
Proof.
  intros key formData tagInput after. subst after. unfold handleAddTag.
  split.
  - intros [Hk|Ht].
    + apply String.eqb_neq in Hk. now rewrite Hk.
    + rewrite Ht. now rewrite andb_false_r.
  - intros -> Hne. rewrite String.eqb_refl.
    destruct (trim tagInput) as [|c t] eqn:Et; [congruence|].
    change (nonempty (String c t)) with true. cbv iota beta. simpl andb.
    cbv iota. fold (tags_of formData).
    destruct (array_includes (tags_of formData) (String c t)) eqn:Hin; simpl.
    + apply array_includes_In in Hin.
      repeat split; auto. intros Hn. contradiction.
    + assert (Hn : ~ In (String c t) (tags_of formData)).
      { intros Hx. apply array_includes_In in Hx. congruence. }
      split; [reflexivity|]. unfold tags_of at 1 3 4. simpl.
      split; [apply in_or_app; right; now left|].
      split; [intros Hx; contradiction|].
      split; [reflexivity|]. intros ND. now apply NoDup_snoc.
Qed.

Lemma filter_not_in (tag : string) (l : list string) :
  ~ In tag l -> List.filter (fun t => negb (String.eqb t tag)) l = l.
Proof.
  induction l as [|a l IH]; intros Hn; [reflexivity|]. simpl.
  destruct (String.eqb_spec a tag) as [E|E].
  - exfalso. apply Hn. now left.
  - simpl. f_equal. apply IH. intros Hx. apply Hn. now right.
Qed.

(** X20. After [removeTag] the tag is gone and the other tags are kept in
    order (without duplicates if there were none); removing a tag right
    after [handleAddTag] added it as a new one gives the tags back as
    they were. *)
Theorem removeTag_removes :
  forall (tag : string) (formData : PartialClient.t),
    ~ In tag (tags_of (removeTag tag formData)) /\
    (forall t, t <> tag ->
       (In t (tags_of (removeTag tag formData)) <-> In t (tags_of formData))) /\
    sublist (tags_of (removeTag tag formData)) (tags_of formData) /\
    (forall tagInput,
       trim tagInput = tag -> tag <> EmptyString ->
       ~ In tag (tags_of formData) ->
       tags_of (removeTag tag (fst (handleAddTag "Enter" formData tagInput)))
         = tags_of formData).
Proof.
  intros tag formData. unfold removeTag, tags_of at 1 2 4. simpl.
  fold (tags_of formData). split; [|split; [|split]].
  - intros Hin. apply filter_In in Hin as [_ Hin].
    rewrite String.eqb_refl in Hin. discriminate.
  - intros t Hne. rewrite filter_In. split; [now intros [Hin _]|].
    intros Hin. split; [exact Hin|].
    apply negb_true_iff. now apply String.eqb_neq.
  - induction (tags_of formData) as [|a l IH]; [constructor|]. simpl.
    destruct (negb (String.eqb a tag));
      [now apply sublist_skip|now apply sublist_cons].
  - intros tagInput Et Hne Hn. unfold handleAddTag.
    rewrite String.eqb_refl, Et.
    destruct tag as [|c t]; [congruence|].
    change (nonempty (String c t)) with true. simpl andb. cbv iota.
    fold (tags_of formData).
    destruct (array_includes (tags_of formData) (String c t)) eqn:Hin.
    { apply array_includes_In in Hin. contradiction. }
    simpl. unfold tags_of at 1. simpl. rewrite List.filter_app.
    rewrite (filter_not_in _ _ Hn). simpl.
    rewrite String.eqb_refl, Ascii.eqb_refl. simpl. apply app_nil_r.
Qed.

Section LogForm.

Variable H : Host.

Lemma filter_other_logs (id : string) (l : list ContactLog.t) :
  Forall (fun x => ContactLog.id x <> id) l ->
  List.filter (fun x => negb (String.eqb (ContactLog.id x) id)) l = l.
Proof.
  induction 1 as [|a l Ha _ IH]; [reflexivity|]. simpl.
  apply String.eqb_neq in Ha. rewrite Ha. simpl. now rewrite IH.
Qed.

(** X21. Adding a log and then deleting it (by its id, which no earlier
    log has) gives the earlier logs back, but [lastContactDate] is not
    taken back: when it was absent before, it stays at the date of the
    deleted log. *)
Theorem add_then_delete_log :
  forall (st : ModalState) (w : Browser) (notes : string) (t : Z),
    PartialLog.notes (newLog st) = Some notes ->
    notes <> EmptyString ->
    new_Date_opt H (PartialLog.date (newLog st)) = Time t ->
    Forall (fun l => ContactLog.id l <> randomUUID H (minted w))
           (logs_of (formData st)) ->
    exists st' w',
      handleAddLog H st w = (Normal st', w') /\
      logs_of (formData st')
        = ContactLog.mk (randomUUID H (minted w)) (ISO.format t)
                        (PartialLog.type (newLog st)) notes
          :: logs_of (formData st) /\
      logs_of (handleDeleteLog (randomUUID H (minted w)) (formData st'))
        = logs_of (formData st) /\
      PartialClient.lastContactDate
        (handleDeleteLog (randomUUID H (minted w)) (formData st'))
        = PartialClient.lastContactDate (formData st') /\
      (truthy (PartialClient.lastContactDate (formData st)) = false ->
       PartialClient.lastContactDate
         (handleDeleteLog (randomUUID H (minted w)) (formData st'))
         = Some (ISO.format t)).
Proof.
  intros st w notes t Hn Hne Hd Hfresh.
  unfold handleAddLog. rewrite Hn.
  destruct notes as [|c notes]; [contradiction|].
  rewrite Hd. js_unfold.
  eexists _, _. split; [reflexivity|]. simpl.
  unfold logs_of, handleDeleteLog. simpl. fold (logs_of (formData st)).
  split; [reflexivity|]. split.
  - rewrite String.eqb_refl. simpl. now rewrite (filter_other_logs _ _ Hfresh).
  - split; [reflexivity|]. intros E. now rewrite E.
Qed.

(** X22. The edges of [handleAddLog]. Without notes it changes nothing
    and mints no id. With notes but a date the engine cannot read it
    throws a [RangeError] (after one id was minted) and the form is not
    updated. After a successful add the log form is reset (no notes, type
    e-mail, closed), so calling it again right away adds nothing. *)
Theorem handleAddLog_edges :
  forall (st : ModalState) (w : Browser),
    (truthy (PartialLog.notes (newLog st)) = false ->
     handleAddLog H st w = (Normal st, w)) /\
    (truthy (PartialLog.notes (newLog st)) = true ->
     new_Date_opt H (PartialLog.date (newLog st)) = NaN ->
     handleAddLog H st w
       = (Throw (RangeError "Invalid time value"), after_minting 1 w)) /\
    (forall st' w',
       truthy (PartialLog.notes (newLog st)) = true ->
       handleAddLog H st w = (Normal st', w') ->
       PartialLog.notes (newLog st') = Some EmptyString /\
       PartialLog.type (newLog st') = Some Email /\
       showLogForm st' = false /\
       handleAddLog H st' w' = (Normal st', w')).
Proof.
  intros st w. unfold handleAddLog. split; [|split].
  - intros Hn. destruct (PartialLog.notes (newLog st)) as [[|c n]|];
      [reflexivity|discriminate|reflexivity].
  - intros Hn Hd. destruct (PartialLog.notes (newLog st)) as [[|c n]|];
      try discriminate.
    rewrite Hd. reflexivity.
  - intros st' w' Hn. destruct (PartialLog.notes (newLog st)) as [[|c n]|];
      try discriminate.
    destruct (new_Date_opt H (PartialLog.date (newLog st))) as [|t];
      [discriminate|].
    js_unfold. intros E. injection E as <- <-. simpl. auto.
Qed.

End LogForm.

Section Submit.

Variable H : Host.

(** X23. [handleSubmit] hands nothing to [onSave] when the name or the
    company is missing or empty (and then mints no id). Otherwise it
    hands over a client with that name and company. The client keeps the
    id of the form when it has one, and gets a newly minted id when it
    has none. Its status time stamp is the old one when the form was
    opened on a client whose status is unchanged and whose time stamp is
    set, and the current time when the status differs or the client is
    new. *)
Theorem handleSubmit_rules :
  forall (client : option Client.t) (formData : PartialClient.t) (w : Browser),
    (truthy (PartialClient.name formData) = false \/
     truthy (PartialClient.company formData) = false ->
     handleSubmit H client formData w = (Normal None, w)) /\
    (truthy (PartialClient.name formData) = true ->
     truthy (PartialClient.company formData) = true ->
     exists c w',
       handleSubmit H client formData w = (Normal (Some c), w') /\
       Some (Client.name c) = PartialClient.name formData /\
       Some (Client.company c) = PartialClient.company formData /\
       (truthy (PartialClient.id formData) = true ->
        Some (Client.id c) = PartialClient.id formData /\ w' = w) /\
       (truthy (PartialClient.id formData) = false ->
        Client.id c = randomUUID H (minted w) /\ w' = after_minting 1 w) /\
       (forall old,
          client = Some old ->
          PartialClient.status formData = Some (Client.status old) ->
          truthy (Client.statusUpdatedAt old) = true ->
          Client.statusUpdatedAt c = Client.statusUpdatedAt old) /\
       (client = None \/
        (exists old, client = Some old /\
           PartialClient.status formData <> Some (Client.status old)) ->
        Client.statusUpdatedAt c = Some (ISO.format (now w)))).
Proof.
  intros client formData w. unfold handleSubmit. split.
  - intros [Hn|Hc].
    + destruct (PartialClient.name formData) as [[|a n]|];
        try discriminate; reflexivity.
    + destruct (PartialClient.name formData) as [[|a n]|]; try reflexivity.
      destruct (PartialClient.company formData) as [[|b m]|];
        try discriminate; reflexivity.
  - intros Hn Hc.
    destruct (PartialClient.name formData) as [[|a n]|]; try discriminate.
    destruct (PartialClient.company formData) as [[|b m]|]; try discriminate.
    assert (Hstamp : exists stamp,
              (if match client with
                  | Some c => status_differs c formData
                  | None => true
                  end
               then current_time_iso
               else match client with
                    | Some c =>
                        match Client.statusUpdatedAt c with
                        | Some (String _ _ as stamp) => ret stamp
                        | _ => current_time_iso
                        end
                    | None => current_time_iso
                    end) w = (Normal stamp, w) /\
              (forall old,
                 client = Some old ->
                 PartialClient.status formData = Some (Client.status old) ->
                 truthy (Client.statusUpdatedAt old) = true ->
                 Some stamp = Client.statusUpdatedAt old) /\
              (client = None \/
               (exists old, client = Some old /\
                  PartialClient.status formData <> Some (Client.status old)) ->
               stamp = ISO.format (now w))).
    { destruct client as [old|].
      - unfold status_differs.
        destruct (PartialClient.status formData) as [s|] eqn:Es.
        + destruct (String.eqb_spec (Client.status old) s) as [E|E]; simpl.
          * destruct (Client.statusUpdatedAt old) as [[|x stamp]|] eqn:Eu.
            -- eexists. split; [reflexivity|]. split.
               ++ intros o [= <-] _ Ht. rewrite Eu in Ht. discriminate.
               ++ intros [?|(o & [= <-] & Hne)]; [discriminate|].
                  exfalso. apply Hne. now rewrite E.
            -- eexists. split; [reflexivity|]. split.
               ++ intros o [= <-] _ _. now rewrite Eu.
               ++ intros [?|(o & [= <-] & Hne)]; [discriminate|].
                  exfalso. apply Hne. now rewrite E.
            -- eexists. split; [reflexivity|]. split.
               ++ intros o [= <-] _ Ht. rewrite Eu in Ht. discriminate.
               ++ intros [?|(o & [= <-] & Hne)]; [discriminate|].
                  exfalso. apply Hne. now rewrite E.
          * eexists. split; [reflexivity|]. split; [|reflexivity].
            intros o [= <-] [= Hs] _. congruence.
        + eexists. split; [reflexivity|]. split; [|reflexivity].
          intros o _ Hs _. discriminate.
      - eexists. split; [reflexivity|]. split; [|reflexivity].
        intros o Hn'. discriminate. }
    destruct Hstamp as (stamp & Es & Hkeep & Hnew).
    rewrite (bind_normal _ _ _ _ _ Es).
    assert (Hk : forall c : Client.t,
              Client.statusUpdatedAt c = Some stamp ->
              (forall old,
                 client = Some old ->
                 PartialClient.status formData = Some (Client.status old) ->
                 truthy (Client.statusUpdatedAt old) = true ->
                 Client.statusUpdatedAt c = Client.statusUpdatedAt old) /\
              (client = None \/
               (exists old, client = Some old /\
                  PartialClient.status formData <> Some (Client.status old)) ->
               Client.statusUpdatedAt c = Some (ISO.format (now w)))).
    { intros c Ec. rewrite Ec. split.
      - intros old Ho Hs Ht. now apply Hkeep.
      - intros Hc'. f_equal. now apply Hnew. }
    destruct (PartialClient.id formData) as [[|x i]|] eqn:Ei.
    + rewrite (bind_normal _ _ _ _ _ (crypto_randomUUID_run H w)).
      eexists _, _. split; [reflexivity|].
      split; [reflexivity|]. split; [reflexivity|].
      split; [discriminate|]. split; [intros _; now split|].
      now apply Hk.
    + eexists _, _. split; [reflexivity|].
      split; [reflexivity|]. split; [reflexivity|].
      split; [intros _; now split|]. split; [discriminate|].
      now apply Hk.
    + rewrite (bind_normal _ _ _ _ _ (crypto_randomUUID_run H w)).
      eexists _, _. split; [reflexivity|].
      split; [reflexivity|]. split; [reflexivity|].
      split; [discriminate|]. split; [intros _; now split|].
      now apply Hk.
Qed.

Lemma handleSubmit_untouched (c : Client.t) (w : Browser) :
  complete c = true ->
  handleSubmit H (Some c) (formOf c) w = (Normal (Some c), w).
Proof.
  unfold complete. intros Hc.
  repeat (apply andb_true_iff in Hc as [Hc ?]).
  destruct c as [id name company role email phone sector status sua location
                 continent lat lng website lcd nfd rate notes tags logs].
  simpl in *.
  destruct name as [|n0 name]; [discriminate|].
  destruct company as [|c0 company]; [discriminate|].
  destruct sector as [|s0 sector]; [discriminate|].
  destruct status as [|t0 status]; [discriminate|].
  destruct id as [|i0 id]; [discriminate|].
  destruct sua as [[|u0 sua]|]; try discriminate.
  destruct role as [role|]; [|discriminate].
  destruct email as [email|]; [|discriminate].
  destruct phone as [phone|]; [|discriminate].
  destruct location as [location|]; [|discriminate].
  destruct website as [website|]; [|discriminate].
  destruct rate as [rate|]; [|discriminate].
  destruct notes as [notes|]; [|discriminate].
  unfold handleSubmit, formOf, status_differs. simpl.
  rewrite String.eqb_refl, Ascii.eqb_refl. simpl.
  unfold bind, ret. simpl.
  destruct role, email, phone, location, website, rate, notes; reflexivity.
Qed.

Lemma replace_by_self (c : Client.t) (l : list Client.t) :
  NoDup (map Client.id l) -> In c l ->
  map (fun x => if String.eqb (Client.id x) (Client.id c) then c else x) l = l.
Proof.
  induction l as [|a l IH]; intros ND Hin; [reflexivity|].
  simpl in ND. apply NoDup_cons in ND as [Hnotin ND]. simpl.
  destruct Hin as [->|Hin].
  - rewrite String.eqb_refl. f_equal. apply replace_fixes_others.
    intros x Hx E. apply Hnotin. rewrite <- E.
    apply list_elem_of_In, in_map, Hx.
  - destruct (String.eqb_spec (Client.id a) (Client.id c)) as [E|E].
    + exfalso. apply Hnotin. rewrite E.
      apply list_elem_of_In, in_map, Hin.
    + f_equal. now apply IH.
Qed.

(** X24. Opening the form on a listed client and submitting it untouched
    leaves the list of clients exactly as it was, provided ids are
    pairwise distinct and the client is complete (the texts the form
    would default are present). Whatever was edited, submitting a form
    that carries the id of a listed client replaces and never adds: the
    list keeps its length. *)
Theorem submit_existing_client :
  forall (c : Client.t) (st : AppState) (w : Browser),
    In c (clients st) ->
    (NoDup (map Client.id (clients st)) -> complete c = true ->
     exists st' w',
       submitAndSave H (Some c) (formOf c) st w = (Normal st', w') /\
       clients st' = clients st) /\
    (forall formData st' w',
       PartialClient.id formData = Some (Client.id c) ->
       Client.id c <> EmptyString ->
       submitAndSave H (Some c) formData st w = (Normal st', w') ->
       length (clients st') = length (clients st)).
Proof.
  intros c st w Hin. split.
  - intros ND Hc.
    destruct (handleSaveClient_run H c st w) as [w' E].
    eexists _, w'. split.
    { unfold submitAndSave.
      rewrite (bind_normal _ _ _ _ _ (handleSubmit_untouched c w Hc)).
      exact E. }
    simpl. unfold updatedClients.
    destruct (find _ (clients st)) as [y|] eqn:F.
    + now apply replace_by_self.
    + exfalso. exact (find_none_map c _ F c Hin eq_refl).
  - intros formData st' w' Hid Hne. unfold submitAndSave, bind.
    destruct (handleSubmit H (Some c) formData w) as [[[c'|]|e] w1] eqn:Es;
      try discriminate.
    + assert (Hid' : Client.id c' = Client.id c).
      { revert Es. unfold handleSubmit.
        destruct (PartialClient.name formData) as [[|a n]|]; try discriminate.
        destruct (PartialClient.company formData) as [[|b m]|];
          try discriminate.
        rewrite Hid. unfold bind.
        match goal with
        | |- context [match ?m w with _ => _ end] =>
            destruct (m w) as [[stamp|e] w2]; [|discriminate]
        end.
        destruct (Client.id c) as [|x i]; [congruence|].
        unfold ret. intros E. now injection E as <- _. }
      destruct (handleSaveClient_run H c' st w1) as [w2 E]. rewrite E.
      intros E'. injection E' as <- _. simpl. unfold updatedClients.
      destruct (find _ (clients st)) as [y|] eqn:F; [apply length_map|].
      exfalso. rewrite Hid' in F. exact (find_none_map c _ F c Hin eq_refl).
    + intros E. now injection E as <- _.
Qed.

End Submit.

(* ===================================================================== *)
(** * Further properties of the CSV import dialog *)
(* ===================================================================== *)

Section ImportDialog.

Variable H : Host.




Lemma parseCSV_exported (cs : list Client.t) (w : Browser) :
  forallb (exportable H) cs = true ->
  parseCSV H (csvContent H cs) w
    = (Normal (reimported_from H (minted w) cs),
       after_minting (length cs) w).
Proof.
  intros Hall.
  rewrite (parseCSV_rows H _ _ _ w (exported_lines_split H cs Hall)).
  rewrite exported_headers.
  apply (importRows_exported H cs Hall []).
Qed.



End ImportDialog.

(* ===================================================================== *)
(** * Reversed columns *)
(* ===================================================================== *)

Lemma same_cell_eq (a b : option string) : same_cell a b = true -> a = b.
Proof.
  destruct a as [x|], b as [y|]; simpl; try discriminate; [|reflexivity].
  intros E. apply String.eqb_eq in E. now subst.
Qed.

Lemma same_cell_refl (a : option string) : same_cell a a = true.
Proof. destruct a as [x|]; [apply String.eqb_refl|reflexivity]. Qed.

Lemma one_line_inv (l : string) :
  one_line l = true -> has_char LF l = false /\ ends_with_CR l = false.
Proof.
  unfold one_line. intros E. apply andb_true_iff in E as [A B].
  apply negb_true_iff in A, B. auto.
Qed.

Lemma last_nonspace_no_CR_end (l : string) :
  last_nonspace l = true -> ends_with_CR l = false.
Proof.
  induction l as [|c l IH]; [reflexivity|]. simpl.
  destruct l as [|c' l]; [|exact IH].
  intros E. apply nonspace_not_CR. now apply negb_true_iff in E.
Qed.

(** A row that has at least two cells is not blank. *)
Lemma two_cells_nonempty (line : string) :
  (length (splitCSVLine line) <? 2)%nat = false -> nonempty line = true.
Proof. destruct line; [discriminate|reflexivity]. Qed.

Section ReversedColumns.

Variable H : Host.

(** Under the reversed header each keyword selects the mirrored
    column. *)
Lemma importRow_mirrored (r s : string) (clients : list Client.t) w :
  mirrored r s = true ->
  importRow H (readHeaders reversed_header_line) r clients w
    = importRow H (readHeaders (join "," headers)) s clients w.
Proof.
  unfold mirrored, cells. intros Hm. unfold importRow.
  destruct (length (splitCSVLine (trim r)) <? 2)%nat eqn:Hlen.
  - rewrite Hm.
    destruct (nonempty (trim r)), (nonempty (trim s)); reflexivity.
  - apply andb_true_iff in Hm as [Hs Hcells].
    apply negb_true_iff in Hs. rewrite Hs.
    cbn [forallb seq] in Hcells.
    repeat (apply andb_true_iff in Hcells as [?E Hcells]).
    repeat match goal with
           | E : same_cell _ _ = true |- _ => apply same_cell_eq in E
           end.
    rewrite (two_cells_nonempty _ Hs).
    rewrite (two_cells_nonempty _ Hlen).
    change (negb true) with false. cbv iota.
    set (vr := splitCSVLine (trim r)) in *.
    set (vs := splitCSVLine (trim s)) in *.
    change (val (readHeaders reversed_header_line) vr "name")
      with (option_map trim (vr !! 12%nat)).
    change (val (readHeaders reversed_header_line) vr "company")
      with (option_map trim (vr !! 11%nat)).
    change (val (readHeaders reversed_header_line) vr "role")
      with (option_map trim (vr !! 10%nat)).
    change (val (readHeaders reversed_header_line) vr "status")
      with (option_map trim (vr !! 9%nat)).
    change (val (readHeaders reversed_header_line) vr "sector")
      with (option_map trim (vr !! 8%nat)).
    change (val (readHeaders reversed_header_line) vr "email")
      with (option_map trim (vr !! 7%nat)).
    change (val (readHeaders reversed_header_line) vr "phone")
      with (option_map trim (vr !! 6%nat)).
    change (val (readHeaders reversed_header_line) vr "location")
      with (option_map trim (vr !! 5%nat)).
    change (val (readHeaders reversed_header_line) vr "last contact")
      with (option_map trim (vr !! 4%nat)).
    change (val (readHeaders reversed_header_line) vr "next follow")
      with (option_map trim (vr !! 3%nat)).
    change (val (readHeaders reversed_header_line) vr "rate")
      with (option_map trim (vr !! 2%nat)).
    change (val (readHeaders reversed_header_line) vr "notes")
      with (option_map trim (vr !! 1%nat)).
    change (val (readHeaders reversed_header_line) vr "tags")
      with (option_map trim (vr !! 0%nat)).
    change (val (readHeaders (join "," headers)) vs "name")
      with (option_map trim (vs !! 0%nat)).
    change (val (readHeaders (join "," headers)) vs "company")
      with (option_map trim (vs !! 1%nat)).
    change (val (readHeaders (join "," headers)) vs "role")
      with (option_map trim (vs !! 2%nat)).
    change (val (readHeaders (join "," headers)) vs "status")
      with (option_map trim (vs !! 3%nat)).
    change (val (readHeaders (join "," headers)) vs "sector")
      with (option_map trim (vs !! 4%nat)).
    change (val (readHeaders (join "," headers)) vs "email")
      with (option_map trim (vs !! 5%nat)).
    change (val (readHeaders (join "," headers)) vs "phone")
      with (option_map trim (vs !! 6%nat)).
    change (val (readHeaders (join "," headers)) vs "location")
      with (option_map trim (vs !! 7%nat)).
    change (val (readHeaders (join "," headers)) vs "last contact")
      with (option_map trim (vs !! 8%nat)).
    change (val (readHeaders (join "," headers)) vs "next follow")
      with (option_map trim (vs !! 9%nat)).
    change (val (readHeaders (join "," headers)) vs "rate")
      with (option_map trim (vs !! 10%nat)).
    change (val (readHeaders (join "," headers)) vs "notes")
      with (option_map trim (vs !! 11%nat)).
    change (val (readHeaders (join "," headers)) vs "tags")
      with (option_map trim (vs !! 12%nat)).
    simpl Nat.sub in *.
    repeat match goal with
           | E : vr !! _ = _ |- _ => rewrite E; clear E
           end.
    reflexivity.
Qed.

Lemma importRows_mirrored (rows_r rows_s : list string) :
  Forall2 (fun r s => mirrored r s = true) rows_r rows_s ->
  forall clients w,
    importRows H (readHeaders reversed_header_line) rows_r clients w
      = importRows H (readHeaders (join "," headers)) rows_s clients w.
Proof.
  induction 1 as [|r s rows_r rows_s Hm _ IH]; intros clients w;
    [reflexivity|].
  cbn [importRows]. unfold bind.
  rewrite (importRow_mirrored r s clients w Hm).
  destruct (importRow H (readHeaders (join "," headers)) s clients w)
    as [[cs'|e] w']; [apply IH|reflexivity].
Qed.

Lemma parseCSV_lines (first : string) (rows : list string) w :
  one_line first = true ->
  Forall (fun l => one_line l = true) rows ->
  parseCSV H (join (str LF) (first :: rows)) w
    = importRows H (readHeaders first) rows [] w.
Proof.
  intros Hf Hrows. apply parseCSV_rows. apply splitLines_join_LF;
    [discriminate|].
  constructor; [now apply one_line_inv|].
  eapply Forall_impl; [exact Hrows|]. intros l Hl. now apply one_line_inv.
Qed.

(** A row of quoted cells in reversed order mirrors the row in the
    given order. *)
Lemma mirrored_quoted (c : Client.t) :
  mirrored (join "," (rev (csvRow H c))) (join "," (csvRow H c)) = true.
Proof.
  unfold mirrored, cells. rewrite csvRow_cells, <- map_rev.
  rewrite !row_trim by (unfold cellTexts; discriminate).
  unfold splitCSVLine.
  rewrite !split_row_any by (unfold cellTexts; discriminate).
  unfold cellTexts. cbn [rev app map length Nat.ltb Nat.leb seq forallb].
  cbn [lookup list_lookup Nat.sub].
  rewrite !same_cell_refl. reflexivity.
Qed.

Lemma one_line_quoted (fs : list string) :
  fs <> [] ->
  Forall (fun t => has_char LF t = false) fs ->
  one_line (join "," (map (fun t => esc (Some t)) fs)) = true.
Proof.
  intros Hne Hlf. unfold one_line.
  rewrite (row_no_LF fs Hlf).
  now rewrite (last_nonspace_no_CR_end _ (row_last fs Hne)).
Qed.

Lemma cellTexts_no_LF (c : Client.t) :
  exportable H c = true ->
  Forall (fun t => has_char LF t = false) (cellTexts H c).
Proof.
  intros Hc.
  destruct (exportable_inv H c Hc)
    as (role & email & phone & location & rate & notes &
        Er & Ee & Ep & El & Era & En & Hst & _).
  unfold cellTexts. rewrite Er, Ee, Ep, El, Era, En. simpl default.
  eapply Forall_impl; [exact Hst|].
  intros t Ht. now apply csv_stable_inv in Ht.
Qed.

(** C8. A CSV text whose header row holds the thirteen exported column
    names in reversed order is imported as the text with the exported
    header order whose rows hold the same cells column by column:
    whatever the rows hold, both imports come to the same end (the same
    contacts, or the same error). In particular the export of
    exportable contacts with its columns reversed imports as the export
    itself does, every cell in the field of its column. This is because
    each of the thirteen keywords resolves, by the first header that
    contains it, to the mirrored column, for rows of any length. *)
Theorem import_reversed_columns :
  forall (w : Browser),
    (forall rows_r rows_s : list string,
       Forall2 (fun r s => mirrored r s = true) rows_r rows_s ->
       Forall (fun l => one_line l = true) rows_r ->
       Forall (fun l => one_line l = true) rows_s ->
       parseCSV H (join (str LF) (reversed_header_line :: rows_r)) w
         = parseCSV H (join (str LF) (join "," headers :: rows_s)) w) /\
    (forall cs : list Client.t,
       forallb (exportable H) cs = true ->
       parseCSV H (reversed_export H cs) w
         = (Normal (reimported_from H (minted w) cs),
            after_minting (length cs) w)) /\
    Forall2 (fun k j =>
               forall values : list string,
                 val (readHeaders reversed_header_line) values k
                   = option_map trim (values !! (12 - j)%nat) /\
                 val (readHeaders (join "," headers)) values k
                   = option_map trim (values !! j))
            keywords (seq 0 13).
Proof.
  intros w.
  assert (Hrows : forall rows_r rows_s : list string,
            Forall2 (fun r s => mirrored r s = true) rows_r rows_s ->
            Forall (fun l => one_line l = true) rows_r ->
            Forall (fun l => one_line l = true) rows_s ->
            parseCSV H (join (str LF) (reversed_header_line :: rows_r)) w
              = parseCSV H (join (str LF) (join "," headers :: rows_s)) w).
  { intros rows_r rows_s Hm Hr Hs.
    rewrite (parseCSV_lines reversed_header_line rows_r w eq_refl Hr).
    rewrite (parseCSV_lines (join "," headers) rows_s w eq_refl Hs).
    now apply importRows_mirrored. }
  split; [exact Hrows|]. split.
  - intros cs Hall. unfold reversed_export.
    rewrite (Hrows _ (map (fun c => join "," (csvRow H c)) cs)).
    + rewrite <- (parseCSV_exported H cs w Hall). unfold csvContent.
      now rewrite map_map.
    + clear Hall. induction cs as [|c cs IH]; constructor; [|exact IH].
      apply mirrored_quoted.
    + apply Forall_forall. intros l Hin.
      apply list_elem_of_In, in_map_iff in Hin as (c & <- & Hc).
      rewrite forallb_forall in Hall. specialize (Hall c Hc).
      rewrite csvRow_cells, <- map_rev. apply one_line_quoted.
      * unfold cellTexts. discriminate.
      * apply Forall_forall. intros t Ht.
        pose proof (cellTexts_no_LF c Hall) as Hlf.
        rewrite Forall_forall in Hlf. apply Hlf.
        apply list_elem_of_In. apply list_elem_of_In in Ht.
        now apply in_rev.
    + apply Forall_forall. intros l Hin.
      apply list_elem_of_In, in_map_iff in Hin as (c & <- & Hc).
      rewrite forallb_forall in Hall. specialize (Hall c Hc).
      rewrite csvRow_cells. apply one_line_quoted.
      * unfold cellTexts. discriminate.
      * now apply cellTexts_no_LF.
  - repeat constructor.
Qed.

End ReversedColumns.

(* ===================================================================== *)
(** * The properties at work on the reference engine *)
(* ===================================================================== *)

(** With a picker the user is prompted before anything can fail: a chosen
    file is read and validated, and a dismissed dialog rejects after the
    prompt. *)
Example openDatabaseFile_prompts :
  let pick (choice : Completion FileSystemFileHandle) :=
    mkBrowser 1709634600000 0 ∅ 100 [] [] (Some choice) None
              {[ "db.yongu" := "{}" ]} [] no_rejection in
  fst (openDatabaseFile RefHost.host (pick (Normal "db.yongu")))
    = Normal (zero_document (pick (Normal "db.yongu")), "db.yongu") /\
  io (snd (openDatabaseFile RefHost.host (pick (Normal "db.yongu"))))
    = [OpenPickerShown; FileRead "db.yongu"] /\
  fst (openDatabaseFile RefHost.host
         (pick (Throw (DOMException "AbortError"))))
    = Throw (DOMException "AbortError") /\
  io (snd (openDatabaseFile RefHost.host
             (pick (Throw (DOMException "AbortError")))))
    = [OpenPickerShown].
Proof. vm_compute. repeat split. Qed.

(** C1, a counterexample to the statement as the specification words it:
    a name that starts with a space comes back without it. *)
Lemma csv_roundtrip_counterexample :
  ~ roundtrip_as_specified RefHost.host (RefHost.browser 100) [Sample.padded].
Proof.
  intros (cs' & w' & E & F).
  vm_compute in E. injection E as <- _.
  inversion F as [|? c' ? ? Hsame _]; subst.
  destruct Hsame as (Hname & _). vm_compute in Hname. discriminate Hname.
Qed.

(** The end-to-end example of the specification, a contact with only
    name, company and tags: its empty cells are read back as a double
    quote each, the one under the last-contact header is not a date, and
    the import throws. *)
Example csv_sparse_contact_import_throws :
  splitCSVLine (esc None) = [str dquote] /\
  fst (parseCSV RefHost.host (csvContent RefHost.host [Sample.sparse])
         (RefHost.browser 100))
    = Throw (RangeError "Invalid time value").
Proof. split; reflexivity. Qed.

Lemma csv_roundtrip_exportable_witness :
  forallb (exportable RefHost.host) [Sample.ana; Sample.ana_edited] = true /\
  exists cs',
    parseCSV RefHost.host
      (csvContent RefHost.host [Sample.ana; Sample.ana_edited])
      (RefHost.browser 100)
      = (Normal cs', after_minting 2 (RefHost.browser 100)) /\
    length cs' = 2%nat /\
    Forall2 same_business_fields [Sample.ana; Sample.ana_edited] cs'.
Proof.
  split; [reflexivity|].
  destruct (csv_roundtrip_exportable RefHost.host
              [Sample.ana; Sample.ana_edited] (RefHost.browser 100) eq_refl)
    as (cs' & E & Hlen & Hfields & _).
  exists cs'. auto.
Defined.

(** Only the day of a date survives the trip. *)
Example csv_roundtrip_date_precision :
  reread RefHost.host (Client.lastContactDate Sample.ana)
    = Some "2024-03-05T00:00:00.000Z".
Proof. reflexivity. Qed.

Lemma validateData_repairs_witness :
  (exists w', validateData (JStr "yongu") (RefHost.browser 100)
              = (Normal (zero_document (RefHost.browser 100)), w')) /\
  (exists doc w',
     validateData Sample.raw_document (RefHost.browser 100)
       = (Normal doc, w') /\
     AppData.clients doc = member Sample.raw_document "clients" /\
     AppData.profile doc = member Sample.raw_document "profile" /\
     AppData.lastUpdated doc = JStr "2024-03-01T12:00:00.000Z").
Proof.
  destruct (validateData_repairs (JStr "yongu") (RefHost.browser 100))
    as (_ & Hzero & _).
  destruct (validateData_repairs Sample.raw_document (RefHost.browser 100))
    as (_ & _ & Hgood & _).
  split.
  - apply Hzero. right. right. left. discriminate.
  - destruct (Hgood _ eq_refl eq_refl)
      as (doc & w' & E & Hc & _ & Hp & Hl).
    exists doc, w'. split; [exact E|]. split; [exact Hc|].
    split; [apply Hp; reflexivity|exact Hl].
Defined.

Lemma saveToLocalStorage_reports_to_user_witness :
  (quota (RefHost.browser 10) <
   storage_size (<[LOCAL_STORAGE_KEY :=
                     JSON_stringify RefHost.host 0
                       (AppData.toJSVal Sample.blank_document)]>
                   (localStorage (RefHost.browser 10))))%nat /\
  exists w',
    saveToLocalStorage RefHost.host Sample.blank_document (RefHost.browser 10)
      = (Normal tt, w') /\
    localStorage w' = localStorage (RefHost.browser 10) /\
    alerts w' = ["Warning: Local storage full. Some data may not be saved."].
Proof.
  assert (Hfull : (quota (RefHost.browser 10) <
            storage_size (<[LOCAL_STORAGE_KEY :=
                              JSON_stringify RefHost.host 0
                                (AppData.toJSVal Sample.blank_document)]>
                            (localStorage (RefHost.browser 10))))%nat).
  { apply Nat.ltb_lt. vm_compute. reflexivity. }
  split; [exact Hfull|].
  destruct (saveToLocalStorage_reports_to_user RefHost.host
              Sample.blank_document (RefHost.browser 10) Hfull)
    as (w' & E & Hs & Ha & _).
  exists w'. auto.
Defined.

Lemma loadFromLocalStorage_outcomes_witness :
  JSON_parse RefHost.host EmptyString = None /\
  loadFromLocalStorage RefHost.host (RefHost.browser 100)
    = (Normal None, RefHost.browser 100) /\
  (exists w', loadFromLocalStorage RefHost.host (Sample.stored "{oops")
              = (Normal None, w')) /\
  (exists doc w',
     validateData (JObj []) (Sample.stored "{}") = (Normal doc, w') /\
     loadFromLocalStorage RefHost.host (Sample.stored "{}")
       = (Normal (Some doc), w')).
Proof.
  split; [reflexivity|].
  destruct (loadFromLocalStorage_outcomes RefHost.host (RefHost.browser 100)
              eq_refl) as (_ & Habsent & _).
  destruct (loadFromLocalStorage_outcomes RefHost.host (Sample.stored "{oops")
              eq_refl) as (_ & _ & Hcorrupt & _).
  destruct (loadFromLocalStorage_outcomes RefHost.host (Sample.stored "{}")
              eq_refl) as (_ & _ & _ & Hparsed).
  split; [apply Habsent; reflexivity|].
  split; [apply (Hcorrupt "{oops"); reflexivity|].
  apply (Hparsed "{}"); reflexivity.
Defined.

Lemma handleSaveClient_replace_by_id_witness :
  exists st' w',
    handleSaveClient RefHost.host Sample.ana_edited Sample.app
                     (RefHost.browser 4000) = (Normal st', w') /\
    clients st' = [Sample.bo; Sample.ana_edited].
Proof.
  destruct (handleSaveClient_replace_by_id RefHost.host Sample.ana_edited
              Sample.app (RefHost.browser 4000))
    as (st' & w' & E & Hreplace & _).
  exists st', w'. split; [exact E|].
  destruct Hreplace as (Hlen & Hnth & _).
  { exists Sample.ana. split; [right; left; reflexivity|reflexivity]. }
  pose proof (Hnth 0%nat Sample.bo eq_refl) as H0.
  pose proof (Hnth 1%nat Sample.ana eq_refl) as H1.
  destruct (clients st') as [|a [|b [|c l]]]; try discriminate Hlen.
  simpl in H0, H1. injection H0 as ->. injection H1 as ->. reflexivity.
Defined.

Lemma handleAddLog_lastContactDate_witness :
  (exists st' w',
     handleAddLog RefHost.host (Sample.form "2024-03-10") (RefHost.browser 100)
       = (Normal st', w') /\
     PartialClient.lastContactDate (formData st')
       = Some "2024-03-10T00:00:00.000Z") /\
  (exists st' w',
     handleAddLog RefHost.host (Sample.form "2024-03-01") (RefHost.browser 100)
       = (Normal st', w') /\
     PartialClient.lastContactDate (formData st')
       = Some "2024-03-05T10:30:00.000Z").
Proof.
  split.
  - destruct (handleAddLog_lastContactDate RefHost.host
                (Sample.form "2024-03-10") (RefHost.browser 100)
                "Rang back" 1710028800000 eq_refl ltac:(discriminate) eq_refl)
      as (st' & w' & entry & E & Hdate & _ & _ & _ & Hlater).
    exists st', w'. split; [exact E|].
    destruct (Hlater "2024-03-05T10:30:00.000Z" 1709634600000 1710028800000
                eq_refl ltac:(discriminate) eq_refl
                ltac:(rewrite Hdate; reflexivity)) as [Hup _].
    rewrite Hup by reflexivity. now rewrite Hdate.
  - destruct (handleAddLog_lastContactDate RefHost.host
                (Sample.form "2024-03-01") (RefHost.browser 100)
                "Rang back" 1709251200000 eq_refl ltac:(discriminate) eq_refl)
      as (st' & w' & entry & E & Hdate & _ & _ & _ & Hlater).
    exists st', w'. split; [exact E|].
    destruct (Hlater "2024-03-05T10:30:00.000Z" 1709634600000 1709251200000
                eq_refl ltac:(discriminate) eq_refl
                ltac:(rewrite Hdate; reflexivity)) as [_ Hkeep].
    apply Hkeep. discriminate.
Defined.

Lemma import_unreadable_date_throws_witness :
  has_unreadable_date RefHost.host (readHeaders "Name,Company,Last Contact")
                      "Bo Lind,Bar,soon" = true /\
  exists w',
    parseCSV RefHost.host Sample.csv_bad_date (RefHost.browser 100)
      = (Throw (RangeError "Invalid time value"), w').
Proof.
  split; [reflexivity|].
  destruct (import_unreadable_date_throws RefHost.host
              (readHeaders "Name,Company,Last Contact") "Bo Lind,Bar,soon"
              eq_refl) as (_ & Hfile).
  apply (Hfile Sample.csv_bad_date "Name,Company,Last Contact"
           ["Ana Ruiz,Foo,3/5/2024"] []); reflexivity.
Defined.

(** C3, the statement of the specification fails on that row. *)
Lemma import_unreadable_date_not_as_specified :
  ~ unreadable_date_as_specified RefHost.host
      (readHeaders "Name,Company,Last Contact") "Bo Lind,Bar,soon"
      (RefHost.browser 100).
Proof.
  intros (c & w' & E & _). vm_compute in E. discriminate E.
Qed.

Lemma import_reversed_columns_witness :
  mirrored Sample.row_reversed Sample.row_exported = true /\
  (exists c w',
     parseCSV RefHost.host
       (join (str LF) [reversed_header_line; Sample.row_reversed; "solo"])
       (RefHost.browser 100) = (Normal [c], w') /\
     parseCSV RefHost.host
       (join (str LF) [join "," headers; Sample.row_exported; EmptyString])
       (RefHost.browser 100) = (Normal [c], w') /\
     Client.name c = "Ana Ruiz" /\ Client.tags c = ["Nuke"] /\
     Client.lastContactDate c = Some "2024-03-05T00:00:00.000Z") /\
  (exists c1 c2,
     parseCSV RefHost.host
       (reversed_export RefHost.host [Sample.ana; Sample.ana_edited])
       (RefHost.browser 100)
       = (Normal [c1; c2], after_minting 2 (RefHost.browser 100)) /\
     Client.company c1 = "Foo, Inc." /\ Client.role c2 = Some "Supervisor") /\
  val (readHeaders reversed_header_line) ["Nuke"; "Met at FMX"] "notes"
    = Some "Met at FMX".
Proof.
  destruct (import_reversed_columns RefHost.host (RefHost.browser 100))
    as (Hrows & Hexport & Hcolumns).
  split; [reflexivity|]. split; [|split].
  - pose proof (Hrows [Sample.row_reversed; "solo"]
                  [Sample.row_exported; EmptyString]
                  ltac:(repeat constructor) ltac:(repeat constructor)
                  ltac:(repeat constructor)) as E.
    eexists _, _. split; [rewrite E; vm_compute; reflexivity|].
    split; [vm_compute; reflexivity|]. repeat split.
  - eexists _, _. split;
      [apply (Hexport [Sample.ana; Sample.ana_edited] eq_refl)|].
    split; reflexivity.
  - assert (Hnotes : Forall2 (fun k j =>
                        forall values : list string,
                          val (readHeaders reversed_header_line) values k
                            = option_map trim (values !! (12 - j)%nat) /\
                          val (readHeaders (join "," headers)) values k
                            = option_map trim (values !! j))
                       ["notes"] [11%nat]).
    { do 11 (apply Forall2_cons_1 in Hcolumns as [_ Hcolumns]).
      apply Forall2_cons_1 in Hcolumns as [Hn _].
      constructor; [exact Hn|constructor]. }
    apply Forall2_cons_1 in Hnotes as [Hn _].
    apply (Hn ["Nuke"; "Met at FMX"]).
Defined.

(* ===================================================================== *)
(** * The further properties at work on the reference engine *)
(* ===================================================================== *)

Lemma validateData_idempotent_witness :
  exists doc,
    validateData Sample.raw_document (RefHost.browser 100)
      = (Normal doc, RefHost.browser 100) /\
    wellformed_document doc = true /\
    validateData (AppData.toJSVal doc) (RefHost.browser 100)
      = (Normal doc, RefHost.browser 100).
Proof.
  eexists. split; [reflexivity|].
  destruct (validateData_idempotent Sample.raw_document (RefHost.browser 100)
              _ _ eq_refl) as [Hw Hfix].
  split; [exact Hw|apply Hfix].
Defined.

Lemma local_save_then_load_witness :
  exists w1,
    saveToLocalStorage RefHost.host Sample.blank_document
                       (RefHost.browser 4000) = (Normal tt, w1) /\
    loadFromLocalStorage RefHost.host w1
      = (Normal (Some Sample.blank_document), w1).
Proof.
  destruct (local_save_then_load RefHost.host Sample.blank_document
              (RefHost.browser 4000) eq_refl eq_refl eq_refl)
    as (w1 & E & _ & _ & L).
  { apply Nat.leb_le. vm_compute. reflexivity. }
  exists w1. split; [exact E|exact L].
Defined.

Lemma file_save_then_open_witness :
  (exists w1 w2,
     saveDatabaseFile RefHost.host "db.yongu" Sample.blank_document
                      Fixture.picking = (Normal tt, w1) /\
     openDatabaseFile RefHost.host w1
       = (Normal (Sample.blank_document, "db.yongu"), w2)) /\
  saveDatabaseFile RefHost.host "db.yongu" Sample.blank_document
                   (Fixture.disk_full WriteData)
    = (Throw (DOMException "QuotaExceededError"),
       Fixture.disk_full WriteData).
Proof.
  destruct (file_save_then_open RefHost.host "db.yongu" Sample.blank_document
              Fixture.picking) as [Hsaved _].
  destruct (file_save_then_open RefHost.host "db.yongu" Sample.blank_document
              (Fixture.disk_full WriteData)) as [_ Hfull].
  destruct (Hsaved eq_refl eq_refl eq_refl eq_refl)
    as (w1 & w2 & E & _ & O & _).
  split; [exists w1, w2; split; [exact E|exact O]|].
  apply Hfull. reflexivity.
Defined.

Lemma createDatabaseFile_seeds_file_witness :
  (exists w1 w2,
     createDatabaseFile RefHost.host [JObj [("id", JStr Sample.ana_id)]]
                        Fixture.picking
       = (Normal (seeded_document [JObj [("id", JStr Sample.ana_id)]]
                                  Fixture.picking, "db.yongu"), w1) /\
     io w1 = [SavePickerShown;
              FileWritten "db.yongu"
                (JSON_stringify RefHost.host 2
                   (AppData.toJSVal
                      (seeded_document [JObj [("id", JStr Sample.ana_id)]]
                                       Fixture.picking)))] /\
     openDatabaseFile RefHost.host w1
       = (Normal (seeded_document [JObj [("id", JStr Sample.ana_id)]]
                                  Fixture.picking, "db.yongu"), w2)) /\
  (exists w1,
     createDatabaseFile RefHost.host [] (Fixture.disk_full CloseWritable)
       = (Throw (DOMException "QuotaExceededError"), w1) /\
     files w1 = files (Fixture.disk_full CloseWritable) /\
     io w1 = [SavePickerShown]).
Proof.
  destruct (createDatabaseFile_seeds_file RefHost.host
              [JObj [("id", JStr Sample.ana_id)]] "db.yongu" Fixture.picking
              eq_refl) as [Hseeded _].
  destruct (createDatabaseFile_seeds_file RefHost.host
              [] "db.yongu" (Fixture.disk_full CloseWritable) eq_refl)
    as [_ Hfull].
  split.
  - destruct (Hseeded eq_refl) as (w1 & E & _ & _ & Hio & _ & Hopen).
    destruct (Hopen eq_refl ltac:(vm_compute; reflexivity)) as [w2 O].
    exists w1, w2. split; [exact E|]. split; [exact Hio|exact O].
  - destruct (Hfull (DOMException "QuotaExceededError") eq_refl)
      as (w1 & E & Hf & Hio & _).
    exists w1. split; [exact E|]. split; [exact Hf|exact Hio].
Defined.

Lemma file_backend_failures_propagate_witness :
  (exists w', openDatabaseFile RefHost.host Fixture.dismissing
              = (Throw (DOMException "AbortError"), w')) /\
  (exists w', createDatabaseFile RefHost.host [] Fixture.dismissing
              = (Throw (DOMException "AbortError"), w')) /\
  (exists w', openDatabaseFile RefHost.host Fixture.picking_notes
              = (Throw (SyntaxError "Unexpected token in JSON"), w') /\
              files w' = files Fixture.picking_notes).
Proof.
  destruct (file_backend_failures_propagate RefHost.host []
              Fixture.dismissing) as (Ho & Hc & _).
  destruct (file_backend_failures_propagate RefHost.host []
              Fixture.picking_notes) as (_ & _ & Hbad).
  destruct (Ho _ eq_refl) as (w1 & E1 & _).
  destruct (Hc _ eq_refl) as (w2 & E2 & _).
  destruct (Hbad "notes.txt" "{oops" eq_refl eq_refl eq_refl)
    as (w3 & E3 & _ & Hf).
  split; [now exists w1|]. split; [now exists w2|]. now exists w3.
Defined.

Lemma exported_row_splits_into_cells_witness :
  cellTexts RefHost.host Sample.sparse !! 2%nat = Some EmptyString /\
  splitCSVLine (join "," (csvRow RefHost.host Sample.sparse)) !! 2%nat
    = Some (str dquote) /\
  splitCSVLine (join "," (csvRow RefHost.host Sample.sparse)) !! 1%nat
    = Some "Foo, Inc.".
Proof.
  destruct (exported_row_splits_into_cells RefHost.host Sample.sparse)
    as (_ & _ & _ & Hcell).
  split; [reflexivity|]. split.
  - apply (Hcell 2%nat EmptyString). reflexivity.
  - apply (Hcell 1%nat "Foo, Inc."). reflexivity.
Defined.

Lemma val_first_matching_header_witness :
  val ["name"; "company"; "company email"] ["Ana"; " Foo "; "a@foo.example"]
      "company" = Some "Foo" /\
  val ["name"; "company"; "company email"] ["Ana"] "company" = None /\
  val ["name"; "company"] ["Ana"; "Foo"] "phone" = Some EmptyString.
Proof.
  destruct (val_first_matching_header "company"
              ["Ana"; " Foo "; "a@foo.example"]) as [Hfirst _].
  destruct (val_first_matching_header "company" ["Ana"]) as [Hshort _].
  destruct (val_first_matching_header "phone" ["Ana"; "Foo"]) as [_ Hnone].
  split; [|split].
  - apply (Hfirst ["name"] "company" ["company email"]);
      [repeat constructor|reflexivity].
  - apply (Hshort ["name"] "company" ["company email"]);
      [repeat constructor|reflexivity].
  - apply Hnone. repeat constructor.
Defined.

Lemma parseCSV_imports_nothing_witness :
  parseCSV RefHost.host "Name,Company" (RefHost.browser 100)
    = (Normal [], RefHost.browser 100) /\
  parseCSV RefHost.host Fixture.csv_no_name_column (RefHost.browser 100)
    = (Normal [], RefHost.browser 100).
Proof.
  destruct (parseCSV_imports_nothing RefHost.host "Name,Company"
              (RefHost.browser 100)) as [Hone _].
  destruct (parseCSV_imports_nothing RefHost.host Fixture.csv_no_name_column
              (RefHost.browser 100)) as [_ Hnoname].
  split; [apply Hone; reflexivity|].
  apply Hnoname. vm_compute. repeat constructor.
Defined.

Lemma parseCSV_contacts_shape_witness :
  exists cs w',
    parseCSV RefHost.host Sample.csv_gaps (RefHost.browser 100)
      = (Normal cs, w') /\
    length cs = 1%nat /\ Forall imported_shape cs.
Proof.
  eexists _, _. split; [vm_compute; reflexivity|].
  split; [reflexivity|].
  eapply (parseCSV_contacts_shape RefHost.host Sample.csv_gaps
            (RefHost.browser 100)).
  vm_compute. reflexivity.
Defined.

Lemma parseCSV_mints_one_id_per_contact_witness :
  exists cs,
    parseCSV RefHost.host Sample.csv_gaps (RefHost.browser 100)
      = (Normal cs, after_minting 1 (RefHost.browser 100)) /\
    map Client.id cs = [randomUUID RefHost.host 0].
Proof.
  eexists. split; [vm_compute; reflexivity|].
  match goal with
  | |- map Client.id ?cs = _ =>
      destruct (parseCSV_mints_one_id_per_contact RefHost.host
                  Sample.csv_gaps (RefHost.browser 100) cs
                  (after_minting 1 (RefHost.browser 100))
                  ltac:(vm_compute; reflexivity)) as (_ & Hids & _)
  end.
  exact Hids.
Defined.

Lemma parseCSV_line_endings_witness :
  splitLines (join CRLF ["Name,Company"; "Ana Ruiz,Foo"; "Bo Lind,Bar"])
    = ["Name,Company"; "Ana Ruiz,Foo"; "Bo Lind,Bar"] /\
  parseCSV RefHost.host
    (join CRLF ["Name,Company"; "Ana Ruiz,Foo"; "Bo Lind,Bar"])
    (RefHost.browser 100)
  = parseCSV RefHost.host
      (join (str LF) ["Name,Company"; "Ana Ruiz,Foo"; "Bo Lind,Bar"])
      (RefHost.browser 100).
Proof.
  destruct (parseCSV_line_endings RefHost.host
              ["Name,Company"; "Ana Ruiz,Foo"; "Bo Lind,Bar"]
              (RefHost.browser 100)) as [Hlines Hsame].
  { repeat constructor. }
  split; [apply Hlines; discriminate|exact Hsame].
Defined.

Lemma sample_ids_distinct :
  NoDup (map Client.id [Sample.bo; Sample.ana]).
Proof.
  apply NoDup_cons. split.
  - intros Hin. apply list_elem_of_In in Hin. destruct Hin as [E|[]].
    discriminate E.
  - apply NoDup_singleton.
Defined.

Lemma updatedClients_keeps_ids_distinct_witness :
  NoDup (map Client.id (updatedClients [Sample.bo; Sample.ana]
                                       Sample.ana_edited)) /\
  In Sample.ana_edited (updatedClients [Sample.bo; Sample.ana]
                                       Sample.ana_edited).
Proof.
  destruct (updatedClients_keeps_ids_distinct [Sample.bo; Sample.ana]
              Sample.ana_edited sample_ids_distinct) as (ND & Hin & _).
  split; [exact ND|exact Hin].
Defined.

Lemma handleDeleteClient_removes_id_witness :
  exists st' w',
    handleDeleteClient RefHost.host true Sample.ana_id Sample.app
                       (RefHost.browser 4000) = (Normal st', w') /\
    NoDup (map Client.id (clients st')) /\
    ~ In Sample.ana (clients st') /\
    In Sample.bo (clients st').
Proof.
  destruct (handleDeleteClient_removes_id RefHost.host Sample.ana_id
              Sample.app (RefHost.browser 4000))
    as (_ & st' & w' & E & Hin & _ & ND & _).
  exists st', w'. split; [exact E|].
  split; [exact (ND sample_ids_distinct)|]. split.
  - intros Hx. apply Hin in Hx as [_ Hne]. now apply Hne.
  - apply Hin. split; [now left|discriminate].
Defined.

Lemma add_then_delete_restores_witness :
  exists st1 w1 st2 w2,
    handleSaveClient RefHost.host Sample.ana (Fixture.local_app [Sample.bo])
                     (RefHost.browser 4000) = (Normal st1, w1) /\
    clients st1 = [Sample.bo; Sample.ana] /\
    handleDeleteClient RefHost.host true Sample.ana_id st1 w1
      = (Normal st2, w2) /\
    clients st2 = [Sample.bo].
Proof.
  destruct (add_then_delete_restores RefHost.host Sample.ana
              (Fixture.local_app [Sample.bo]) (RefHost.browser 4000))
    as (st1 & w1 & st2 & w2 & E1 & Hc1 & E2 & Hc2).
  { intros x [<-|[]]. discriminate. }
  exists st1, w1, st2, w2. auto.
Defined.

Lemma handleSaveClient_persists_witness :
  (exists st' w',
     handleSaveClient RefHost.host Sample.ana_edited Sample.app
                      (RefHost.browser 4000) = (Normal st', w') /\
     localStorage w' !! LOCAL_STORAGE_KEY
       = Some (JSON_stringify RefHost.host 0
                 (AppData.toJSVal
                    (saved_document RefHost.host
                       [Sample.bo; Sample.ana_edited] None
                       (RefHost.browser 4000)))) /\
     alerts w' = []) /\
  (exists st' w',
     handleSaveClient RefHost.host Sample.ana_edited
                      (Fixture.file_app [Sample.bo; Sample.ana])
                      Fixture.picking = (Normal st', w') /\
     files w' !! "db.yongu"
       = Some (JSON_stringify RefHost.host 2
                 (AppData.toJSVal
                    (saved_document RefHost.host
                       [Sample.bo; Sample.ana_edited] None
                       Fixture.picking))) /\
     localStorage w' = ∅) /\
  (exists st' w',
     handleSaveClient RefHost.host Sample.ana_edited
                      (Fixture.file_app [Sample.bo; Sample.ana])
                      (Fixture.disk_full WriteData) = (Normal st', w') /\
     clients st' = [Sample.bo; Sample.ana_edited] /\
     files w' !! "db.yongu" = Some "{}" /\
     alerts w' = ["Failed to save changes."]) /\
  (exists st',
     handleSaveClient RefHost.host Sample.ana_edited
                      (Fixture.detached_app [Sample.bo; Sample.ana])
                      (RefHost.browser 4000)
       = (Normal st', RefHost.browser 4000) /\
     clients st' = [Sample.bo; Sample.ana_edited]).
Proof.
  destruct (handleSaveClient_persists RefHost.host Sample.ana_edited
              Sample.app (RefHost.browser 4000)) as (Hlocal & _ & _ & _).
  destruct (handleSaveClient_persists RefHost.host Sample.ana_edited
              (Fixture.file_app [Sample.bo; Sample.ana])
              Fixture.picking) as (_ & Hfile & _ & _).
  destruct (handleSaveClient_persists RefHost.host Sample.ana_edited
              (Fixture.file_app [Sample.bo; Sample.ana])
              (Fixture.disk_full WriteData)) as (_ & _ & Hfull & _).
  destruct (handleSaveClient_persists RefHost.host Sample.ana_edited
              (Fixture.detached_app [Sample.bo; Sample.ana])
              (RefHost.browser 4000)) as (_ & _ & _ & Hdetached).
  split; [|split; [|split]].
  - apply Hlocal; [reflexivity|]. apply Nat.leb_le. vm_compute. reflexivity.
  - destruct (Hfile "db.yongu" eq_refl eq_refl eq_refl)
      as (st' & w' & E & Hf & Hs & _).
    exists st', w'. split; [exact E|]. split; [exact Hf|exact Hs].
  - destruct (Hfull "db.yongu" (DOMException "QuotaExceededError")
                eq_refl eq_refl eq_refl)
      as (st' & w' & E & Hc & Hf & _ & Ha).
    exists st', w'. split; [exact E|]. split; [exact Hc|].
    split; [now rewrite Hf|exact Ha].
  - apply Hdetached; reflexivity.
Defined.

Lemma handleSaveClient_store_full_witness :
  exists st' w',
    handleSaveClient RefHost.host Sample.ana_edited Sample.app
                     (RefHost.browser 10) = (Normal st', w') /\
    clients st' = [Sample.bo; Sample.ana_edited] /\
    localStorage w' = ∅ /\
    alerts w' = ["Warning: Local storage full. Some data may not be saved."].
Proof.
  apply (handleSaveClient_store_full RefHost.host Sample.ana_edited
           Sample.app (RefHost.browser 10) eq_refl).
  apply Nat.ltb_lt. vm_compute. reflexivity.
Defined.

Lemma filteredClients_properties_witness :
  filteredClients [Sample.bo; Sample.ana] "NUKE" "All"
                  IndustrySector.ANIMATION = [Sample.ana] /\
  Forall (fun c => Client.sector c = IndustrySector.ANIMATION)
         (filteredClients [Sample.bo; Sample.ana] "NUKE" "All"
                          IndustrySector.ANIMATION).
Proof.
  destruct (filteredClients_properties [Sample.bo; Sample.ana] "NUKE" "All"
              IndustrySector.ANIMATION) as (_ & _ & _ & Hsector).
  split; [vm_compute; reflexivity|]. apply Hsector. discriminate.
Defined.

Lemma handleAddTag_deduplicates_witness :
  handleAddTag "a" Fixture.newcomer "Houdini" = (Fixture.newcomer, "Houdini") /\
  handleAddTag "Enter" Fixture.newcomer "   " = (Fixture.newcomer, "   ") /\
  tags_of (fst (handleAddTag "Enter" Fixture.newcomer " Houdini "))
    = ["Houdini"] /\
  fst (handleAddTag "Enter" (formOf Sample.ana) "Nuke ") = formOf Sample.ana /\
  NoDup (tags_of (fst (handleAddTag "Enter" (formOf Sample.ana) "Maya"))).
Proof.
  destruct (handleAddTag_deduplicates "a" Fixture.newcomer "Houdini")
    as [Hkey _].
  destruct (handleAddTag_deduplicates "Enter" Fixture.newcomer "   ")
    as [Hblank _].
  destruct (handleAddTag_deduplicates "Enter" Fixture.newcomer " Houdini ")
    as [_ Hnew].
  destruct (handleAddTag_deduplicates "Enter" (formOf Sample.ana) "Nuke ")
    as [_ Hold].
  destruct (handleAddTag_deduplicates "Enter" (formOf Sample.ana) "Maya")
    as [_ Hmore].
  destruct (Hnew eq_refl ltac:(discriminate)) as (_ & _ & _ & Happ & _).
  destruct (Hold eq_refl ltac:(discriminate)) as (_ & _ & Hsame & _).
  destruct (Hmore eq_refl ltac:(discriminate)) as (_ & _ & _ & _ & ND).
  split; [apply Hkey; left; discriminate|].
  split; [apply Hblank; right; reflexivity|].
  split; [apply Happ; intros []|].
  split; [apply Hsame; left; reflexivity|].
  apply ND. apply NoDup_cons. split.
  - intros Hin. apply list_elem_of_In in Hin. destruct Hin as [E|[]].
    discriminate E.
  - apply NoDup_singleton.
Defined.

Lemma removeTag_removes_witness :
  tags_of (removeTag "Nuke" (formOf Sample.ana)) = ["Pipeline"] /\
  tags_of (removeTag "Maya"
             (fst (handleAddTag "Enter" (formOf Sample.ana) " Maya")))
    = ["Nuke"; "Pipeline"].
Proof.
  destruct (removeTag_removes "Maya" (formOf Sample.ana))
    as (_ & _ & _ & Hundo).
  split; [reflexivity|].
  apply (Hundo " Maya"); [reflexivity|discriminate|].
  intros [E|[E|[]]]; discriminate E.
Defined.

Lemma add_then_delete_log_witness :
  exists st' w',
    handleAddLog RefHost.host (Fixture.first_contact "2024-03-10")
                 (RefHost.browser 100) = (Normal st', w') /\
    length (logs_of (formData st')) = 1%nat /\
    logs_of (handleDeleteLog (randomUUID RefHost.host 0) (formData st')) = [] /\
    PartialClient.lastContactDate
      (handleDeleteLog (randomUUID RefHost.host 0) (formData st'))
      = Some "2024-03-10T00:00:00.000Z".
Proof.
  destruct (add_then_delete_log RefHost.host
              (Fixture.first_contact "2024-03-10") (RefHost.browser 100)
              "Rang back" 1710028800000 eq_refl ltac:(discriminate) eq_refl
              ltac:(constructor))
    as (st' & w' & E & Hlogs & Hback & _ & Hstays).
  exists st', w'. split; [exact E|].
  split; [now rewrite Hlogs|]. split; [exact Hback|].
  apply Hstays. reflexivity.
Defined.

Lemma handleAddLog_edges_witness :
  handleAddLog RefHost.host Fixture.no_notes (RefHost.browser 100)
    = (Normal Fixture.no_notes, RefHost.browser 100) /\
  handleAddLog RefHost.host (Sample.form "soon") (RefHost.browser 100)
    = (Throw (RangeError "Invalid time value"),
       after_minting 1 (RefHost.browser 100)) /\
  (exists st' w',
     handleAddLog RefHost.host (Sample.form "2024-03-10")
                  (RefHost.browser 100) = (Normal st', w') /\
     showLogForm st' = false /\
     handleAddLog RefHost.host st' w' = (Normal st', w')).
Proof.
  destruct (handleAddLog_edges RefHost.host Fixture.no_notes
              (RefHost.browser 100)) as (Hnone & _ & _).
  destruct (handleAddLog_edges RefHost.host (Sample.form "soon")
              (RefHost.browser 100)) as (_ & Hbad & _).
  destruct (handleAddLog_edges RefHost.host (Sample.form "2024-03-10")
              (RefHost.browser 100)) as (_ & _ & Hagain).
  split; [apply Hnone; reflexivity|].
  split; [apply Hbad; reflexivity|].
  eexists _, _. split; [vm_compute; reflexivity|].
  edestruct Hagain as (_ & _ & Hclosed & Hnothing);
    [reflexivity|vm_compute; reflexivity|].
  split; [exact Hclosed|exact Hnothing].
Defined.

Lemma handleSubmit_rules_witness :
  handleSubmit RefHost.host None Fixture.nameless (RefHost.browser 100)
    = (Normal None, RefHost.browser 100) /\
  (exists c,
     handleSubmit RefHost.host None Fixture.newcomer (RefHost.browser 100)
       = (Normal (Some c), after_minting 1 (RefHost.browser 100)) /\
     Client.id c = randomUUID RefHost.host 0 /\
     Client.statusUpdatedAt c = Some "2024-03-05T10:30:00.000Z") /\
  (exists c,
     handleSubmit RefHost.host (Some Sample.ana) (formOf Sample.ana)
                  (RefHost.browser 100)
       = (Normal (Some c), RefHost.browser 100) /\
     Client.id c = Sample.ana_id /\
     Client.statusUpdatedAt c = Some "2024-02-01T09:00:00.000Z") /\
  (exists c w',
     handleSubmit RefHost.host (Some Sample.ana) (formOf Sample.ana_edited)
                  (RefHost.browser 100) = (Normal (Some c), w') /\
     Client.statusUpdatedAt c = Some "2024-03-05T10:30:00.000Z").
Proof.
  destruct (handleSubmit_rules RefHost.host None Fixture.nameless
              (RefHost.browser 100)) as [Hgate _].
  destruct (handleSubmit_rules RefHost.host None Fixture.newcomer
              (RefHost.browser 100)) as [_ Hnew].
  destruct (handleSubmit_rules RefHost.host (Some Sample.ana)
              (formOf Sample.ana) (RefHost.browser 100)) as [_ Hkept].
  destruct (handleSubmit_rules RefHost.host (Some Sample.ana)
              (formOf Sample.ana_edited) (RefHost.browser 100))
    as [_ Hchanged].
  destruct (Hnew eq_refl eq_refl)
    as (c1 & w1 & E1 & _ & _ & _ & Hmint & _ & Hnow).
  destruct (Hkept eq_refl eq_refl)
    as (c2 & w2 & E2 & _ & _ & Hid & _ & Hold & _).
  destruct (Hchanged eq_refl eq_refl)
    as (c3 & w3 & E3 & _ & _ & _ & _ & _ & Hstamp).
  destruct (Hmint eq_refl) as [Hid1 ->].
  destruct (Hid eq_refl) as [Hid2 ->].
  split; [apply Hgate; left; reflexivity|].
  split; [exists c1; split; [exact E1|]; split;
          [exact Hid1|apply Hnow; now left]|].
  split.
  - exists c2. split; [exact E2|]. split.
    + now injection Hid2.
    + apply (Hold Sample.ana); reflexivity.
  - exists c3, w3. split; [exact E3|]. apply Hstamp. right.
    exists Sample.ana. split; [reflexivity|discriminate].
Defined.

Lemma fixture_ids_distinct :
  NoDup (map Client.id [Sample.bo; Fixture.full]).
Proof.
  apply NoDup_cons. split.
  - intros Hin. apply list_elem_of_In in Hin. destruct Hin as [E|[]].
    discriminate E.
  - apply NoDup_singleton.
Defined.

Lemma submit_existing_client_witness :
  (exists st' w',
     submitAndSave RefHost.host (Some Fixture.full) (formOf Fixture.full)
                   (Fixture.local_app [Sample.bo; Fixture.full])
                   (RefHost.browser 4000) = (Normal st', w') /\
     clients st' = [Sample.bo; Fixture.full]) /\
  (exists st' w',
     submitAndSave RefHost.host (Some Fixture.full) (formOf Sample.ana_edited)
                   (Fixture.local_app [Sample.bo; Fixture.full])
                   (RefHost.browser 4000) = (Normal st', w') /\
     length (clients st') = 2%nat).
Proof.
  destruct (submit_existing_client RefHost.host Fixture.full
              (Fixture.local_app [Sample.bo; Fixture.full])
              (RefHost.browser 4000)) as [Hsame Hlen].
  { right. now left. }
  split; [exact (Hsame fixture_ids_distinct eq_refl)|].
  assert (Hrun : exists st' w',
            submitAndSave RefHost.host (Some Fixture.full)
                          (formOf Sample.ana_edited)
                          (Fixture.local_app [Sample.bo; Fixture.full])
                          (RefHost.browser 4000) = (Normal st', w')).
  { eexists _, _. vm_compute. reflexivity. }
  destruct Hrun as (st' & w' & E). exists st', w'. split; [exact E|].
  apply (Hlen (formOf Sample.ana_edited) st' w');
    [reflexivity|discriminate|exact E].
Defined.


